(** * spice-spice-baby: the recipe ingestion pipeline

    A shallow embedding of the decision logic of the worker:
    - [EmailParser]     : src/services/email-parser.ts
    - [Claude]          : src/services/claude.ts
    - [VideoDownloader] : src/services/video-downloader.ts
    - [Transcriber]     : src/services/transcriber.ts
    - [Paprika]         : src/services/paprika.ts
    - [Worker]          : src/index.ts (the email handler)

    Conventions.  A JavaScript string is a sequence of UTF-16 code units; it is
    modelled by [string], whose characters stand for the code units 0..255
    (ASCII and Latin-1).  A function that may throw returns [result]; [Throw]
    carries the exception.  Platform services the sources call but do not
    define ([new URL], [JSON.parse], the MIME parser, the remote services) are
    Section variables, so that the general theorems hold whatever they answer;
    executable models of the first two ([Url.pathname], [Json.parse]) are
    supplied for the closed examples. *)

From Stdlib Require Import String Ascii List Bool Arith NArith DecimalString DecimalN Lia.
From Stdlib Require HexadecimalString.
Import ListNotations.
Open Scope list_scope.
Open Scope string_scope.

(** ** JavaScript values and string primitives *)

Module Js.

(** Exceptions: the platform's [TypeError] and [SyntaxError], and the
    [Error]s the worker throws itself, with their message. *)
Inductive exn : Type :=
| TypeError
| SyntaxError
| Error (msg : string).

Inductive result (A : Type) : Type :=
| Ok (a : A)
| Throw (e : exn).

Arguments Ok {A} a.
Arguments Throw {A} e.

(** The code unit a character stands for. *)
Definition code (c : ascii) : N := N_of_ascii c.

Definition between (lo hi n : N) : bool := ((lo <=? n) && (n <=? hi))%N.

(** [\s] of a regular expression, and what [trim] removes: TAB, LF, VT, FF,
    CR, SPACE and NBSP (the white space and line terminators below 256). *)
Definition isSpace (c : ascii) : bool :=
  between 9 13 (code c) || between 32 32 (code c) || between 160 160 (code c).

(** [\d] *)
Definition isDigit (c : ascii) : bool := between 48 57 (code c).

(** Code units that [toLowerCase] changes: A-Z and the Latin-1 capitals
    U+00C0..U+00DE, the multiplication sign U+00D7 apart. *)
Definition isUpper (c : ascii) : bool :=
  between 65 90 (code c) ||
  (between 192 222 (code c) && negb (between 215 215 (code c))).

Definition toLower (c : ascii) : ascii :=
  if isUpper c then ascii_of_N (code c + 32) else c.

Fixpoint toLowerCase (s : string) : string :=
  match s with
  | EmptyString => EmptyString
  | String c s' => String (toLower c) (toLowerCase s')
  end.

(** [s.startsWith(p)] *)
Fixpoint startsWith (s p : string) : bool :=
  match p, s with
  | EmptyString, _ => true
  | String _ _, EmptyString => false
  | String a p', String b s' => if Ascii.eqb a b then startsWith s' p' else false
  end.

(** [s.includes(p)] *)
Fixpoint includes (s p : string) : bool :=
  startsWith s p ||
  match s with
  | EmptyString => false
  | String _ s' => includes s' p
  end.

(** [s.substring(0, n)] and [s.substring(n)] *)
Fixpoint take (n : nat) (s : string) : string :=
  match n, s with
  | S n', String c s' => String c (take n' s')
  | _, _ => EmptyString
  end.

Fixpoint drop (n : nat) (s : string) : string :=
  match n, s with
  | S n', String _ s' => drop n' s'
  | _, _ => s
  end.

(** [s.split(sep)] for a one-character separator *)
Fixpoint split (sep : ascii) (s : string) : list string :=
  match s with
  | EmptyString => [EmptyString]
  | String c s' =>
      if Ascii.eqb c sep then EmptyString :: split sep s'
      else match split sep s' with
           | [] => [String c EmptyString]
           | w :: ws => String c w :: ws
           end
  end.

Definition nonEmpty (s : string) : bool := negb (String.eqb s EmptyString).

(** [s], lower-cased, starts with the lower-case [p]: a literal prefix of a
    pattern with the [i] flag. *)
Fixpoint startsWithNoCase (s p : string) : bool :=
  match p, s with
  | EmptyString, _ => true
  | String _ _, EmptyString => false
  | String a p', String b s' =>
      if Ascii.eqb a (toLower b) then startsWithNoCase s' p' else false
  end.

(** The longest prefix whose characters satisfy [p], and what follows it. *)
Fixpoint takeWhile (p : ascii -> bool) (s : string) : string :=
  match s with
  | String c s' => if p c then String c (takeWhile p s') else EmptyString
  | EmptyString => EmptyString
  end.

Fixpoint dropWhile (p : ascii -> bool) (s : string) : string :=
  match s with
  | String c s' => if p c then dropWhile p s' else s
  | EmptyString => EmptyString
  end.

Definition takeUntil (p : ascii -> bool) (s : string) : string :=
  takeWhile (fun c => negb (p c)) s.

Definition dropUntil (p : ascii -> bool) (s : string) : string :=
  dropWhile (fun c => negb (p c)) s.

(** [parseInt(s)] on a string of decimal digits.  Exact; the platform rounds
    to a double above 2^53. *)
Fixpoint digitsValue (acc : N) (s : string) : N :=
  match s with
  | EmptyString => acc
  | String c s' => digitsValue (10 * acc + (N_of_ascii c - 48))%N s'
  end.

Definition parseInt (s : string) : N := digitsValue 0 s.

(** [allOf p s]: every character of [s] satisfies [p] *)
Fixpoint allOf (p : ascii -> bool) (s : string) : bool :=
  match s with
  | EmptyString => true
  | String c s' => p c && allOf p s'
  end.

(** [s.replace(/[cls]+$/, '')]: the longest suffix made of characters of the
    class is removed. *)
Fixpoint stripTrailing (p : ascii -> bool) (s : string) : string :=
  match s with
  | EmptyString => EmptyString
  | String c s' => if allOf p s then EmptyString else String c (stripTrailing p s')
  end.

Fixpoint trimStart (s : string) : string :=
  match s with
  | String c s' => if isSpace c then trimStart s' else s
  | EmptyString => EmptyString
  end.

(** [s.trim()] *)
Definition trim (s : string) : string := stripTrailing isSpace (trimStart s).

(** [a || d] on strings that may be undefined: the empty string is falsy. *)
Definition orElse (a : option string) (d : string) : string :=
  match a with
  | Some s => if nonEmpty s then s else d
  | None => d
  end.

(** One character, by its code; the double quote and the line feed. *)
Definition chr (n : N) : string := String (ascii_of_N n) EmptyString.
Definition dquote : string := chr 34.
Definition nl : string := chr 10.

(** [endsOutside q p]: [p] is not empty and its last character is outside
    the class [q]. *)
Fixpoint endsOutside (q : ascii -> bool) (p : string) : bool :=
  match p with
  | EmptyString => false
  | String c EmptyString => negb (q c)
  | String _ p' => endsOutside q p'
  end.

(** *** Facts about the string primitives *)

Example split_path : split "/" "/blog//soup/" = [""; "blog"; ""; "soup"; ""].
Proof. vm_compute; reflexivity. Qed.

Example trim_both : trim "  {a b}  " = "{a b}".
Proof. vm_compute; reflexivity. Qed.

Example includes_lower : includes (toLowerCase "https://VM.TikTok.com/x") "tiktok.com" = true.
Proof. vm_compute; reflexivity. Qed.

Example stripTrailing_run :
  stripTrailing (fun c => Ascii.eqb c ".") "a.b..." = "a.b".
Proof. vm_compute; reflexivity. Qed.

Lemma append_empty_r (s : string) : s ++ "" = s.
Proof. induction s as [|c s IH]; simpl; [reflexivity | now rewrite IH]. Qed.

Lemma append_assoc (a b c : string) : (a ++ b) ++ c = a ++ (b ++ c).
Proof. induction a as [|x a IH]; simpl; [reflexivity | now rewrite IH]. Qed.

Lemma length_append (a b : string) :
  String.length (a ++ b) = String.length a + String.length b.
Proof. induction a as [|x a IH]; simpl; [reflexivity | now rewrite IH]. Qed.

Lemma toLowerCase_append (a b : string) :
  toLowerCase (a ++ b) = toLowerCase a ++ toLowerCase b.
Proof. induction a as [|x a IH]; simpl; [reflexivity | now rewrite IH]. Qed.

Lemma startsWith_snoc (q : ascii -> bool) (c : ascii) :
  q c = true ->
  forall p s, endsOutside q p = true ->
  startsWith (s ++ String c "") p = startsWith s p.
Proof.
  intros Hc p; induction p as [|a p IH]; intros s Hp; [discriminate|].
  destruct s as [|b s]; simpl.
  - destruct p as [|a' p].
    + simpl in Hp. destruct (Ascii.eqb_spec a c) as [->|_].
      * now rewrite Hc in Hp.
      * reflexivity.
    + now destruct (Ascii.eqb a c).
  - destruct p as [|a' p].
    + now destruct s.
    + destruct (Ascii.eqb a b); [now apply IH | reflexivity].
Qed.

Lemma includes_snoc (q : ascii -> bool) (c : ascii) :
  q c = true ->
  forall p s, endsOutside q p = true ->
  includes (s ++ String c "") p = includes s p.
Proof.
  intros Hc p s Hp; induction s as [|b s IH].
  - change (includes ("" ++ String c "") p)
      with (startsWith ("" ++ String c "") p || (startsWith "" p || false)).
    rewrite (startsWith_snoc q c Hc p "" Hp).
    destruct p; [discriminate | reflexivity].
  - change (includes (String b s ++ String c "") p)
      with (startsWith (String b s ++ String c "") p || includes (s ++ String c "") p).
    now rewrite (startsWith_snoc q c Hc p _ Hp), IH.
Qed.

(** A pattern that ends outside the class is found in [s ++ t], [t] made of
    characters of the class, exactly when it is found in [s]. *)
Lemma includes_append_class (q : ascii -> bool) (p : string) :
  endsOutside q p = true ->
  forall t s, allOf q t = true -> includes (s ++ t) p = includes s p.
Proof.
  intros Hp t; induction t as [|c t IH]; intros s Ht.
  - now rewrite append_empty_r.
  - simpl in Ht. apply andb_prop in Ht as [Hc Ht].
    change (String c t) with (String c "" ++ t).
    rewrite <- append_assoc, IH by assumption.
    now apply (includes_snoc q).
Qed.

Lemma allOf_toLowerCase (q : ascii -> bool) :
  (forall c, q c = true -> toLower c = c) ->
  forall t, allOf q t = true -> toLowerCase t = t.
Proof.
  intros Hq t; induction t as [|c t IH]; simpl; intros H; [reflexivity|].
  apply andb_prop in H as [Hc Ht]. now rewrite (Hq c Hc), IH.
Qed.

Lemma stripTrailing_split (q : ascii -> bool) (s : string) :
  exists t, s = stripTrailing q s ++ t /\ allOf q t = true.
Proof.
  induction s as [|c s [t [Hs Ht]]].
  - now exists "".
  - unfold stripTrailing; fold stripTrailing.
    destruct (allOf q (String c s)) eqn:Hall.
    + now exists (String c s).
    + exists t. simpl. now rewrite <- Hs.
Qed.

(** Removing a trailing run of class characters neither adds nor removes an
    occurrence of a pattern that ends outside the class, in the lower-cased
    string as well. *)
Lemma includes_stripTrailing (q : ascii -> bool) (p s : string) :
  (forall c, q c = true -> toLower c = c) ->
  endsOutside q p = true ->
  includes (toLowerCase (stripTrailing q s)) p = includes (toLowerCase s) p.
Proof.
  intros Hq Hp. destruct (stripTrailing_split q s) as [t [Hs Ht]].
  rewrite Hs at 2. rewrite toLowerCase_append, (allOf_toLowerCase q Hq t Ht).
  symmetry. now apply (includes_append_class q).
Qed.

End Js.

Import Js.

(** ** [new URL(url).pathname]

    An executable model of the platform's URL parser on the strings the worker
    passes to it, which all start with [http://] or [https://].  [None] stands
    for the [TypeError] the constructor throws.  Modelled: the scheme, the
    slashes after it, credentials, the missing-host failure, the port check
    and the split of the path from query and fragment.  Not modelled: host
    name validation, percent-encoding and the removal of dot segments. *)

Module Url.

Definition isSlash (c : ascii) : bool :=
  Ascii.eqb c "/"%char || Ascii.eqb c "\"%char.

Definition endsAuthority (c : ascii) : bool :=
  isSlash c || Ascii.eqb c "?"%char || Ascii.eqb c "#"%char.

Definition endsPath (c : ascii) : bool :=
  Ascii.eqb c "?"%char || Ascii.eqb c "#"%char.

(** The part of the authority after its last [@]. *)
Fixpoint afterLastAt (s : string) : string :=
  match s with
  | EmptyString => EmptyString
  | String c s' =>
      if Ascii.eqb c "@"%char && negb (includes s' "@") then s'
      else if includes s "@" then afterLastAt s'
      else s
  end.

Definition validPort (p : string) : bool :=
  match p with
  | EmptyString => true
  | String _ rest =>            (* the leading colon *)
      allOf isDigit rest && (parseInt rest <=? 65535)%N
  end.

Definition afterScheme (url : string) : option string :=
  if startsWithNoCase url "https:" then Some (drop 6 url)
  else if startsWithNoCase url "http:" then Some (drop 5 url)
  else None.

Definition pathname (url : string) : option string :=
  match afterScheme url with
  | None => None
  | Some rest =>
      let rest := dropWhile isSlash rest in
      let authority := takeUntil endsAuthority rest in
      let hostport := afterLastAt authority in
      let host := takeUntil (Ascii.eqb ":"%char) hostport in
      let port := dropUntil (Ascii.eqb ":"%char) hostport in
      if nonEmpty host && validPort port then
        let path := takeUntil endsPath (dropUntil endsAuthority rest) in
        Some (if nonEmpty path then path else "/")
      else None
  end.

Example pathname_page : pathname "https://example.com/blog/soup?x=1" = Some "/blog/soup".
Proof. vm_compute; reflexivity. Qed.

Example pathname_home : pathname "https://example.com" = Some "/".
Proof. vm_compute; reflexivity. Qed.

Example pathname_no_host : pathname "http://" = None.
Proof. vm_compute; reflexivity. Qed.

End Url.

(** ** src/services/email-parser.ts *)

Module EmailParser.

Inductive ItemType : Type := TImage | TPdf | TUrl | TVideo.

Inductive Platform : Type := Tiktok | Instagram.

(** [data: ArrayBuffer | string] *)
Inductive ItemData : Type :=
| Buffer (bytes : string)
| Text (s : string).

Record ContentItem : Type := mkItem {
  type : ItemType;
  data : ItemData;
  mimeType : option string;
  filename : option string;
  platform : option Platform
}.

Record ParsedEmailContent : Type := mkParsed {
  images : list ContentItem;
  pdfs : list ContentItem;
  urls : list ContentItem;
  videos : list ContentItem
}.

(** What the MIME parser hands back, as far as the worker reads it. *)
Inductive AttachmentContent : Type :=
| ContentString (s : string)
| ContentBuffer (bytes : string).

Record Attachment : Type := mkAttachment {
  att_mimeType : option string;
  att_content : AttachmentContent;
  att_filename : option string
}.

Record Email : Type := mkEmail {
  attachments : option (list Attachment);
  text : option string;
  html : option string
}.

(** [rawEmail: ReadableStream<Uint8Array> | string] *)
Inductive RawEmail : Type :=
| RawString (s : string)
| RawStream (chunks : list string).

Definition SUPPORTED_IMAGE_TYPES : list string :=
  [ "image/jpeg"; "image/jpg"; "image/png"; "image/gif"; "image/webp";
    "image/heic"; "image/heif" ].

Definition PDF_MIME_TYPE : string := "application/pdf".

Definition RECIPE_DOMAINS : list string :=
  [ "allrecipes.com"; "foodnetwork.com"; "epicurious.com"; "bonappetit.com";
    "seriouseats.com"; "simplyrecipes.com"; "budgetbytes.com"; "delish.com";
    "tasty.co"; "food52.com"; "cookinglight.com"; "myrecipes.com";
    "tasteofhome.com"; "kingarthurbaking.com"; "smittenkitchen.com";
    "minimalistbaker.com"; "thekitchn.com"; "recipetineats.com";
    "halfbakedharvest.com"; "pinchofyum.com"; "damndelicious.net";
    "therecipecritic.com"; "gimmesomeoven.com"; "cafedelites.com";
    "hostthetoast.com"; "skinnytaste.com"; "wellplated.com";
    "cookieandkate.com"; "loveandlemons.com" ].

Definition skipPatterns : list string :=
  [ "unsubscribe"; "mailto:"; "javascript:"; "facebook.com"; "twitter.com";
    "instagram.com"; "pinterest.com"; "youtube.com"; "tiktok.com";
    "linkedin.com"; "apple.com"; "google.com/search"; "amazon.com"; ".css";
    ".js"; ".png"; ".jpg"; ".gif"; "privacy"; "terms"; "login"; "signup";
    "cart"; "checkout" ].

Definition recipeKeywords : list string :=
  [ "recipe"; "cook"; "bake"; "food"; "dish"; "meal"; "ingredient" ].

(** *** The URL pattern

    [http], an optional [s] and [://], letters in either case, then one or
    more characters other than white space, the double quote and the
    characters of [<>{}|\^`[]]. *)

Definition inClass (cls : string) (c : ascii) : bool :=
  includes cls (String c EmptyString).

Definition urlChar (c : ascii) : bool :=
  negb (isSpace c || inClass "<>{}|\^`[]" c || inClass dquote c).

(** The pattern tried at the start of [s]: the matched text, if any. *)
Definition execUrl (s : string) : option string :=
  let k := if startsWithNoCase s "https://" then Some 8
           else if startsWithNoCase s "http://" then Some 7 else None in
  match k with
  | None => None
  | Some k =>
      let rest := takeWhile urlChar (drop k s) in
      if nonEmpty rest then Some (take k s ++ rest) else None
  end.

(** All matches, left to right; [skip] counts the characters of the match
    just found that are still to be passed over. *)
Fixpoint matchAll (skip : nat) (s : string) : list string :=
  match s with
  | EmptyString => []
  | String _ s' =>
      match skip with
      | S k => matchAll k s'
      | O =>
          match execUrl s with
          | Some m => m :: matchAll (String.length m - 1) s'
          | None => matchAll 0 s'
          end
      end
  end.

(** [bodyText.match(URL_PATTERN) || []] *)
Definition matchUrls (bodyText : string) : list string := matchAll 0 bodyText.

(** [url.replace(/[.,;:!?)\]]+$/, '')] *)
Definition isTrailingPunct (c : ascii) : bool := inClass ".,;:!?)]" c.

Definition cleanUrl (url : string) : string := stripTrailing isTrailingPunct url.

Definition detectVideoPlatform (url : string) : option Platform :=
  let lowerUrl := toLowerCase url in
  if includes lowerUrl "tiktok.com" || includes lowerUrl "vm.tiktok.com" then
    Some Tiktok
  else if includes lowerUrl "instagram.com/reel/" ||
          includes lowerUrl "instagram.com/p/" ||
          includes lowerUrl "instagram.com/tv/" then
    Some Instagram
  else None.

(** *** Sample messages *)

(** A message whose only content is a text body, and a MIME parser that
    returns it. *)
Definition bodyOnly (t : string) : Email := mkEmail None (Some t) None.

Definition parsedAs (email : Email) : string -> result Email := fun _ => Ok email.


Definition duplicateMail : Email :=
  bodyOnly "https://example.com/blog/soup. Again: https://example.com/blog/soup (and https://www.facebook.com/soup/)".

Definition rejectedTwiceMail : Email :=
  bodyOnly "https://www.facebook.com/soup https://www.facebook.com/soup.".

Definition youtubeMail : Email :=
  bodyOnly "Watch https://www.youtube.com/watch?v=abc and https://www.instagram.com/chef/".

Definition redirectMail : Email :=
  bodyOnly "https://www.youtube.com/redirect?q=https://www.tiktok.com/@chef/video/7 https://www.instagram.com/chef/?utm_source=tiktok.com".

Definition brokenLinkMail : Email := bodyOnly "see http://.".

(** A message with four attachments -- an image without a file name, a PDF,
    a text file and one without media type -- and two links in its body. *)
Definition attachedMail : Email :=
  mkEmail
    (Some [ mkAttachment (Some "IMAGE/PNG") (ContentBuffer "abc") None;
            mkAttachment (Some "application/pdf") (ContentString "%PDF") (Some "soup.pdf");
            mkAttachment (Some "text/plain") (ContentString "hi") (Some "note.txt");
            mkAttachment None (ContentBuffer "x") (Some "photo.jpg") ])
    (Some "Dinner: https://example.com/blog/soup, or https://vm.tiktok.com/ZM1/.")
    None.

Section Parser.

(** [new URL(url).pathname], [None] when the constructor throws. *)
Variable URL_pathname : string -> option string.

(** [PostalMime.parse]: a malformed message makes it throw. *)
Variable PostalMime_parse : string -> result Email.

Definition isLikelyRecipeUrl (url : string) : result bool :=
  let lowerUrl := toLowerCase url in
  if existsb (includes lowerUrl) skipPatterns then Ok false
  else if existsb (includes lowerUrl) RECIPE_DOMAINS then Ok true
  else if existsb (includes lowerUrl) recipeKeywords then Ok true
  else
    match URL_pathname url with
    | None => Throw TypeError
    | Some pathname =>
        let urlParts := filter nonEmpty (split "/"%char pathname) in
        Ok (1 <=? List.length urlParts)%nat
    end.

(** The state of the loop over [foundUrls]; [seenUrls] lists the members of
    the set. *)
Record UrlLoop : Type := mkLoop {
  seenUrls : list string;
  urlItems : list ContentItem;
  videoItems : list ContentItem
}.

Definition has (seen : list string) (u : string) : bool :=
  existsb (String.eqb u) seen.

Definition videoItem (u : string) (p : Platform) : ContentItem :=
  mkItem TVideo (Text u) None None (Some p).

Definition urlItem (u : string) : ContentItem :=
  mkItem TUrl (Text u) None None None.

Fixpoint scanUrls (foundUrls : list string) (st : UrlLoop) : result UrlLoop :=
  match foundUrls with
  | [] => Ok st
  | url :: rest =>
      let clean := cleanUrl url in
      if has (seenUrls st) clean then scanUrls rest st
      else
        let seen := clean :: seenUrls st in
        match detectVideoPlatform clean with
        | Some videoPlatform =>
            scanUrls rest
              (mkLoop seen (urlItems st)
                 (videoItems st ++ [videoItem clean videoPlatform])%list)
        | None =>
            match isLikelyRecipeUrl clean with
            | Throw e => Throw e
            | Ok true =>
                scanUrls rest
                  (mkLoop seen (urlItems st ++ [urlItem clean])%list (videoItems st))
            | Ok false => scanUrls rest (mkLoop seen (urlItems st) (videoItems st))
            end
        end
  end.

(** [new TextEncoder().encode(s)]: UTF-8 of the code units below 256. *)
Fixpoint utf8 (s : string) : string :=
  match s with
  | EmptyString => EmptyString
  | String c s' =>
      if (code c <? 128)%N then String c (utf8 s')
      else String (ascii_of_N (192 + code c / 64))
             (String (ascii_of_N (128 + code c mod 64)) (utf8 s'))
  end.

Definition contentBytes (c : AttachmentContent) : string :=
  match c with
  | ContentString s => utf8 s
  | ContentBuffer b => b
  end.

Definition lowerMime (a : Attachment) : string :=
  orElse (option_map toLowerCase (att_mimeType a)) "".

Definition imageOf (a : Attachment) : list ContentItem :=
  if existsb (String.eqb (lowerMime a)) SUPPORTED_IMAGE_TYPES then
    [ mkItem TImage (Buffer (contentBytes (att_content a))) (Some (lowerMime a))
        (Some (orElse (att_filename a) "image")) None ]
  else [].

Definition pdfOf (a : Attachment) : list ContentItem :=
  if String.eqb (lowerMime a) PDF_MIME_TYPE then
    [ mkItem TPdf (Buffer (contentBytes (att_content a))) (Some (lowerMime a))
        (Some (orElse (att_filename a) "document.pdf")) None ]
  else [].

Definition bodyText (email : Email) : string :=
  orElse (text email) "" ++ " " ++ orElse (html email) "".

Definition foundUrls (email : Email) : list string := matchUrls (bodyText email).

(** The body of [parseEmailContent] once the message is parsed. *)
Definition collect (email : Email) : result ParsedEmailContent :=
  let atts := match attachments email with Some l => l | None => [] end in
  match scanUrls (foundUrls email) (mkLoop [] [] []) with
  | Throw e => Throw e
  | Ok st =>
      Ok (mkParsed (flat_map imageOf atts) (flat_map pdfOf atts)
            (urlItems st) (videoItems st))
  end.

Definition rawText (rawEmail : RawEmail) : string :=
  match rawEmail with
  | RawString s => s
  | RawStream chunks => String.concat "" chunks
  end.

Definition parseEmailContent (rawEmail : RawEmail) : result ParsedEmailContent :=
  match PostalMime_parse (rawText rawEmail) with
  | Throw e => Throw e
  | Ok email => collect email
  end.

(** *** What the loop computes

    [firstSeen seen l]: the strings of [l] in the order of their first
    occurrence, those of [seen] left out.  With [seen] empty this is the list
    of cleaned URLs, deduplicated by exact string, in first-seen order. *)
Fixpoint firstSeen (seen : list string) (l : list string) : list string :=
  match l with
  | [] => []
  | c :: rest =>
      if has seen c then firstSeen seen rest else c :: firstSeen (c :: seen) rest
  end.

(** The cleaned URLs the loop classifies, in the order it classifies them. *)
Definition candidates (email : Email) : list string :=
  firstSeen [] (map cleanUrl (foundUrls email)).

(** The items one classified URL contributes to each bucket. *)
Definition videoItemsOf (c : string) : list ContentItem :=
  match detectVideoPlatform c with
  | Some p => [videoItem c p]
  | None => []
  end.

Definition urlItemsOf (c : string) : list ContentItem :=
  match detectVideoPlatform c with
  | Some _ => []
  | None =>
      match isLikelyRecipeUrl c with
      | Ok true => [urlItem c]
      | _ => []
      end
  end.

(** [accepted c]: [c] is a video link or passes the recipe filter. *)
Definition accepted (c : string) : bool :=
  match detectVideoPlatform c with
  | Some _ => true
  | None =>
      match isLikelyRecipeUrl c with
      | Ok true => true
      | _ => false
      end
  end.

Definition carries (c : string) (it : ContentItem) : bool :=
  match data it with
  | Text s => String.eqb s c
  | Buffer _ => false
  end.

(** The content items made from the URL [c]. *)
Definition itemsFor (c : string) (l : list ContentItem) : list ContentItem :=
  filter (carries c) l.

(** *** Facts *)

Lemma has_In (seen : list string) (u : string) : has seen u = true <-> In u seen.
Proof.
  unfold has. rewrite existsb_exists. split.
  - intros [x [Hx He]]. apply String.eqb_eq in He. now subst.
  - intros H. exists u. split; [assumption | apply String.eqb_refl].
Qed.

Lemma firstSeen_In (l : list string) :
  forall seen c, In c (firstSeen seen l) <-> In c l /\ ~ In c seen.
Proof.
  induction l as [|a l IH]; intros seen c; simpl; [tauto|].
  destruct (has seen a) eqn:Ha.
  - apply has_In in Ha. rewrite IH. split.
    + tauto.
    + intros [[->|H] Hn]; tauto.
  - assert (Hn : ~ In a seen) by (rewrite <- has_In, Ha; discriminate).
    simpl. rewrite IH. simpl. split.
    + intros [->|[H Hs]]; [tauto|]. split; [tauto|]. intros Hc. apply Hs. now right.
    + intros [[->|H] Hs]; [tauto|].
      destruct (string_dec a c) as [->|Hne]; [tauto|]. right. tauto.
Qed.

Lemma firstSeen_NoDup (l : list string) : forall seen, NoDup (firstSeen seen l).
Proof.
  induction l as [|a l IH]; intros seen; simpl; [constructor|].
  destruct (has seen a); [apply IH|].
  constructor; [|apply IH].
  rewrite firstSeen_In. simpl. tauto.
Qed.

Lemma In_first_split (c : string) (l : list string) :
  In c l -> exists q r, l = (q ++ c :: r)%list /\ ~ In c q.
Proof.
  induction l as [|a l IH]; simpl; [tauto|]. intros H.
  destruct (string_dec a c) as [->|Hne].
  - now exists [], l.
  - destruct H as [H|H]; [contradiction|].
    destruct (IH H) as [q [r [-> Hq]]].
    exists (a :: q), r. split; [reflexivity|]. simpl. tauto.
Qed.

(** First-seen order: when [c1] stands before [c2] in [firstSeen seen l], the
    first occurrence of [c1] in [l] is before the first occurrence of [c2]. *)
Lemma firstSeen_order (l : list string) :
  forall seen x c1 y c2 z,
  firstSeen seen l = (x ++ c1 :: y ++ c2 :: z)%list ->
  exists p q r,
    l = (p ++ c1 :: q ++ c2 :: r)%list /\ ~ In c1 p /\ ~ In c2 (p ++ c1 :: q)%list.
Proof.
  induction l as [|a l IH]; intros seen x c1 y c2 z H; simpl in H.
  - now destruct x.
  - assert (Hin : forall s x', firstSeen s l = (x' ++ c1 :: y ++ c2 :: z)%list ->
                  In c1 (firstSeen s l) /\ In c2 (firstSeen s l)).
    { intros s x' ->. split; apply in_or_app; right; [now left|].
      right. apply in_or_app. right. now left. }
    destruct (has seen a) eqn:Ha.
    + apply has_In in Ha.
      destruct (Hin _ _ H) as [H1 H2]. apply firstSeen_In in H1, H2.
      destruct (IH _ _ _ _ _ _ H) as [p [q [r [-> [Hp Hq]]]]].
      exists (a :: p), q, r. split; [reflexivity|].
      split; simpl; intros [->|Hc]; tauto.
    + destruct x as [|a' x]; simpl in H; injection H as -> H.
      * assert (H2 : In c2 (firstSeen (c1 :: seen) l))
          by (rewrite H; apply in_or_app; right; now left).
        apply firstSeen_In in H2 as [H2 Hs]. simpl in Hs.
        destruct (In_first_split c2 l H2) as [q [r [-> Hq]]].
        exists [], q, r. split; [reflexivity|]. split; [tauto|].
        simpl. intros [->|Hc]; tauto.
      * destruct (Hin _ _ H) as [H1 H2]. apply firstSeen_In in H1, H2.
        simpl in H1, H2.
        destruct (IH _ _ _ _ _ _ H) as [p [q [r [-> [Hp Hq]]]]].
        exists (a' :: p), q, r. split; [reflexivity|].
        split; simpl; intros [->|Hc]; tauto.
Qed.

(** The loop, when it does not throw, appends to each bucket the items of the
    first-seen cleaned URLs, in order. *)
Lemma scanUrls_Ok (found : list string) :
  forall st st', scanUrls found st = Ok st' ->
  urlItems st' =
    (urlItems st ++ flat_map urlItemsOf (firstSeen (seenUrls st) (map cleanUrl found)))%list /\
  videoItems st' =
    (videoItems st ++ flat_map videoItemsOf (firstSeen (seenUrls st) (map cleanUrl found)))%list.
Proof.
  induction found as [|u found IH]; intros st st' H; simpl in H.
  - injection H as <-. simpl. now rewrite !app_nil_r.
  - simpl. destruct (has (seenUrls st) (cleanUrl u)); [now apply IH|].
    simpl. unfold urlItemsOf at 1, videoItemsOf at 1.
    destruct (detectVideoPlatform (cleanUrl u)) as [p|].
    + apply IH in H as [H1 H2]. simpl in H1, H2.
      rewrite H1, H2. now rewrite <- app_assoc.
    + destruct (isLikelyRecipeUrl (cleanUrl u)) as [[|]|e]; [| |discriminate];
        apply IH in H as [H1 H2]; simpl in H1, H2; rewrite H1, H2;
        now rewrite <- ?app_assoc.
Qed.

Lemma collect_Ok (email : Email) (out : ParsedEmailContent) :
  collect email = Ok out ->
  urls out = flat_map urlItemsOf (candidates email) /\
  videos out = flat_map videoItemsOf (candidates email).
Proof.
  unfold collect, candidates. intros H.
  destruct (scanUrls (foundUrls email) (mkLoop [] [] [])) as [st|e] eqn:Hs;
    [|discriminate].
  injection H as <-. simpl. now apply scanUrls_Ok in Hs.
Qed.

Lemma parseEmailContent_Ok (raw : RawEmail) (email : Email) (out : ParsedEmailContent) :
  PostalMime_parse (rawText raw) = Ok email ->
  parseEmailContent raw = Ok out ->
  collect email = Ok out.
Proof. unfold parseEmailContent. now intros ->. Qed.

Lemma carries_urlItemsOf (c c' : string) (it : ContentItem) :
  In it (urlItemsOf c') -> carries c it = String.eqb c' c.
Proof.
  unfold urlItemsOf. destruct (detectVideoPlatform c'); [intros []|].
  destruct (isLikelyRecipeUrl c') as [[|]|]; simpl; try tauto.
  now intros [<-|[]].
Qed.

Lemma carries_videoItemsOf (c c' : string) (it : ContentItem) :
  In it (videoItemsOf c') -> carries c it = String.eqb c' c.
Proof.
  unfold videoItemsOf. destruct (detectVideoPlatform c'); simpl; [|tauto].
  now intros [<-|[]].
Qed.

(** Items of [c] among those made from a duplicate-free list of URLs. *)
Lemma itemsFor_flat_map (g : string -> list ContentItem) (c : string) :
  (forall c' it, In it (g c') -> carries c it = String.eqb c' c) ->
  forall l, NoDup l ->
  itemsFor c (flat_map g l) = if has l c then g c else [].
Proof.
  intros Hg l; induction l as [|a l IH]; intros Hnd; [reflexivity|].
  inversion Hnd as [|? ? Ha Hl]; subst.
  unfold itemsFor in *. simpl flat_map. rewrite filter_app, (IH Hl).
  assert (Hall : filter (carries c) (g a) = if String.eqb a c then g a else []).
  { specialize (Hg a). induction (g a) as [|it items IHi]; simpl.
    - now destruct (String.eqb a c).
    - rewrite (Hg it) by now left. rewrite IHi by (intros; apply Hg; now right).
      now destruct (String.eqb a c). }
  rewrite Hall. unfold has; simpl; fold (has l c). rewrite (String.eqb_sym c a).
  destruct (String.eqb_spec a c) as [->|Hne]; simpl; [|reflexivity].
  destruct (has l c) eqn:Hc; [|apply app_nil_r].
  apply has_In in Hc. contradiction.
Qed.

Lemma itemsFor_app (c : string) (a b : list ContentItem) :
  itemsFor c (a ++ b) = (itemsFor c a ++ itemsFor c b)%list.
Proof. apply filter_app. Qed.

Lemma items_of_accepted (c : string) :
  List.length (urlItemsOf c ++ videoItemsOf c) = if accepted c then 1 else 0.
Proof.
  unfold urlItemsOf, videoItemsOf, accepted.
  destruct (detectVideoPlatform c); [reflexivity|].
  now destruct (isLikelyRecipeUrl c) as [[|]|].
Qed.

(** Trailing punctuation does not decide the platform. *)
Lemma toLower_punct (c : ascii) : isTrailingPunct c = true -> toLower c = c.
Proof.
  destruct c as [[] [] [] [] [] [] [] []]; intros H;
    solve [reflexivity | discriminate H].
Qed.

Lemma includes_cleanUrl (url p : string) :
  endsOutside isTrailingPunct p = true ->
  includes (toLowerCase (cleanUrl url)) p = includes (toLowerCase url) p.
Proof. apply includes_stripTrailing, toLower_punct. Qed.

Lemma detectVideoPlatform_cleanUrl (url : string) :
  detectVideoPlatform (cleanUrl url) = detectVideoPlatform url.
Proof.
  unfold detectVideoPlatform. now rewrite !includes_cleanUrl by reflexivity.
Qed.

Lemma In_candidates (email : Email) (url : string) :
  In url (foundUrls email) -> In (cleanUrl url) (candidates email).
Proof.
  intros H. unfold candidates. rewrite firstSeen_In. split; [|tauto].
  now apply in_map.
Qed.

(** When the filter reaches [new URL] and the constructor throws, the loop
    throws and nothing is returned. *)
Lemma isLikelyRecipeUrl_throws (url : string) :
  existsb (includes (toLowerCase url)) skipPatterns = false ->
  existsb (includes (toLowerCase url)) RECIPE_DOMAINS = false ->
  existsb (includes (toLowerCase url)) recipeKeywords = false ->
  URL_pathname url = None ->
  isLikelyRecipeUrl url = Throw (TypeError).
Proof. unfold isLikelyRecipeUrl. now intros -> -> -> ->. Qed.

Lemma scanUrls_throws (url : string) (rest : list string) (st : UrlLoop) (e : exn) :
  has (seenUrls st) (cleanUrl url) = false ->
  detectVideoPlatform (cleanUrl url) = None ->
  isLikelyRecipeUrl (cleanUrl url) = Throw e ->
  scanUrls (url :: rest) st = Throw e.
Proof. simpl. now intros -> -> ->. Qed.

(** *** Theorems about the body URLs *)


(** C8, as the code has it.  The cleaned URLs are deduplicated by exact
    string and classified in first-seen order: [candidates] has no duplicate
    and the same members as the cleaned matches, each bucket is filled from it
    in order, and however many matches clean to the same URL, that URL yields
    one content item when it is accepted (video link or recipe candidate) and
    none when it is rejected. *)
Theorem duplicate_urls_collapse
  (raw : RawEmail) (email : Email) (out : ParsedEmailContent) :
  PostalMime_parse (rawText raw) = Ok email ->
  parseEmailContent raw = Ok out ->
  NoDup (candidates email) /\
  (forall c, In c (candidates email) <-> In c (map cleanUrl (foundUrls email))) /\
  (forall x c1 y c2 z, candidates email = (x ++ c1 :: y ++ c2 :: z)%list ->
     exists p q r,
       map cleanUrl (foundUrls email) = (p ++ c1 :: q ++ c2 :: r)%list /\
       ~ In c1 p /\ ~ In c2 (p ++ c1 :: q)%list) /\
  urls out = flat_map urlItemsOf (candidates email) /\
  videos out = flat_map videoItemsOf (candidates email) /\
  (forall u1 u2, In u1 (foundUrls email) -> In u2 (foundUrls email) ->
     cleanUrl u1 = cleanUrl u2 ->
     List.length (itemsFor (cleanUrl u1) (urls out ++ videos out)) =
     if accepted (cleanUrl u1) then 1 else 0).
Proof.
  intros Hparse Hout.
  apply (parseEmailContent_Ok raw email out Hparse) in Hout.
  apply collect_Ok in Hout as [Hu Hv].
  pose proof (firstSeen_NoDup (map cleanUrl (foundUrls email)) []) as Hnd.
  fold (candidates email) in Hnd.
  repeat split; try assumption.
  - unfold candidates. rewrite firstSeen_In. tauto.
  - unfold candidates. rewrite firstSeen_In. tauto.
  - unfold candidates. apply firstSeen_order.
  - intros u1 u2 H1 _ _. rewrite itemsFor_app, Hu, Hv.
    rewrite (itemsFor_flat_map urlItemsOf), (itemsFor_flat_map videoItemsOf);
      try assumption;
      try (intros c' it; first [apply carries_urlItemsOf | apply carries_videoItemsOf]).
    apply In_candidates, has_In in H1. rewrite H1.
    apply items_of_accepted.
Qed.

(** C10, as the code has it.  A URL whose lower-case form contains
    [youtube.com] or [instagram.com] and that carries no video-platform
    signature is dropped: no item of the urls or videos bucket is made from
    it. *)
Theorem social_url_dropped
  (raw : RawEmail) (email : Email) (out : ParsedEmailContent) (url : string) :
  PostalMime_parse (rawText raw) = Ok email ->
  parseEmailContent raw = Ok out ->
  In url (foundUrls email) ->
  includes (toLowerCase url) "youtube.com" = true \/
  includes (toLowerCase url) "instagram.com" = true ->
  detectVideoPlatform url = None ->
  itemsFor (cleanUrl url) (urls out ++ videos out) = [].
Proof.
  intros Hparse Hout Hin Hsocial Hp.
  apply (parseEmailContent_Ok raw email out Hparse) in Hout.
  apply collect_Ok in Hout as [Hu Hv].
  rewrite <- detectVideoPlatform_cleanUrl in Hp.
  assert (Hskip : isLikelyRecipeUrl (cleanUrl url) = Ok false).
  { unfold isLikelyRecipeUrl.
    replace (existsb (includes (toLowerCase (cleanUrl url))) skipPatterns) with true;
      [reflexivity|].
    symmetry. apply existsb_exists.
    destruct Hsocial as [H|H]; [exists "youtube.com" | exists "instagram.com"];
      (split; [simpl; tauto | now rewrite includes_cleanUrl]). }
  rewrite itemsFor_app, Hu, Hv.
  rewrite (itemsFor_flat_map urlItemsOf), (itemsFor_flat_map videoItemsOf);
    try apply firstSeen_NoDup;
    try (intros c' it; first [apply carries_urlItemsOf | apply carries_videoItemsOf]).
  unfold urlItemsOf, videoItemsOf. rewrite Hp, Hskip. now destruct (has _ _).
Qed.

(** *** [parseEmailForImages] and [getSenderFromEmail] *)

(** [EmailAttachment] of src/types.ts. *)
Record EmailAttachment : Type := mkEmailAttachment {
  ea_filename : string;
  ea_mimeType : string;
  ea_content : ItemData
}.

Definition legacyImage (img : ContentItem) : EmailAttachment :=
  mkEmailAttachment (orElse (filename img) "image")
    (orElse (mimeType img) "image/jpeg") (data img).

Definition parseEmailForImages (rawEmail : RawEmail) : result (list EmailAttachment) :=
  match parseEmailContent rawEmail with
  | Throw e => Throw e
  | Ok out => Ok (map legacyImage (images out))
  end.

(** Line terminators: what [.] does not match and what [^] and [$] stop at
    under the [m] flag. *)
Definition isLineTerminator (c : ascii) : bool :=
  between 10 10 (code c) || between 13 13 (code c).

Definition inLine (c : ascii) : bool := negb (isLineTerminator c).

(** [\s*(.+)$] when the white space runs to the end of the text: the star
    gives characters back until [.] finds one to match, the last white space
    character that is not a line terminator. *)
Fixpoint lastInLine (w : string) : option string :=
  match w with
  | EmptyString => None
  | String c w' =>
      match lastInLine w' with
      | Some m => Some m
      | None => if inLine c then Some (String c (takeWhile inLine w')) else None
      end
  end.

(** [\s*(.+)$] tried on what follows [From:]: the captured group. *)
Definition senderAt (rest : string) : option string :=
  match dropWhile isSpace rest with
  | EmptyString => lastInLine (takeWhile isSpace rest)
  | value => Some (takeWhile inLine value)
  end.

(** [rawEmail.match(/^From:\s*(.+)$/im)]: the group of the first match;
    [lineStart] tells whether the text starts a line. *)
Fixpoint execFrom (lineStart : bool) (s : string) : option string :=
  match s with
  | EmptyString => None
  | String c s' =>
      match (if lineStart && startsWithNoCase s "from:" then senderAt (drop 5 s)
             else None) with
      | Some m => Some m
      | None => execFrom (isLineTerminator c) s'
      end
  end.

Definition getSenderFromEmail (rawEmail : string) : string :=
  match execFrom true rawEmail with
  | Some m => trim m
  | None => "unknown"
  end.

(** *** More about the buckets *)

(** The attachments of a message, none when the parser gives none. *)
Definition attachmentsOf (email : Email) : list Attachment :=
  match attachments email with
  | Some l => l
  | None => []
  end.

Definition isImageAttachment (a : Attachment) : bool :=
  existsb (String.eqb (lowerMime a)) SUPPORTED_IMAGE_TYPES.

Definition isPdfAttachment (a : Attachment) : bool :=
  String.eqb (lowerMime a) PDF_MIME_TYPE.

(** [u] starts with [http://] or [https://], in any case. *)
Definition hasScheme (u : string) : bool :=
  startsWithNoCase u "https://" || startsWithNoCase u "http://".

(** [lastIs x p]: the last character of [p] is [x]. *)
Fixpoint lastIs (x : ascii) (p : string) : bool :=
  match p with
  | EmptyString => false
  | String c EmptyString => Ascii.eqb c x
  | String _ p' => lastIs x p'
  end.

Lemma collect_attachments (email : Email) (out : ParsedEmailContent) :
  collect email = Ok out ->
  images out = flat_map imageOf (attachmentsOf email) /\
  pdfs out = flat_map pdfOf (attachmentsOf email).
Proof.
  unfold collect, attachmentsOf. intros H.
  destruct (scanUrls (foundUrls email) (mkLoop [] [] [])); [|discriminate].
  now injection H as <-.
Qed.

Lemma orElse_nonEmpty (a : option string) (d : string) : d <> "" -> orElse a d <> "".
Proof.
  intros Hd. destruct a as [[|c s]|]; simpl; try assumption. discriminate.
Qed.

Lemma length_flat_map_filter {A B : Type} (f : A -> list B) (p : A -> bool) (l : list A) :
  (forall a, List.length (f a) = if p a then 1 else 0) ->
  List.length (flat_map f l) = List.length (filter p l).
Proof.
  intros Hf. induction l as [|a l IH]; simpl; [reflexivity|].
  rewrite length_app, Hf, IH. now destruct (p a).
Qed.

(** An attachment whose media type, lower-cased, is on the image list becomes
    one image item, one whose type is [application/pdf] one PDF item, never
    both; every other attachment is dropped.  Each item keeps the tag of its
    bucket, binary data, the lower-cased media type and a file name that is
    not empty. *)
Theorem attachments_classified
  (raw : RawEmail) (email : Email) (out : ParsedEmailContent) :
  PostalMime_parse (rawText raw) = Ok email ->
  parseEmailContent raw = Ok out ->
  (forall it, In it (images out) ->
     type it = TImage /\ platform it = None /\
     (exists bytes, data it = Buffer bytes) /\
     (exists m, mimeType it = Some m /\ In m SUPPORTED_IMAGE_TYPES) /\
     (exists f, filename it = Some f /\ f <> "")) /\
  (forall it, In it (pdfs out) ->
     type it = TPdf /\ platform it = None /\
     (exists bytes, data it = Buffer bytes) /\
     mimeType it = Some "application/pdf" /\
     (exists f, filename it = Some f /\ f <> "")) /\
  List.length (images out) = List.length (filter isImageAttachment (attachmentsOf email)) /\
  List.length (pdfs out) = List.length (filter isPdfAttachment (attachmentsOf email)) /\
  (forall a, isImageAttachment a && isPdfAttachment a = false).
Proof.
  intros Hparse Hout.
  apply (parseEmailContent_Ok raw email out Hparse) in Hout.
  apply collect_attachments in Hout as [Hi Hp]. rewrite Hi, Hp.
  split; [|split; [|split; [|split]]].
  - intros it Hin. apply in_flat_map in Hin as [a [_ Hin]].
    unfold imageOf in Hin.
    destruct (existsb (String.eqb (lowerMime a)) SUPPORTED_IMAGE_TYPES) eqn:Hm;
      [|contradiction].
    destruct Hin as [<-|[]]. simpl.
    split; [reflexivity|]. split; [reflexivity|]. split; [eauto|]. split.
    + exists (lowerMime a). split; [reflexivity|].
      apply existsb_exists in Hm as [m [Hm He]].
      apply String.eqb_eq in He. now rewrite He.
    + eexists. split; [reflexivity|]. apply orElse_nonEmpty. discriminate.
  - intros it Hin. apply in_flat_map in Hin as [a [_ Hin]].
    unfold pdfOf in Hin.
    destruct (String.eqb_spec (lowerMime a) PDF_MIME_TYPE) as [He|_];
      [|contradiction].
    destruct Hin as [<-|[]]. simpl.
    split; [reflexivity|]. split; [reflexivity|]. split; [eauto|]. split.
    + now rewrite He.
    + eexists. split; [reflexivity|]. apply orElse_nonEmpty. discriminate.
  - apply length_flat_map_filter. intros a. unfold imageOf, isImageAttachment.
    now destruct (existsb _ _).
  - apply length_flat_map_filter. intros a. unfold pdfOf, isPdfAttachment.
    now destruct (String.eqb _ _).
  - intros a. unfold isImageAttachment, isPdfAttachment.
    destruct (String.eqb_spec (lowerMime a) PDF_MIME_TYPE) as [->|_];
      [vm_compute; reflexivity | apply andb_false_r].
Qed.

Lemma matchAll_In (s : string) :
  forall skip m, In m (matchAll skip s) -> exists t, execUrl t = Some m.
Proof.
  induction s as [|c s IH]; intros skip m H; simpl in H; [contradiction|].
  destruct skip as [|k]; [|now apply (IH k)].
  destruct (execUrl (String c s)) as [m'|] eqn:He.
  - destruct H as [<-|H]; [now exists (String c s) | eapply IH; eassumption].
  - now apply (IH 0).
Qed.

Lemma startsWithNoCase_nil (s : string) : startsWithNoCase s "" = true.
Proof. now destruct s. Qed.

Lemma startsWithNoCase_take (p : string) :
  forall s r, startsWithNoCase s p = true ->
  startsWithNoCase (take (String.length p) s ++ r) p = true.
Proof.
  induction p as [|a p IH]; intros s r H; [apply startsWithNoCase_nil|].
  destruct s as [|b s]; [discriminate|]. simpl in *.
  destruct (Ascii.eqb a (toLower b)); [now apply IH | discriminate].
Qed.

Lemma execUrl_hasScheme (t m : string) : execUrl t = Some m -> hasScheme m = true.
Proof.
  unfold execUrl, hasScheme. intros H.
  destruct (startsWithNoCase t "https://") eqn:H8.
  - destruct (nonEmpty _); [|discriminate]. injection H as <-.
    now rewrite (startsWithNoCase_take "https://" t _ H8).
  - destruct (startsWithNoCase t "http://") eqn:H7; [|discriminate].
    destruct (nonEmpty _); [|discriminate]. injection H as <-.
    rewrite (startsWithNoCase_take "http://" t _ H7). apply orb_true_r.
Qed.

Lemma allOf_false_of_prefix (q : ascii -> bool) (x : ascii) :
  (forall b, Ascii.eqb x (toLower b) = true -> q b = false) ->
  forall p u, lastIs x p = true -> startsWithNoCase u p = true -> allOf q u = false.
Proof.
  intros Hx p; induction p as [|a p IH]; intros u Hp Hu; [discriminate|].
  destruct u as [|b u]; [discriminate|]. simpl in Hu.
  destruct (Ascii.eqb a (toLower b)) eqn:Hab; [|discriminate].
  simpl. destruct p as [|a' p].
  - simpl in Hp. apply Ascii.eqb_eq in Hp. subst a. now rewrite (Hx b Hab).
  - rewrite (IH u Hp Hu). apply andb_false_r.
Qed.

Lemma startsWithNoCase_stripTrailing (q : ascii -> bool) (x : ascii) :
  (forall b, Ascii.eqb x (toLower b) = true -> q b = false) ->
  forall p u, lastIs x p = true -> startsWithNoCase u p = true ->
  startsWithNoCase (stripTrailing q u) p = true.
Proof.
  intros Hx p; induction p as [|a p IH]; intros u Hp Hu; [discriminate|].
  pose proof (allOf_false_of_prefix q x Hx _ u Hp Hu) as Hall.
  destruct u as [|b u]; [discriminate|].
  unfold stripTrailing; fold stripTrailing. rewrite Hall.
  simpl in Hu |- *.
  destruct (Ascii.eqb a (toLower b)); [|discriminate].
  destruct p as [|a' p]; [apply startsWithNoCase_nil | now apply IH].
Qed.

Lemma slash_not_punct (b : ascii) :
  Ascii.eqb "/" (toLower b) = true -> isTrailingPunct b = false.
Proof.
  destruct b as [[] [] [] [] [] [] [] []]; intros H;
    solve [reflexivity | discriminate H].
Qed.

Lemma hasScheme_cleanUrl (u : string) : hasScheme u = true -> hasScheme (cleanUrl u) = true.
Proof.
  unfold hasScheme, cleanUrl. intros H. apply orb_true_iff in H as [H|H].
  - now rewrite (startsWithNoCase_stripTrailing isTrailingPunct "/" slash_not_punct
                   "https://" u eq_refl H).
  - rewrite (startsWithNoCase_stripTrailing isTrailingPunct "/" slash_not_punct
               "http://" u eq_refl H). apply orb_true_r.
Qed.

Lemma candidates_hasScheme (email : Email) (c : string) :
  In c (candidates email) -> hasScheme c = true.
Proof.
  unfold candidates. rewrite firstSeen_In. intros [H _].
  apply in_map_iff in H as [u [<- Hu]].
  apply hasScheme_cleanUrl. unfold foundUrls, matchUrls in Hu.
  apply matchAll_In in Hu as [t Ht]. now apply (execUrl_hasScheme t).
Qed.

(** Every item of the urls bucket is a [url] item without platform, every
    item of the videos bucket a [video] item with the platform detected for
    its link; both carry text: a cleaned URL of the body that still starts
    with [http://] or [https://]. *)
Theorem link_items_well_formed
  (raw : RawEmail) (email : Email) (out : ParsedEmailContent) :
  PostalMime_parse (rawText raw) = Ok email ->
  parseEmailContent raw = Ok out ->
  (forall it, In it (urls out) ->
     type it = TUrl /\ platform it = None /\ mimeType it = None /\ filename it = None /\
     exists c, data it = Text c /\ In c (map cleanUrl (foundUrls email)) /\
               hasScheme c = true /\ detectVideoPlatform c = None /\
               isLikelyRecipeUrl c = Ok true) /\
  (forall it, In it (videos out) ->
     type it = TVideo /\ mimeType it = None /\ filename it = None /\
     exists c p, data it = Text c /\ platform it = Some p /\
                 In c (map cleanUrl (foundUrls email)) /\
                 hasScheme c = true /\ detectVideoPlatform c = Some p).
Proof.
  intros Hparse Hout.
  apply (parseEmailContent_Ok raw email out Hparse) in Hout.
  apply collect_Ok in Hout as [Hu Hv]. rewrite Hu, Hv.
  split; intros it Hin; apply in_flat_map in Hin as [c [Hc Hin]];
    pose proof (candidates_hasScheme email c Hc) as Hs;
    unfold candidates in Hc; apply firstSeen_In in Hc as [Hc _].
  - unfold urlItemsOf in Hin.
    destruct (detectVideoPlatform c) eqn:Hd; [contradiction|].
    destruct (isLikelyRecipeUrl c) as [[|]|] eqn:Hl; try contradiction.
    destruct Hin as [<-|[]]. simpl. repeat split. now exists c.
  - unfold videoItemsOf in Hin.
    destruct (detectVideoPlatform c) as [p|] eqn:Hd; [|contradiction].
    destruct Hin as [<-|[]]. simpl. repeat split. now exists c, p.
Qed.

Lemma flat_map_imageOf (atts : list Attachment) :
  map legacyImage (flat_map imageOf atts) =
  map (fun a => mkEmailAttachment (orElse (att_filename a) "image") (lowerMime a)
                  (Buffer (contentBytes (att_content a))))
      (filter isImageAttachment atts).
Proof.
  induction atts as [|a atts IH]; [reflexivity|].
  simpl. rewrite map_app, IH. unfold imageOf at 1, isImageAttachment at 2.
  destruct (existsb (String.eqb (lowerMime a)) SUPPORTED_IMAGE_TYPES) eqn:Hm;
    [|reflexivity].
  simpl. f_equal. unfold legacyImage. simpl. f_equal.
  - destruct (att_filename a) as [[|c s]|]; reflexivity.
  - apply existsb_exists in Hm as [m [Hin He]]. apply String.eqb_eq in He.
    rewrite He. simpl in Hin.
    repeat (destruct Hin as [<-|Hin]; [reflexivity|]). contradiction.
Qed.

(** The legacy entry point returns one entry per image attachment, in order:
    its file name ([image] when it has none), its lower-cased media type --
    the [image/jpeg] default is never used -- and its bytes. *)
Theorem parseEmailForImages_entries
  (raw : RawEmail) (email : Email) (l : list EmailAttachment) :
  PostalMime_parse (rawText raw) = Ok email ->
  parseEmailForImages raw = Ok l ->
  l = map (fun a => mkEmailAttachment (orElse (att_filename a) "image") (lowerMime a)
                      (Buffer (contentBytes (att_content a))))
          (filter isImageAttachment (attachmentsOf email)) /\
  Forall (fun e => In (ea_mimeType e) SUPPORTED_IMAGE_TYPES /\ ea_filename e <> "") l.
Proof.
  intros Hparse H. unfold parseEmailForImages in H.
  destruct (parseEmailContent raw) as [out|e] eqn:Hout; [|discriminate].
  injection H as <-.
  apply (parseEmailContent_Ok raw email out Hparse) in Hout.
  apply collect_attachments in Hout as [-> _].
  rewrite flat_map_imageOf. split; [reflexivity|].
  apply Forall_forall. intros e He. apply in_map_iff in He as [a [<- Ha]].
  apply filter_In in Ha as [_ Ha]. simpl. split.
  - unfold isImageAttachment in Ha. apply existsb_exists in Ha as [m [Hin Hm]].
    apply String.eqb_eq in Hm. now rewrite Hm.
  - apply orElse_nonEmpty. discriminate.
Qed.

Lemma startsWithNoCase_lower (p s : string) :
  startsWithNoCase s p = startsWith (toLowerCase s) p.
Proof.
  revert s; induction p as [|a p IH]; intros [|b s]; simpl; try reflexivity.
  now rewrite IH.
Qed.

Lemma execFrom_None (s : string) :
  includes (toLowerCase s) "from:" = false -> forall b, execFrom b s = None.
Proof.
  induction s as [|c s IH]; intros H b; [reflexivity|].
  change (includes (toLowerCase (String c s)) "from:")
    with (startsWith (toLowerCase (String c s)) "from:" || includes (toLowerCase s) "from:")
    in H.
  apply orb_false_iff in H as [H1 H2].
  unfold execFrom; fold execFrom.
  rewrite startsWithNoCase_lower, H1, andb_false_r. now apply IH.
Qed.

Lemma stripTrailing_id (q : ascii -> bool) (s : string) :
  endsOutside q s = true -> stripTrailing q s = s.
Proof.
  induction s as [|c s IH]; intros H; [reflexivity|].
  unfold stripTrailing; fold stripTrailing.
  destruct s as [|c' s].
  - simpl in H |- *. apply negb_true_iff in H. now rewrite H.
  - assert (Hall : allOf q (String c (String c' s)) = false).
    { clear IH. revert c c' H. induction s as [|c'' s IHs]; intros c c' H.
      - simpl in H |- *. apply negb_true_iff in H. rewrite H.
        now rewrite !andb_false_r.
      - change (allOf q (String c (String c' (String c'' s))))
          with (q c && allOf q (String c' (String c'' s))).
        rewrite (IHs c' c'' H). apply andb_false_r. }
    rewrite Hall. f_equal. now apply IH.
Qed.

Lemma stripTrailing_ends (q : ascii -> bool) (s : string) :
  stripTrailing q s = "" \/ endsOutside q (stripTrailing q s) = true.
Proof.
  induction s as [|c s IH]; [now left|].
  unfold stripTrailing; fold stripTrailing.
  destruct (allOf q (String c s)) eqn:Hall; [now left|]. right.
  destruct IH as [IH|IH].
  - rewrite IH. simpl.
    assert (Hs : allOf q s = true).
    { clear Hall. induction s as [|c' s IHs]; [reflexivity|].
      unfold stripTrailing in IH; fold stripTrailing in IH.
      destruct (allOf q (String c' s)); [reflexivity | discriminate]. }
    simpl in Hall. rewrite Hs, andb_true_r in Hall. now rewrite Hall.
  - destruct (stripTrailing q s); [discriminate | exact IH].
Qed.

Lemma trimStart_head (s : string) :
  trimStart s = "" \/ exists c r, trimStart s = String c r /\ isSpace c = false.
Proof.
  induction s as [|c s IH]; [now left|]. simpl.
  destruct (isSpace c) eqn:Hc; [exact IH|]. right. now exists c, s.
Qed.

(** [trim] leaves nothing to trim. *)
Lemma trim_trim (s : string) : trim (trim s) = trim s.
Proof.
  unfold trim at 2 3.
  destruct (trimStart_head s) as [->|[c [r [-> Hc]]]]; [reflexivity|].
  destruct (stripTrailing_ends isSpace (String c r)) as [H|H].
  - now rewrite H.
  - unfold stripTrailing in H |- *; fold stripTrailing in H |- *.
    destruct (allOf isSpace (String c r)); [reflexivity|].
    unfold trim. simpl trimStart. rewrite Hc. now apply stripTrailing_id.
Qed.

(** The sender is returned trimmed; a text in which [from:] does not occur,
    in any case, has the sender [unknown]. *)
Theorem getSenderFromEmail_trimmed (rawEmail : string) :
  trim (getSenderFromEmail rawEmail) = getSenderFromEmail rawEmail /\
  (includes (toLowerCase rawEmail) "from:" = false ->
   getSenderFromEmail rawEmail = "unknown").
Proof.
  unfold getSenderFromEmail. split.
  - destruct (execFrom true rawEmail); [apply trim_trim | vm_compute; reflexivity].
  - intros H. now rewrite (execFrom_None rawEmail H).
Qed.

Lemma dropWhile_append (q : ascii -> bool) (w : string) :
  allOf q w = true -> forall c r, q c = false ->
  dropWhile q (w ++ String c r) = String c r.
Proof.
  induction w as [|a w IH]; intros Hw c r Hc; simpl.
  - now rewrite Hc.
  - simpl in Hw. apply andb_prop in Hw as [-> Hw]. now apply IH.
Qed.

Lemma takeWhile_append (q : ascii -> bool) (v : string) :
  allOf q v = true -> forall rest,
  (rest = "" \/ exists c r, rest = String c r /\ q c = false) ->
  takeWhile q (v ++ rest) = v.
Proof.
  induction v as [|a v IH]; intros Hv rest Hrest; simpl.
  - destruct Hrest as [->|[c [r [-> Hc]]]]; [reflexivity|]. simpl. now rewrite Hc.
  - simpl in Hv. apply andb_prop in Hv as [-> Hv]. now rewrite IH.
Qed.

Lemma execFrom_start (s m : string) :
  startsWithNoCase s "from:" = true ->
  senderAt (drop 5 s) = Some m ->
  execFrom true s = Some m.
Proof.
  intros H1 H2. destruct s as [|c s]; [discriminate|].
  unfold execFrom; fold execFrom. rewrite H1. simpl andb. cbv iota. now rewrite H2.
Qed.

(** A [From:] header on the first line gives its value back: the text after
    the colon and the white space, up to the end of the line, when it is not
    empty and neither starts nor ends with white space. *)
Theorem getSenderFromEmail_header (ws : string) (c : ascii) (v rest : string) :
  allOf isSpace ws = true ->
  isSpace c = false ->
  allOf inLine (String c v) = true ->
  endsOutside isSpace (String c v) = true ->
  (rest = "" \/ exists t r, rest = String t r /\ isLineTerminator t = true) ->
  getSenderFromEmail ("From:" ++ ws ++ String c v ++ rest) = String c v.
Proof.
  intros Hws Hc Hline Hend Hrest. unfold getSenderFromEmail.
  assert (Hat : senderAt (ws ++ String c v ++ rest) = Some (String c v)).
  { unfold senderAt.
    change (ws ++ String c v ++ rest) with (ws ++ String c (v ++ rest)).
    rewrite (dropWhile_append isSpace ws Hws c (v ++ rest) Hc).
    change (String c (v ++ rest)) with (String c v ++ rest).
    rewrite (takeWhile_append inLine (String c v) Hline rest); [reflexivity|].
    destruct Hrest as [->|[t [r [-> Ht]]]]; [now left|]. right.
    exists t, r. split; [reflexivity|]. unfold inLine. now rewrite Ht. }
  rewrite (execFrom_start ("From:" ++ ws ++ String c v ++ rest) (String c v));
    [| simpl; apply startsWithNoCase_nil | exact Hat].
  unfold trim. simpl trimStart. rewrite Hc. now apply stripTrailing_id.
Qed.

Lemma existsb_false_forall {A : Type} (f : A -> bool) (l : list A) :
  (forall x, In x l -> f x = false) -> existsb f l = false.
Proof.
  intros H. induction l as [|a l IH]; [reflexivity|]. simpl.
  rewrite (H a) by now left. apply IH. intros x Hx. apply H. now right.
Qed.

Lemma filter_existsb {A : Type} (f : A -> bool) (l : list A) :
  (1 <=? List.length (filter f l))%nat = existsb f l.
Proof.
  induction l as [|a l IH]; [reflexivity|]. simpl.
  destruct (f a); [reflexivity | exact IH].
Qed.

(** Which links the filter lets through.  A link that contains one of the
    skip patterns is rejected, also on a known recipe site and with a recipe
    keyword in it.  Without a skip pattern, a known recipe site or a recipe
    keyword accepts the link, and the URL parser is not consulted.  Any
    other link is accepted exactly when its path has a segment that is not
    empty. *)
Theorem recipe_url_filter (url : string) :
  (forall pattern, In pattern skipPatterns ->
     includes (toLowerCase url) pattern = true -> isLikelyRecipeUrl url = Ok false) /\
  ((forall pattern, In pattern skipPatterns ->
      includes (toLowerCase url) pattern = false) ->
   (forall word, In word (RECIPE_DOMAINS ++ recipeKeywords)%list ->
      includes (toLowerCase url) word = true -> isLikelyRecipeUrl url = Ok true) /\
   ((forall word, In word (RECIPE_DOMAINS ++ recipeKeywords)%list ->
       includes (toLowerCase url) word = false) ->
    isLikelyRecipeUrl url =
      match URL_pathname url with
      | None => Throw TypeError
      | Some pathname => Ok (existsb nonEmpty (split "/"%char pathname))
      end)).
Proof.
  split.
  - intros pattern Hin Hp. unfold isLikelyRecipeUrl.
    replace (existsb (includes (toLowerCase url)) skipPatterns) with true;
      [reflexivity|].
    symmetry. apply existsb_exists. now exists pattern.
  - intros Hskip. apply existsb_false_forall in Hskip.
    unfold isLikelyRecipeUrl. rewrite Hskip. split.
    + intros word Hin Hw. apply in_app_or in Hin as [Hin|Hin].
      * replace (existsb (includes (toLowerCase url)) RECIPE_DOMAINS) with true;
          [reflexivity|].
        symmetry. apply existsb_exists. now exists word.
      * destruct (existsb (includes (toLowerCase url)) RECIPE_DOMAINS); [reflexivity|].
        replace (existsb (includes (toLowerCase url)) recipeKeywords) with true;
          [reflexivity|].
        symmetry. apply existsb_exists. now exists word.
    + intros Hnone.
      rewrite (existsb_false_forall (includes (toLowerCase url)) RECIPE_DOMAINS)
        by (intros x Hx; apply Hnone, in_or_app; now left).
      rewrite (existsb_false_forall (includes (toLowerCase url)) recipeKeywords)
        by (intros x Hx; apply Hnone, in_or_app; now right).
      destruct (URL_pathname url); [|reflexivity].
      now rewrite filter_existsb.
Qed.

End Parser.

(** *** Closed examples, with the executable URL model *)


Lemma attachments_classified_witness :
  exists out,
    parseEmailContent Url.pathname (parsedAs attachedMail) (RawString "") = Ok out /\
    List.length (images out) = 1%nat /\ List.length (pdfs out) = 1%nat /\
    forall it, In it (images out) ->
      type it = TImage /\ platform it = None /\
      (exists bytes, data it = Buffer bytes) /\
      (exists m, mimeType it = Some m /\ In m SUPPORTED_IMAGE_TYPES) /\
      (exists f, filename it = Some f /\ f <> "").
Proof.
  eexists. split; [vm_compute; reflexivity|].
  split; [reflexivity|]. split; [reflexivity|].
  refine (proj1 (attachments_classified Url.pathname (parsedAs attachedMail)
                   (RawString "") attachedMail _ _ _));
    [reflexivity | vm_compute; reflexivity].
Defined.

Lemma link_items_well_formed_witness :
  exists out,
    parseEmailContent Url.pathname (parsedAs attachedMail) (RawString "") = Ok out /\
    urls out = [urlItem "https://example.com/blog/soup"] /\
    videos out = [videoItem "https://vm.tiktok.com/ZM1/" Tiktok] /\
    forall it, In it (videos out) ->
      type it = TVideo /\ mimeType it = None /\ filename it = None /\
      exists c p, data it = Text c /\ platform it = Some p /\
                  In c (map cleanUrl (foundUrls attachedMail)) /\
                  hasScheme c = true /\ detectVideoPlatform c = Some p.
Proof.
  eexists. split; [vm_compute; reflexivity|].
  split; [reflexivity|]. split; [reflexivity|].
  refine (proj2 (link_items_well_formed Url.pathname (parsedAs attachedMail)
                   (RawString "") attachedMail _ _ _));
    [reflexivity | vm_compute; reflexivity].
Defined.

Lemma parseEmailForImages_entries_witness :
  exists l,
    parseEmailForImages Url.pathname (parsedAs attachedMail) (RawString "") = Ok l /\
    l = [mkEmailAttachment "image" "image/png" (Buffer "abc")] /\
    Forall (fun e => In (ea_mimeType e) SUPPORTED_IMAGE_TYPES /\ ea_filename e <> "") l.
Proof.
  eexists. split; [vm_compute; reflexivity|]. split; [reflexivity|].
  refine (proj2 (parseEmailForImages_entries Url.pathname (parsedAs attachedMail)
                   (RawString "") attachedMail _ _ _));
    [reflexivity | vm_compute; reflexivity].
Defined.

Lemma getSenderFromEmail_header_witness :
  getSenderFromEmail ("From:" ++ "  " ++ String "A" "nn Lee <ann@example.org>"
                        ++ String (ascii_of_N 13) (String (ascii_of_N 10) "To: recipes@example.org"))
  = "Ann Lee <ann@example.org>".
Proof.
  apply (getSenderFromEmail_header "  " "A" "nn Lee <ann@example.org>"
           (String (ascii_of_N 13) (String (ascii_of_N 10) "To: recipes@example.org")));
    [ vm_compute; reflexivity | vm_compute; reflexivity | vm_compute; reflexivity
    | vm_compute; reflexivity | ].
  right. eexists. eexists. split; [reflexivity | vm_compute; reflexivity].
Defined.

Lemma duplicate_urls_collapse_witness :
  map cleanUrl (foundUrls duplicateMail) =
    [ "https://example.com/blog/soup"; "https://example.com/blog/soup";
      "https://www.facebook.com/soup/" ] /\
  exists out,
    parseEmailContent Url.pathname (parsedAs duplicateMail) (RawString "") = Ok out /\
    urls out = [urlItem "https://example.com/blog/soup"] /\
    videos out = [] /\
    NoDup (candidates duplicateMail).
Proof.
  split; [vm_compute; reflexivity|]. eexists. split; [vm_compute; reflexivity|].
  split; [reflexivity|]. split; [reflexivity|].
  refine (proj1 (duplicate_urls_collapse Url.pathname (parsedAs duplicateMail)
                   (RawString "") duplicateMail _ _ _));
    [reflexivity | vm_compute; reflexivity].
Defined.

(** Two matches that clean to the same rejected URL yield no content item. *)
Lemma rejected_duplicates_yield_nothing :
  foundUrls rejectedTwiceMail =
    [ "https://www.facebook.com/soup"; "https://www.facebook.com/soup." ] /\
  cleanUrl "https://www.facebook.com/soup" = cleanUrl "https://www.facebook.com/soup." /\
  exists out,
    parseEmailContent Url.pathname (parsedAs rejectedTwiceMail) (RawString "") = Ok out /\
    List.length (itemsFor "https://www.facebook.com/soup" (urls out ++ videos out)) <> 1.
Proof.
  split; [vm_compute; reflexivity|]. split; [vm_compute; reflexivity|].
  eexists. split; [vm_compute; reflexivity|]. vm_compute. discriminate.
Qed.

Lemma social_url_dropped_witness :
  In "https://www.youtube.com/watch?v=abc" (foundUrls youtubeMail) /\
  includes (toLowerCase "https://www.youtube.com/watch?v=abc") "youtube.com" = true /\
  detectVideoPlatform "https://www.youtube.com/watch?v=abc" = None /\
  exists out,
    parseEmailContent Url.pathname (parsedAs youtubeMail) (RawString "") = Ok out /\
    itemsFor (cleanUrl "https://www.youtube.com/watch?v=abc") (urls out ++ videos out) = [].
Proof.
  split; [vm_compute; left; reflexivity|]. split; [vm_compute; reflexivity|].
  split; [vm_compute; reflexivity|].
  eexists. split; [vm_compute; reflexivity|].
  apply (social_url_dropped Url.pathname (parsedAs youtubeMail) (RawString "")
           youtubeMail);
    [reflexivity | vm_compute; reflexivity | vm_compute; left; reflexivity
    | left; vm_compute; reflexivity | vm_compute; reflexivity].
Defined.

(** A YouTube link, and an Instagram profile link, that also contain
    [tiktok.com] are kept, in the videos bucket. *)
Lemma youtube_link_kept_as_video :
  foundUrls redirectMail =
    [ "https://www.youtube.com/redirect?q=https://www.tiktok.com/@chef/video/7";
      "https://www.instagram.com/chef/?utm_source=tiktok.com" ] /\
  includes
    (toLowerCase "https://www.youtube.com/redirect?q=https://www.tiktok.com/@chef/video/7")
    "youtube.com" = true /\
  includes (toLowerCase "https://www.instagram.com/chef/?utm_source=tiktok.com")
    "instagram.com" = true /\
  Url.pathname "https://www.instagram.com/chef/?utm_source=tiktok.com" = Some "/chef/" /\
  parseEmailContent Url.pathname (parsedAs redirectMail) (RawString "") =
    Ok (mkParsed [] [] []
          [ videoItem "https://www.youtube.com/redirect?q=https://www.tiktok.com/@chef/video/7" Tiktok;
            videoItem "https://www.instagram.com/chef/?utm_source=tiktok.com" Tiktok ]).
Proof. repeat split; vm_compute; reflexivity. Qed.

(** C5, where the code departs from it.  The body [see http://.] parses as
    MIME, the pattern matches [http://.], the cleanup leaves [http://], no
    skip pattern, recipe domain or keyword occurs in it, and [new URL] throws
    on it (the host is missing): [parseEmailContent] throws and the whole
    message is lost. *)
Theorem invalid_url_aborts_ingestion
  (URL_pathname : string -> option string)
  (PostalMime_parse : string -> result Email) (raw : RawEmail) :
  PostalMime_parse (rawText raw) = Ok brokenLinkMail ->
  URL_pathname "http://" = None ->
  parseEmailContent URL_pathname PostalMime_parse raw = Throw (TypeError).
Proof.
  intros Hparse Hurl. unfold parseEmailContent. rewrite Hparse.
  unfold collect.
  replace (foundUrls brokenLinkMail) with ["http://."] by (vm_compute; reflexivity).
  rewrite (scanUrls_throws URL_pathname "http://." [] (mkLoop [] [] [])
             (TypeError)); [reflexivity | reflexivity | | ].
  - vm_compute; reflexivity.
  - replace (cleanUrl "http://.") with "http://" by (vm_compute; reflexivity).
    apply isLikelyRecipeUrl_throws; [vm_compute; reflexivity ..| assumption].
Qed.

Lemma invalid_url_aborts_ingestion_witness :
  foundUrls brokenLinkMail = ["http://."] /\
  Url.pathname "http://" = None /\
  parseEmailContent Url.pathname (parsedAs brokenLinkMail) (RawString "see http://.") =
    Throw (TypeError).
Proof.
  split; [vm_compute; reflexivity|]. split; [vm_compute; reflexivity|].
  apply (invalid_url_aborts_ingestion Url.pathname (parsedAs brokenLinkMail)
           (RawString "see http://.")); [reflexivity | vm_compute; reflexivity].
Defined.

End EmailParser.

(** ** [JSON.parse]

    JSON values, and an executable model of the platform's parser.  A number
    keeps its literal.  An escape [\uXXXX] above U+00FF does not fit the
    8-bit characters of the model and is refused. *)

Module Json.

#[warning="-register-all"]
Inductive json : Type :=
| JNull
| JBool (b : bool)
| JNumber (literal : string)
| JString (s : string)
| JArray (items : list json)
| JObject (members : list (string * json)).

Definition isWs (c : ascii) : bool :=
  between 32 32 (code c) || between 9 10 (code c) || between 13 13 (code c).

Definition skipWs (s : string) : string := dropWhile isWs s.

Definition hexValue (c : ascii) : option N :=
  if isDigit c then Some (code c - 48)%N
  else if between 97 102 (code c) then Some (code c - 87)%N
  else if between 65 70 (code c) then Some (code c - 55)%N
  else None.

(** The escape [\c] for a one-character escape. *)
Definition escaped (c : ascii) : option ascii :=
  if Ascii.eqb c "b" then Some (ascii_of_N 8)
  else if Ascii.eqb c "f" then Some (ascii_of_N 12)
  else if Ascii.eqb c "n" then Some (ascii_of_N 10)
  else if Ascii.eqb c "r" then Some (ascii_of_N 13)
  else if Ascii.eqb c "t" then Some (ascii_of_N 9)
  else if Ascii.eqb c "/" || Ascii.eqb c "\" || Ascii.eqb c (ascii_of_N 34)
  then Some c
  else None.

Definition consTo (c : ascii) (r : option (string * string)) : option (string * string) :=
  match r with
  | Some (text, rest) => Some (String c text, rest)
  | None => None
  end.

(** The characters of a string literal after its opening quote: the decoded
    text, and what follows the closing quote. *)
Fixpoint parseChars (s : string) : option (string * string) :=
  match s with
  | EmptyString => None
  | String c rest =>
      if Ascii.eqb c (ascii_of_N 34) then Some (EmptyString, rest)
      else if Ascii.eqb c "\" then
        match rest with
        | String "u" (String h1 (String h2 (String h3 (String h4 rest')))) =>
            match hexValue h1, hexValue h2, hexValue h3, hexValue h4 with
            | Some 0%N, Some 0%N, Some a, Some b =>
                consTo (ascii_of_N (16 * a + b)) (parseChars rest')
            | _, _, _, _ => None
            end
        | String e rest' =>
            match escaped e with
            | Some c' => consTo c' (parseChars rest')
            | None => None
            end
        | EmptyString => None
        end
      else if (code c <? 32)%N then None
      else consTo c (parseChars rest)
  end.

(** A number literal at the start of [s], and what follows it. *)
Definition parseNumber (s : string) : option (string * string) :=
  let sign := if startsWith s "-" then "-" else "" in
  let s1 := drop (String.length sign) s in
  let int := if startsWith s1 "0" then "0" else takeWhile isDigit s1 in
  let s2 := drop (String.length int) s1 in
  if nonEmpty int then
    let frac :=
      if startsWith s2 "." then Some ("." ++ takeWhile isDigit (drop 1 s2))
      else Some "" in
    match frac with
    | Some "." => None
    | Some frac =>
        let s3 := drop (String.length frac) s2 in
        if startsWithNoCase s3 "e" then
          let mark := take 1 s3 in
          let s4 := drop 1 s3 in
          let esign := if startsWith s4 "+" then "+"
                       else if startsWith s4 "-" then "-" else "" in
          let s5 := drop (String.length esign) s4 in
          let digits := takeWhile isDigit s5 in
          if nonEmpty digits then
            Some (sign ++ int ++ frac ++ mark ++ esign ++ digits,
                  drop (String.length digits) s5)
          else None
        else Some (sign ++ int ++ frac, s3)
    | None => None
    end
  else None.

(** Value, array elements and object members, by recursive descent; every
    call spends one unit of [fuel], and a text needs no more than its length. *)
Fixpoint parseValue (fuel : nat) (s : string) : option (json * string) :=
  match fuel with
  | O => None
  | S fuel =>
      match skipWs s with
      | String "{" rest =>
          match skipWs rest with
          | String "}" rest' => Some (JObject [], rest')
          | _ =>
              match parseMembers fuel rest with
              | Some (ms, rest') => Some (JObject ms, rest')
              | None => None
              end
          end
      | String "[" rest =>
          match skipWs rest with
          | String "]" rest' => Some (JArray [], rest')
          | _ =>
              match parseElements fuel rest with
              | Some (vs, rest') => Some (JArray vs, rest')
              | None => None
              end
          end
      | String c rest as s' =>
          if Ascii.eqb c (ascii_of_N 34) then
            match parseChars rest with
            | Some (text, rest') => Some (JString text, rest')
            | None => None
            end
          else if startsWith s' "true" then Some (JBool true, drop 4 s')
          else if startsWith s' "false" then Some (JBool false, drop 5 s')
          else if startsWith s' "null" then Some (JNull, drop 4 s')
          else
            match parseNumber s' with
            | Some (literal, rest') => Some (JNumber literal, rest')
            | None => None
            end
      | EmptyString => None
      end
  end

with parseElements (fuel : nat) (s : string) : option (list json * string) :=
  match fuel with
  | O => None
  | S fuel =>
      match parseValue fuel s with
      | Some (v, rest) =>
          match skipWs rest with
          | String "," rest' =>
              match parseElements fuel rest' with
              | Some (vs, rest'') => Some (v :: vs, rest'')
              | None => None
              end
          | String "]" rest' => Some ([v], rest')
          | _ => None
          end
      | None => None
      end
  end

with parseMembers (fuel : nat) (s : string) : option (list (string * json) * string) :=
  match fuel with
  | O => None
  | S fuel =>
      match skipWs s with
      | String q rest =>
          if Ascii.eqb q (ascii_of_N 34) then
            match parseChars rest with
            | Some (key, rest1) =>
                match skipWs rest1 with
                | String ":" rest2 =>
                    match parseValue fuel rest2 with
                    | Some (v, rest3) =>
                        match skipWs rest3 with
                        | String "," rest4 =>
                            match parseMembers fuel rest4 with
                            | Some (ms, rest5) => Some ((key, v) :: ms, rest5)
                            | None => None
                            end
                        | String "}" rest4 => Some ([(key, v)], rest4)
                        | _ => None
                        end
                    | None => None
                    end
                | _ => None
                end
            | None => None
            end
          else None
      | EmptyString => None
      end
  end.

(** [JSON.parse(text)]; [None] stands for the [SyntaxError]. *)
Definition parse (text : string) : option json :=
  match parseValue (S (String.length text)) text with
  | Some (v, rest) => if nonEmpty (skipWs rest) then None else Some v
  | None => None
  end.

(** [obj[key]] on a parsed object: the last member of that name. *)
Fixpoint lookup (key : string) (members : list (string * json)) : option json :=
  match members with
  | [] => None
  | (k, v) :: rest =>
      match lookup key rest with
      | Some v' => Some v'
      | None => if String.eqb k key then Some v else None
      end
  end.

(** [v[key]] for one of the property names the worker reads: arrays and
    primitives have none of them. *)
Definition get (v : json) (key : string) : option json :=
  match v with
  | JObject members => lookup key members
  | _ => None
  end.

(** A text written with apostrophes for the double quotes. *)
Definition quoted (s : string) : string :=
  (fix go (s : string) : string :=
     match s with
     | EmptyString => EmptyString
     | String c s' => String (if Ascii.eqb c "'" then ascii_of_N 34 else c) (go s')
     end) s.

End Json.

(** ** src/services/claude.ts *)

Module Claude.

Import Json.

(** [ExtractedRecipe] of src/types.ts. *)
Record ExtractedRecipe : Type := mkRecipe {
  name : string;
  ingredients : string;
  directions : string;
  prep_time : string;
  cook_time : string;
  servings : string;
  source : string;
  source_url : string;
  notes : string;
  image_url : option string
}.

(** A partially populated recipe object: every property is a string or is
    absent. *)
Record PartialRecipe : Type := mkPartial {
  p_name : option string;
  p_ingredients : option string;
  p_directions : option string;
  p_prep_time : option string;
  p_cook_time : option string;
  p_servings : option string;
  p_source : option string;
  p_source_url : option string;
  p_notes : option string;
  p_image_url : option string
}.

(** [recipe.image_url || undefined] *)
Definition orUndefined (a : option string) : option string :=
  match a with
  | Some s => if nonEmpty s then Some s else None
  | None => None
  end.

Definition validateRecipe (recipe : PartialRecipe) : ExtractedRecipe :=
  {| name := orElse (p_name recipe) "Untitled Recipe";
     ingredients := orElse (p_ingredients recipe) "";
     directions := orElse (p_directions recipe) "";
     prep_time := orElse (p_prep_time recipe) "";
     cook_time := orElse (p_cook_time recipe) "";
     servings := orElse (p_servings recipe) "";
     source := orElse (p_source recipe) "";
     source_url := orElse (p_source_url recipe) "";
     notes := orElse (p_notes recipe) "";
     image_url := orUndefined (p_image_url recipe) |}.

(** *** [formatDuration] *)

(** The text after the first occurrence of [pat] in [s]. *)
Fixpoint afterFirst (pat s : string) : option string :=
  if startsWith s pat then Some (drop (String.length pat) s)
  else
    match s with
    | EmptyString => None
    | String _ s' => afterFirst pat s'
    end.

(** The group [(?:(\d+)U)?] tried at the start of [s]: the digits it
    captures, if it takes part in the match, and what follows the group. *)
Definition component (unit : ascii) (s : string) : option string * string :=
  let digits := takeWhile isDigit s in
  match drop (String.length digits) s with
  | String c rest =>
      if nonEmpty digits && Ascii.eqb c unit then (Some digits, rest)
      else (None, s)
  | EmptyString => (None, s)
  end.

(** [duration.match(/PT(?:(\d+)H)?(?:(\d+)M)?/)]: the two groups. *)
Definition matchDuration (duration : string) : option (option string * option string) :=
  match afterFirst "PT" duration with
  | None => None
  | Some rest =>
      let (h, rest') := component "H" rest in
      let (m, _) := component "M" rest' in
      Some (h, m)
  end.

Definition groupValue (g : option string) : N :=
  match g with
  | Some digits => parseInt digits
  | None => 0%N
  end.

(** A number in a template literal.  Decimal digits; the platform prints
    numbers from 1e21 on with an exponent. *)
Definition numberText (n : N) : string :=
  DecimalString.NilEmpty.string_of_uint (N.to_uint n).

Definition plural (n : N) : string := if (1 <? n)%N then "s" else "".

Definition formatDuration (duration : option string) : string :=
  match duration with
  | None => ""
  | Some duration =>
      if nonEmpty duration then
        match matchDuration duration with
        | None => duration
        | Some (h, m) =>
            let hours := groupValue h in
            let minutes := groupValue m in
            if (negb (hours =? 0) && negb (minutes =? 0))%N then
              numberText hours ++ " hour" ++ plural hours ++ " "
                ++ numberText minutes ++ " min"
            else if negb (hours =? 0)%N then
              numberText hours ++ " hour" ++ plural hours
            else if negb (minutes =? 0)%N then numberText minutes ++ " min"
            else ""
        end
      else ""
  end.

(** *** Reading the service's answer *)

(** [Anthropic.Message]: the content blocks. *)
Inductive ContentBlock : Type :=
| TextBlock (text : string)
| OtherBlock.

Definition Message : Type := list ContentBlock.

(** [response.content.find((block) => block.type === 'text')] *)
Fixpoint findText (response : Message) : option string :=
  match response with
  | [] => None
  | TextBlock text :: _ => Some text
  | OtherBlock :: rest => findText rest
  end.

(** The suffix of [s] that starts at its first [c]. *)
Fixpoint fromFirst (c : ascii) (s : string) : option string :=
  match s with
  | EmptyString => None
  | String a s' => if Ascii.eqb a c then Some s else fromFirst c s'
  end.

(** The prefix of [s] that ends at its last [c]. *)
Fixpoint throughLast (c : ascii) (s : string) : option string :=
  match s with
  | EmptyString => None
  | String a s' =>
      match throughLast c s' with
      | Some r => Some (String a r)
      | None => if Ascii.eqb a c then Some (String a EmptyString) else None
      end
  end.

(** [s.match(/\{[\s\S]*\}/)] and [s.match(/\[[\s\S]*\]/)]: the match starts
    at the first opening character that a closing one follows and, the star
    being greedy, runs to the last closing character. *)
Definition matchSpan (opening closing : ascii) (s : string) : option string :=
  match fromFirst opening s with
  | Some (String _ rest) => option_map (String opening) (throughLast closing rest)
  | _ => None
  end.

(** *** Truthiness of parsed values *)

(** The parts of a number literal: the digits before the exponent, those of
    them after the point, and the exponent with its sign. *)
Fixpoint digitsOnly (s : string) : string :=
  match s with
  | EmptyString => EmptyString
  | String c s' => if isDigit c then String c (digitsOnly s') else digitsOnly s'
  end.

Definition isExponentMark (c : ascii) : bool := Ascii.eqb (toLower c) "e".

Definition mantissa (literal : string) : string := takeUntil isExponentMark literal.

Definition fraction (literal : string) : string :=
  match afterFirst "." (mantissa literal) with
  | Some digits => digits
  | None => ""
  end.

Definition exponent (literal : string) : string := dropUntil isExponentMark literal.

(** A number literal denotes the double nearest to [m * 10^up / 10^down],
    [m] being its digits with the point left out.  That double is zero when
    [m] is, and when the quotient is at most [2^-1075], half the smallest
    positive double (the tie goes to zero, the even neighbour). *)
Definition numberIsZero (literal : string) : bool :=
  let m := parseInt (digitsOnly (mantissa literal)) in
  let e := parseInt (digitsOnly (exponent literal)) in
  let negative := negb (allOf (fun c => negb (Ascii.eqb c "-")) (exponent literal)) in
  let up := if negative then 0%N else e in
  let down :=
    (N.of_nat (String.length (fraction literal)) + (if negative then e else 0))%N in
  (m =? 0)%N || (m * 10 ^ up * 2 ^ 1075 <=? 10 ^ down)%N.

Definition truthy (v : json) : bool :=
  match v with
  | JNull => false
  | JBool b => b
  | JNumber literal => negb (numberIsZero literal)
  | JString s => nonEmpty s
  | JArray _ | JObject _ => true
  end.

(** A property that may be undefined. *)
Definition truthyAt (v : option json) : bool :=
  match v with
  | Some x => truthy x
  | None => false
  end.

(** [v || ''] on a property that may be undefined: a truthy value is kept,
    of whatever kind it is -- a cast [as string] checks nothing. *)
Definition orEmpty (v : option json) : json :=
  match v with
  | Some x => if truthy x then x else JString ""
  | None => JString ""
  end.

(** [v === s] for a string [s] *)
Definition isString (v : json) (s : string) : bool :=
  match v with
  | JString t => String.eqb t s
  | _ => false
  end.

(** *** A recipe as the worker holds it at run time

    The recipes of this module are read from parsed JSON.  The casts
    [JSON.parse(text) as ExtractedRecipe] and [... as string] check nothing,
    and [x || d] keeps every truthy [x]: a property holds the value the
    answer gave it, a string or not.  A [RecipeValue] is an
    [ExtractedRecipe] with such properties. *)
Record RecipeValue : Type := mkValue {
  v_name : json;
  v_ingredients : json;
  v_directions : json;
  v_prep_time : json;
  v_cook_time : json;
  v_servings : json;
  v_source : json;
  v_source_url : json;
  v_notes : json;
  v_image_url : option json
}.

(** A recipe whose properties are the strings of the declared type. *)
Definition ofTyped (r : ExtractedRecipe) : RecipeValue :=
  mkValue (JString (name r)) (JString (ingredients r)) (JString (directions r))
    (JString (prep_time r)) (JString (cook_time r)) (JString (servings r))
    (JString (source r)) (JString (source_url r)) (JString (notes r))
    (option_map JString (image_url r)).

(** An object of the declared type, as JSON has it: an absent property is
    written [null], which [||] treats as it treats [undefined]. *)
Definition ofPartial (p : PartialRecipe) : json :=
  let member (a : option string) : json :=
    match a with
    | Some s => JString s
    | None => JNull
    end in
  JObject [ ("name", member (p_name p)); ("ingredients", member (p_ingredients p));
            ("directions", member (p_directions p)); ("prep_time", member (p_prep_time p));
            ("cook_time", member (p_cook_time p)); ("servings", member (p_servings p));
            ("source", member (p_source p)); ("source_url", member (p_source_url p));
            ("notes", member (p_notes p)); ("image_url", member (p_image_url p)) ].

(** [recipe.key || d] *)
Definition valueOr (recipe : json) (key d : string) : json :=
  match get recipe key with
  | Some x => if truthy x then x else JString d
  | None => JString d
  end.

(** [recipe.key || undefined] *)
Definition valueOrUndefined (recipe : json) (key : string) : option json :=
  match get recipe key with
  | Some x => if truthy x then Some x else None
  | None => None
  end.

(** [this.validateRecipe(recipe)] for a parsed value: reading a property of
    [null] throws; any other value is read, property by property. *)
Definition validated (recipe : json) : result RecipeValue :=
  match recipe with
  | JNull => Throw TypeError
  | _ =>
      Ok {| v_name := valueOr recipe "name" "Untitled Recipe";
            v_ingredients := valueOr recipe "ingredients" "";
            v_directions := valueOr recipe "directions" "";
            v_prep_time := valueOr recipe "prep_time" "";
            v_cook_time := valueOr recipe "cook_time" "";
            v_servings := valueOr recipe "servings" "";
            v_source := valueOr recipe "source" "";
            v_source_url := valueOr recipe "source_url" "";
            v_notes := valueOr recipe "notes" "";
            v_image_url := valueOrUndefined recipe "image_url" |}
  end.

(** [recipes.map((r) => this.validateRecipe(r))] *)
Fixpoint validatedAll (items : list json) : result (list RecipeValue) :=
  match items with
  | [] => Ok []
  | v :: rest =>
      match validated v with
      | Throw e => Throw e
      | Ok r =>
          match validatedAll rest with
          | Throw e => Throw e
          | Ok rs => Ok (r :: rs)
          end
      end
  end.

(** [type === 'Recipe' || (Array.isArray(type) && type.includes('Recipe'))] *)
Definition isRecipeType (type : option json) : bool :=
  match type with
  | Some (JString s) => String.eqb s "Recipe"
  | Some (JArray items) =>
      existsb (fun x => match x with
                        | JString s => String.eqb s "Recipe"
                        | _ => false
                        end) items
  | _ => false
  end.

(** *** The page and the request to the service *)

Definition URL_RECIPE_PROMPT : string := Eval vm_compute in quoted
"Extract the recipe from this webpage content. Return ONLY valid JSON with no additional text or markdown formatting.

{
  'name': 'Recipe title',
  'ingredients': 'Each ingredient on its own line, include quantities and units',
  'directions': 'Step by step instructions, each step on its own line, numbered',
  'prep_time': 'Prep time if visible, otherwise empty string',
  'cook_time': 'Cook time if visible, otherwise empty string',
  'servings': 'Number of servings if visible, otherwise empty string',
  'source': 'Website or author name',
  'source_url': 'The original URL',
  'notes': 'Any additional notes, tips, or variations mentioned',
  'image_url': 'URL of the main recipe image if found, otherwise empty string'
}

Important:
- Look for structured recipe data (JSON-LD, schema.org markup) first
- Extract the main recipe image URL if available
- Preserve exact ingredient quantities and measurements
- Keep instruction steps in order
- If no recipe is found, set name to 'NO_RECIPE' and explain in notes".

(** The character budget of the HTML sent to the service, and the marker
    that follows a cut. *)
Definition HTML_LIMIT : nat := 50 * 1000.

Definition TRUNCATION_MARKER : string := "...".

(** [html.length > 50000 ? html.substring(0, 50000) + '...' : html] *)
Definition truncateHtml (html : string) : string :=
  if (HTML_LIMIT <? String.length html)%nat
  then take HTML_LIMIT html ++ TRUNCATION_MARKER
  else html.

(** The content of the message sent to the service. *)
Definition urlRequest (url html : string) : string :=
  "Here is the HTML content from " ++ url ++ ":" ++ nl ++ nl
    ++ truncateHtml html ++ nl ++ nl ++ URL_RECIPE_PROMPT.

(** The JSON-LD script blocks: the opening tag, in any case, then the
    shortest text up to a closing tag. *)
Definition SCRIPT_OPEN : string :=
  Eval vm_compute in quoted "<script type='application/ld+json'>".

Definition SCRIPT_CLOSE : string := "</script>".

(** The shortest prefix of [s] that ends with the closing tag. *)
Fixpoint untilClose (s : string) : option string :=
  if startsWithNoCase s SCRIPT_CLOSE then Some (take (String.length SCRIPT_CLOSE) s)
  else
    match s with
    | EmptyString => None
    | String c s' => option_map (String c) (untilClose s')
    end.

Definition execScript (s : string) : option string :=
  if startsWithNoCase s SCRIPT_OPEN then
    option_map (append (take (String.length SCRIPT_OPEN) s))
      (untilClose (drop (String.length SCRIPT_OPEN) s))
  else None.

(** [html.match(/<script type=...>([\s\S]*?)<\/script>/gi)], no match read
    as the empty list. *)
Fixpoint matchScripts (skip : nat) (html : string) : list string :=
  match html with
  | EmptyString => []
  | String _ html' =>
      match skip with
      | S k => matchScripts k html'
      | O =>
          match execScript html with
          | Some m => m :: matchScripts (String.length m - 1) html'
          | None => matchScripts 0 html'
          end
      end
  end.

(** [s.replace(/pat/i, '')] for a literal pattern: the first occurrence goes. *)
Fixpoint removeFirstNoCase (pat s : string) : string :=
  if startsWithNoCase s pat then drop (String.length pat) s
  else
    match s with
    | EmptyString => EmptyString
    | String c s' => String c (removeFirstNoCase pat s')
    end.

(** [fetch]'s response, as far as it is read. *)
Record Response : Type := mkResponse {
  ok : bool;
  status : N;
  statusText : string;
  body : string
}.

(** What a call of the worker did to the service, and how it ended. *)
Record Run (A : Type) : Type := mkRun {
  sent : list string;
  outcome : result A
}.

Arguments mkRun {A} sent outcome.
Arguments sent {A} r.
Arguments outcome {A} r.

(** [recipeFromSchema && recipeFromSchema.ingredients &&
    recipeFromSchema.directions] *)
Definition complete (recipeFromSchema : option RecipeValue) : bool :=
  match recipeFromSchema with
  | Some r => truthy (v_ingredients r) && truthy (v_directions r)
  | None => false
  end.

(** [recipeFromSchema && recipeFromSchema.name !== 'NO_RECIPE'] *)
Definition found (recipe : option RecipeValue) : bool :=
  match recipe with
  | Some r => negb (isString (v_name r) "NO_RECIPE")
  | None => false
  end.

(** *** Sample pages and answers *)

(** A page that fetches well, a service that answers [answer], integer
    literals printed as they are written, and no meta image. *)
Definition serves (html : string) : string -> result Response :=
  fun _ => Ok (mkResponse true 200 "OK" html).

Definition answers (answer : string) : string -> result Message :=
  fun _ => Ok [TextBlock answer].

Definition noImage : string -> string := fun _ => "".

Definition asWritten : string -> string := fun literal => literal.

(** A page whose JSON-LD recipe has a name and ingredients, and no
    instructions. *)
Definition soupPage : string :=
  "<html><head>" ++ SCRIPT_OPEN
    ++ quoted "{'@context':'https://schema.org','@graph':[{'@type':'WebSite','name':'Blog'},{'@type':'Recipe','name':'Soup','recipeIngredient':['1 cup water','2 carrots']}]}"
    ++ SCRIPT_CLOSE ++ "</head><body>Soup</body></html>".

Definition soupFromSchema : ExtractedRecipe :=
  mkRecipe "Soup" ("1 cup water" ++ nl ++ "2 carrots") "" "" "" "" ""
    "https://blog.example/soup" "" (Some "").

Definition soupAnswer : string :=
  quoted "{'name':'Soup','ingredients':'1 cup water','directions':'1. Boil'}".

(** An HTML of 50,001 characters. *)
Fixpoint replicate (n : nat) (c : ascii) : string :=
  match n with
  | O => EmptyString
  | S n' => String c (replicate n' c)
  end.

Definition longPage : string := replicate (S HTML_LIMIT) "a".

(** An answer in prose around one JSON object. *)
Definition chattyAnswer : string :=
  quoted "Here is the recipe: {'name':'Soup','notes':'x'}. Enjoy!".

(** A response that holds a valid JSON object in prose, and a second pair of
    braces after it: the span tried runs to the last brace, is not valid
    JSON, and the parser throws. *)
Definition twoBraceAnswer : string :=
  quoted "Here is the recipe: {'name':'Soup'} (serves {4})".

(** A document answered by an array of two records, the second a declined
    one; and the answer to a video that names no source. *)
Definition pdfAnswer : string :=
  quoted "[{'name':'Soup','ingredients':'water'},{'name':'NO_RECIPE','notes':'an index page'}]".

Definition videoAnswer : string :=
  quoted "{'name':'Pasta','ingredients':'pasta','directions':'1. Boil','source_url':'https://elsewhere.example/'}".

(** *** What the fall-back span is

    [widest o c s span]: [span] runs from the first [o] of [s] to the last
    [c] of [s].  [noSpan o c s]: no [c] follows an [o] in [s]. *)
Definition without (c : ascii) (s : string) : Prop :=
  allOf (fun a => negb (Ascii.eqb a c)) s = true.

Definition widest (o c : ascii) (s span : string) : Prop :=
  exists pre body post,
    s = pre ++ span ++ post /\ span = String o (body ++ String c "") /\
    without o pre /\ without c post.

Definition noSpan (o c : ascii) (s : string) : Prop :=
  forall pre body post, s <> pre ++ String o (body ++ String c post).

Definition valueOrEmpty (a : option string) : string :=
  match a with
  | Some s => s
  | None => ""
  end.

Section Service.

(** [JSON.parse], [None] when it throws a [SyntaxError]. *)
Variable JSON_parse : string -> option json.

(** [String(n)] for a number, from its literal. *)
Variable Number_toString : string -> string.

(** [fetch(url, ...)] with the response's text already read. *)
Variable fetch : string -> result Response.

(** [ogImageMatch?.[1] || twitterImageMatch?.[1] || '']: the page's
    open-graph image, else its twitter image, else nothing. *)
Variable metaImage : string -> string.

(** [this.client.messages.create], by the content of the user message. *)
Variable messages_create : string -> result Message.

(** [this.validateRecipe(JSON.parse(text))] *)
Definition parseOne (text : string) : result RecipeValue :=
  match JSON_parse text with
  | None => Throw SyntaxError
  | Some v => validated v
  end.

(** [JSON.parse(text)], normalized as one recipe or as an array of them. *)
Definition parseMany (text : string) : result (list RecipeValue) :=
  match JSON_parse text with
  | None => Throw SyntaxError
  | Some (JArray items) => validatedAll items
  | Some v =>
      match validated v with
      | Ok r => Ok [r]
      | Throw e => Throw e
      end
  end.

Definition parseRecipeResponse (response : Message) : result RecipeValue :=
  match findText response with
  | None => Throw (Error "No text response from Claude")
  | Some text =>
      let jsonText := trim text in
      match parseOne jsonText with
      | Ok recipe => Ok recipe
      | Throw _ =>
          match matchSpan "{" "}" jsonText with
          | Some span => parseOne span
          | None =>
              Throw (Error ("Failed to parse recipe JSON: " ++ take 200 jsonText))
          end
      end
  end.

(** [extractFromPDF], from the service's response on. *)
Definition parsePdfResponse (response : Message) : result (list RecipeValue) :=
  match findText response with
  | None => Throw (Error "No text response from Claude")
  | Some text =>
      let jsonText := trim text in
      match parseMany jsonText with
      | Ok recipes => Ok recipes
      | Throw _ =>
          let jsonMatch :=
            match matchSpan "[" "]" jsonText with
            | Some span => Some span
            | None => matchSpan "{" "}" jsonText
            end in
          match jsonMatch with
          | Some span => parseMany span
          | None =>
              Throw (Error ("Failed to parse PDF recipe JSON: " ++ take 200 jsonText))
          end
      end
  end.


(** *** [extractRecipeFromJsonLd] *)

(** [String(v)] *)
Fixpoint toText (v : json) : string :=
  match v with
  | JNull => "null"
  | JBool true => "true"
  | JBool false => "false"
  | JNumber literal => Number_toString literal
  | JString s => s
  | JArray items =>
      String.concat ","
        (map (fun x => match x with JNull => "" | _ => toText x end) items)
  | JObject _ => "[object Object]"
  end.

(** [items.join(sep)] *)
Definition join (sep : string) (items : list json) : string :=
  String.concat sep
    (map (fun x => match x with JNull => "" | _ => toText x end) items).

(** [a || b] on properties that may be undefined. *)
Definition orValue (a b : option json) : option json :=
  if truthyAt a then a else b.

(** One step of [recipeInstructions], numbered from [idx + 1]. *)
Definition stepText (idx : nat) (step : json) : result string :=
  let number := numberText (N.of_nat (idx + 1)) in
  match step with
  | JString s => Ok (number ++ ". " ++ s)
  | JNull => Throw TypeError
  | _ =>
      let text := orValue (orValue (get step "text") (get step "name"))
                    (Some (JString "")) in
      Ok (number ++ ". " ++ match text with Some t => toText t | None => "" end)
  end.

Fixpoint stepTexts (idx : nat) (steps : list json) : result (list string) :=
  match steps with
  | [] => Ok []
  | step :: rest =>
      match stepText idx step with
      | Throw e => Throw e
      | Ok line =>
          match stepTexts (S idx) rest with
          | Throw e => Throw e
          | Ok lines => Ok (line :: lines)
          end
      end
  end.

(** [this.formatDuration(obj.prepTime as string)]: a truthy value that is
    not a string has no [match] method. *)
Definition durationOf (v : option json) : result string :=
  match v with
  | Some (JString s) => Ok (formatDuration (Some s))
  | Some x => if truthy x then Throw TypeError else Ok ""
  | None => Ok ""
  end.

Definition servingsOf (v : option json) : string :=
  match v with
  | Some (JArray []) => "undefined"
  | Some (JArray (first :: _)) => toText first
  | Some x => if truthy x then toText x else ""
  | None => ""
  end.

Definition imageOf (v : option json) : json :=
  match v with
  | Some (JString s) => JString s
  | Some (JArray []) => JString ""
  | Some (JArray (JString s :: _)) => JString s
  | Some (JArray (first :: _)) => orEmpty (get first "url")
  | Some x => if truthy x then orEmpty (get x "url") else JString ""
  | None => JString ""
  end.

Definition authorOf (v : option json) : json :=
  match v with
  | Some (JString s) => JString s
  | Some (JArray []) => JString ""
  | Some (JArray (first :: _)) => orEmpty (get first "name")
  | Some x => if truthy x then orEmpty (get x "name") else JString ""
  | None => JString ""
  end.

(** The fields of a node tagged as a Recipe. *)
Definition recipeFields (obj : json) (sourceUrl : string) : result (option RecipeValue) :=
  let name := match orValue (get obj "name") (Some (JString "")) with
              | Some v => toText v
              | None => ""
              end in
  if nonEmpty name then
    let ingredients := match get obj "recipeIngredient" with
                       | Some (JArray items) => join nl items
                       | _ => ""
                       end in
    let directions := match get obj "recipeInstructions" with
                      | Some (JArray steps) =>
                          match stepTexts 0 steps with
                          | Ok lines => Ok (String.concat nl lines)
                          | Throw e => Throw e
                          end
                      | _ => Ok ""
                      end in
    match directions, durationOf (get obj "prepTime"), durationOf (get obj "cookTime") with
    | Ok directions, Ok prepTime, Ok cookTime =>
        Ok (Some (mkValue (JString name) (JString ingredients) (JString directions)
                    (JString prepTime) (JString cookTime)
                    (JString (servingsOf (get obj "recipeYield")))
                    (authorOf (get obj "author")) (JString sourceUrl) (JString "")
                    (Some (imageOf (get obj "image")))))
    | Throw e, _, _ => Throw e
    | _, Throw e, _ => Throw e
    | _, _, Throw e => Throw e
    end
  else Ok None.

Fixpoint extractRecipeFromJsonLd (data : json) (sourceUrl : string)
  : result (option RecipeValue) :=
  match data with
  | JArray items =>
      (fix each (items : list json) : result (option RecipeValue) :=
         match items with
         | [] => Ok None
         | item :: rest =>
             match extractRecipeFromJsonLd item sourceUrl with
             | Throw e => Throw e
             | Ok recipe => if found recipe then Ok recipe else each rest
             end
         end) items
  | JNull => Throw TypeError
  | JObject members =>
      if isRecipeType (lookup "@type" members) then recipeFields data sourceUrl
      else
        (* [obj['@graph']]: the last member of that name, when truthy *)
        match
          (fix graph (ms : list (string * json))
             : option (result (option RecipeValue)) :=
             match ms with
             | [] => None
             | (k, v) :: rest =>
                 match graph rest with
                 | Some r => Some r
                 | None =>
                     if String.eqb k "@graph" then
                       Some (if truthy v then extractRecipeFromJsonLd v sourceUrl
                             else Ok None)
                     else None
                 end
             end) members
        with
        | Some r => r
        | None => Ok None
        end
  | _ => Ok None
  end.

(** *** [extractFromURL] *)

(** One script block: its tags removed, parsed, walked. *)
Definition blockRecipe (block url : string) : result (option RecipeValue) :=
  let jsonContent :=
    removeFirstNoCase SCRIPT_CLOSE (removeFirstNoCase SCRIPT_OPEN block) in
  match JSON_parse jsonContent with
  | None => Throw SyntaxError
  | Some parsed => extractRecipeFromJsonLd parsed url
  end.

(** The loop over the blocks; a block that throws is skipped. *)
Fixpoint schemaLoop (blocks : list string) (url : string)
  (recipeFromSchema : option RecipeValue) : option RecipeValue :=
  match blocks with
  | [] => recipeFromSchema
  | block :: rest =>
      match blockRecipe block url with
      | Throw _ => schemaLoop rest url recipeFromSchema
      | Ok recipe => if found recipe then recipe else schemaLoop rest url recipe
      end
  end.

Definition recipeFromSchema (url html : string) : option RecipeValue :=
  schemaLoop (matchScripts 0 html) url None.

(** [recipe.source_url = url; if (!recipe.image_url && imageUrl)
    recipe.image_url = imageUrl] *)
Definition backfill (recipe : RecipeValue) (url imageUrl : string) : RecipeValue :=
  mkValue (v_name recipe) (v_ingredients recipe) (v_directions recipe)
    (v_prep_time recipe) (v_cook_time recipe) (v_servings recipe) (v_source recipe)
    (JString url) (v_notes recipe)
    (if truthyAt (v_image_url recipe) then v_image_url recipe
     else if nonEmpty imageUrl then Some (JString imageUrl)
     else v_image_url recipe).

(** The fall-back to the service. *)
Definition generate (url html : string) : Run RecipeValue :=
  let imageUrl := metaImage html in
  let request := urlRequest url html in
  match messages_create request with
  | Throw e => mkRun [request] (Throw e)
  | Ok claudeResponse =>
      match parseRecipeResponse claudeResponse with
      | Throw e => mkRun [request] (Throw e)
      | Ok recipe => mkRun [request] (Ok (backfill recipe url imageUrl))
      end
  end.

Definition extractFromURL (url : string) : Run RecipeValue :=
  match fetch url with
  | Throw e => mkRun [] (Throw e)
  | Ok response =>
      if ok response then
        let html := body response in
        match recipeFromSchema url html with
        | Some recipe =>
            if complete (Some recipe) then mkRun [] (Ok recipe)
            else generate url html
        | None => generate url html
        end
      else
        mkRun []
          (Throw (Error ("Failed to fetch URL: " ++ numberText (status response)
                           ++ " " ++ statusText response)))
  end.

(** *** Facts *)



Lemma nonEmpty_true (s : string) : s <> "" -> nonEmpty s = true.
Proof. now destruct s. Qed.

Lemma fromFirst_Some (c : ascii) (s t : string) :
  fromFirst c s = Some t ->
  exists pre rest, s = pre ++ t /\ t = String c rest /\ without c pre.
Proof.
  revert t; induction s as [|a s IH]; simpl; intros t H; [discriminate|].
  destruct (Ascii.eqb_spec a c) as [->|Hne].
  - injection H as <-. now exists "", s.
  - destruct (IH t H) as [pre [rest [-> [-> Hpre]]]].
    exists (String a pre), rest. repeat split. unfold without; simpl.
    apply Ascii.eqb_neq in Hne. now rewrite Hne.
Qed.

Lemma throughLast_Some (c : ascii) (s r : string) :
  throughLast c s = Some r ->
  exists body post, s = r ++ post /\ r = body ++ String c "" /\ without c post.
Proof.
  revert r; induction s as [|a s IH]; simpl; intros r H; [discriminate|].
  destruct (throughLast c s) as [r'|] eqn:Hr.
  - injection H as <-. destruct (IH r' eq_refl) as [body [post [-> [-> Hpost]]]].
    now exists (String a body), post.
  - destruct (Ascii.eqb_spec a c) as [->|Hne]; [|discriminate].
    injection H as <-. exists "", s. repeat split.
    clear IH. unfold without. induction s as [|b s IHs]; [reflexivity|].
    simpl in Hr |- *. destruct (throughLast c s); [discriminate|].
    destruct (Ascii.eqb b c); [discriminate|]. now apply IHs.
Qed.

Lemma throughLast_found (c : ascii) (x y : string) :
  throughLast c (x ++ String c y) <> None.
Proof.
  induction x as [|a x IH]; simpl.
  - destruct (throughLast c y); [discriminate|]. now rewrite Ascii.eqb_refl.
  - destruct (throughLast c (x ++ String c y)); [discriminate | contradiction].
Qed.

Lemma matchSpan_Some (o c : ascii) (s span : string) :
  matchSpan o c s = Some span -> widest o c s span.
Proof.
  unfold matchSpan, widest. intros H.
  destruct (fromFirst o s) as [t|] eqn:Ht; [|discriminate].
  destruct (fromFirst_Some o s t Ht) as [pre [rest [-> [-> Hpre]]]].
  destruct (throughLast c rest) as [r|] eqn:Hr; [|discriminate].
  injection H as <-.
  destruct (throughLast_Some c rest r Hr) as [body [post [-> [-> Hpost]]]].
  exists pre, body, post. repeat split; assumption.
Qed.

Lemma matchSpan_None (o c : ascii) (s : string) :
  matchSpan o c s = None -> noSpan o c s.
Proof.
  unfold matchSpan, noSpan. intros H pre body post ->.
  induction pre as [|a pre IH]; simpl in H.
  - rewrite Ascii.eqb_refl in H.
    destruct (throughLast c (body ++ String c post)) eqn:Hr; [discriminate|].
    now apply throughLast_found in Hr.
  - destruct (Ascii.eqb a o); [|now apply IH].
    destruct (throughLast c (pre ++ String o (body ++ String c post))) eqn:Hr;
      [discriminate|].
    change (String o (body ++ String c post))
      with (String o "" ++ (body ++ String c post)) in Hr.
    rewrite <- !append_assoc in Hr. now apply throughLast_found in Hr.
Qed.

(** *** Theorems about the duration formatter, the normalizer and the
    response parser *)





(** C9, as the code has it.  When the text of the response does not parse
    as it stands, one span is tried: the one from the first opening brace to
    the last closing brace of the trimmed text (for a document, the one from
    the first opening bracket to the last closing bracket when there is one,
    the brace span otherwise).  The result is that of parsing this span, a
    [SyntaxError] when it is not valid JSON; the worker's own parse error is
    thrown when the text has no such span. *)
Theorem fallback_parses_widest_span (response : Message) (text : string) :
  findText response = Some text ->
  (forall e, parseOne (trim text) = Throw e ->
     match matchSpan "{" "}" (trim text) with
     | Some span =>
         parseRecipeResponse response = parseOne span /\
         widest "{" "}" (trim text) span
     | None =>
         parseRecipeResponse response =
           Throw (Error ("Failed to parse recipe JSON: " ++ take 200 (trim text))) /\
         noSpan "{" "}" (trim text)
     end) /\
  (forall e, parseMany (trim text) = Throw e ->
     match matchSpan "[" "]" (trim text), matchSpan "{" "}" (trim text) with
     | Some span, _ =>
         parsePdfResponse response = parseMany span /\
         widest "[" "]" (trim text) span
     | None, Some span =>
         parsePdfResponse response = parseMany span /\
         noSpan "[" "]" (trim text) /\ widest "{" "}" (trim text) span
     | None, None =>
         parsePdfResponse response =
           Throw (Error ("Failed to parse PDF recipe JSON: " ++ take 200 (trim text))) /\
         noSpan "[" "]" (trim text) /\ noSpan "{" "}" (trim text)
     end).
Proof.
  intros Htext. split; intros e He.
  - unfold parseRecipeResponse. rewrite Htext, He.
    destruct (matchSpan "{" "}" (trim text)) as [span|] eqn:Hs.
    + split; [reflexivity | now apply matchSpan_Some].
    + split; [reflexivity | now apply matchSpan_None].
  - unfold parsePdfResponse. rewrite Htext, He.
    destruct (matchSpan "[" "]" (trim text)) as [span|] eqn:Hb.
    + split; [reflexivity | now apply matchSpan_Some].
    + destruct (matchSpan "{" "}" (trim text)) as [span|] eqn:Hs.
      * split; [reflexivity|].
        split; [now apply matchSpan_None | now apply matchSpan_Some].
      * split; [reflexivity|]. split; now apply matchSpan_None.
Qed.

(** *** Theorems about [extractFromURL] *)

Lemma nonEmpty_false (s : string) : nonEmpty s = false <-> s = "".
Proof. destruct s; unfold nonEmpty; simpl; split; intros H; congruence. Qed.

Lemma truthy_JString (s : string) : truthy (JString s) = true <-> s <> "".
Proof.
  simpl. split.
  - intros H E. apply nonEmpty_false in E. congruence.
  - apply nonEmpty_true.
Qed.

Lemma complete_Some (i d : string) (recipe : RecipeValue) :
  v_ingredients recipe = JString i -> v_directions recipe = JString d ->
  complete (Some recipe) = true <->
  v_ingredients recipe <> JString "" /\ v_directions recipe <> JString "".
Proof.
  intros Hi Hd. unfold complete. rewrite Hi, Hd, andb_true_iff, !truthy_JString.
  split; intros [H1 H2]; split; congruence.
Qed.

Lemma sent_generate (url html : string) :
  sent (generate url html) = [urlRequest url html].
Proof.
  unfold generate. destruct (messages_create (urlRequest url html)) as [m|e];
    [|reflexivity].
  now destruct (parseRecipeResponse m).
Qed.

Lemma extractFromURL_incomplete (url : string) (response : Response) :
  fetch url = Ok response -> ok response = true ->
  complete (recipeFromSchema url (body response)) = false ->
  extractFromURL url = generate url (body response).
Proof.
  intros Hf Hok Hc. unfold extractFromURL. rewrite Hf, Hok.
  destruct (recipeFromSchema url (body response)) as [recipe|]; [|reflexivity].
  now rewrite Hc.
Qed.

(** *** What every extracted record looks like *)

(** Induction over parsed values, through arrays and objects. *)
Fixpoint json_nested_ind (P : json -> Prop)
  (Hnull : P JNull) (Hbool : forall b, P (JBool b))
  (Hnumber : forall literal, P (JNumber literal)) (Hstring : forall s, P (JString s))
  (Harray : forall items, Forall P items -> P (JArray items))
  (Hobject : forall members, Forall (fun kv => P (snd kv)) members -> P (JObject members))
  (v : json) {struct v} : P v :=
  match v with
  | JNull => Hnull
  | JBool b => Hbool b
  | JNumber literal => Hnumber literal
  | JString s => Hstring s
  | JArray items =>
      Harray items
        ((fix all (l : list json) : Forall P l :=
            match l with
            | [] => Forall_nil P
            | x :: r =>
                Forall_cons x
                  (json_nested_ind P Hnull Hbool Hnumber Hstring Harray Hobject x) (all r)
            end) items)
  | JObject members =>
      Hobject members
        ((fix all (l : list (string * json)) : Forall (fun kv => P (snd kv)) l :=
            match l with
            | [] => Forall_nil _
            | kv :: r =>
                Forall_cons kv
                  (json_nested_ind P Hnull Hbool Hnumber Hstring Harray Hobject (snd kv))
                  (all r)
            end) members)
  end.

(** A record read from structured data: its name, ingredients and
    directions are strings, the name not empty; it has the page's URL as its
    source, no notes, and an image property. *)
Definition fromSchema (url : string) (r : RecipeValue) : Prop :=
  (exists n i d,
     v_name r = JString n /\ n <> "" /\
     v_ingredients r = JString i /\ v_directions r = JString d) /\
  v_source_url r = JString url /\ v_notes r = JString "" /\ v_image_url r <> None.

Lemma recipeFields_fromSchema (obj : json) (url : string) (r : RecipeValue) :
  recipeFields obj url = Ok (Some r) -> fromSchema url r.
Proof.
  unfold recipeFields.
  destruct (nonEmpty _) eqn:Hn; [|discriminate].
  destruct (match get obj "recipeInstructions" with
            | Some (JArray steps) => _ | _ => _ end); [|discriminate].
  destruct (durationOf (get obj "prepTime")); [|discriminate].
  destruct (durationOf (get obj "cookTime")); [|discriminate].
  intros [= <-]. unfold fromSchema; simpl.
  split; [|repeat split; discriminate].
  eexists. eexists. eexists. split; [reflexivity|].
  split; [|split; reflexivity].
  intros E. rewrite E in Hn. discriminate.
Qed.

Lemma extractRecipeFromJsonLd_fromSchema (url : string) (data : json) :
  forall r, extractRecipeFromJsonLd data url = Ok (Some r) -> fromSchema url r.
Proof.
  induction data as [| b | literal | s | items IH | members IH]
    using json_nested_ind; intros r H; try discriminate.
  - simpl in H. induction IH as [|item rest Hitem _ IHrest]; [discriminate|].
    destruct (extractRecipeFromJsonLd item url) as [[recipe|]|e] eqn:Hi;
      [| |discriminate].
    + destruct (found (Some recipe)).
      * injection H as ->. now apply Hitem.
      * now apply IHrest.
    + now apply IHrest.
  - simpl in H.
    destruct (isRecipeType (lookup "@type" members));
      [now apply (recipeFields_fromSchema (JObject members) url)|].
    induction IH as [|[k v] rest Hv _ IHrest]; [discriminate|].
    simpl in Hv.
    match type of H with
    | context [match ?g rest with Some _ => _ | None => _ end] =>
        destruct (g rest) as [res|] eqn:Hg
    end.
    + now apply IHrest.
    + destruct (String.eqb k "@graph"); [|discriminate].
      destruct (truthy v); [now apply Hv | discriminate].
Qed.

Lemma schemaLoop_fromSchema (url : string) (blocks : list string) :
  forall acc r,
    schemaLoop blocks url acc = Some r ->
    acc = Some r \/ fromSchema url r.
Proof.
  induction blocks as [|block rest IH]; intros acc r H; simpl in H; [now left|].
  unfold blockRecipe in H.
  destruct (JSON_parse _) as [parsed|]; [|now apply IH].
  destruct (extractRecipeFromJsonLd parsed url) as [recipe|e] eqn:Hw; [|now apply IH].
  destruct (found recipe).
  - right. subst recipe. now apply (extractRecipeFromJsonLd_fromSchema url parsed).
  - destruct (IH recipe r H) as [->|Hs]; [|now right].
    right. now apply (extractRecipeFromJsonLd_fromSchema url parsed).
Qed.

(** A Recipe node without [recipeInstructions] yields empty directions. *)
Lemma recipeFields_no_instructions (obj : json) (url : string) (recipe : RecipeValue) :
  get obj "recipeInstructions" = None ->
  recipeFields obj url = Ok (Some recipe) ->
  v_directions recipe = JString "".
Proof.
  unfold recipeFields. intros ->.
  destruct (nonEmpty _); [|discriminate].
  destruct (durationOf (get obj "prepTime")), (durationOf (get obj "cookTime"));
    try discriminate.
  now intros [= <-].
Qed.

(** What [extractFromURL] returns when it falls back: the answer of the
    service to [request], read as a recipe, with the page's URL as its source
    URL and the page's meta image when the answer names none. *)
Lemma outcome_generate (url html : string) :
  outcome (generate url html) =
    match messages_create (urlRequest url html) with
    | Throw e => Throw e
    | Ok answer =>
        match parseRecipeResponse answer with
        | Throw e => Throw e
        | Ok generated =>
            Ok {| v_name := v_name generated;
                  v_ingredients := v_ingredients generated;
                  v_directions := v_directions generated;
                  v_prep_time := v_prep_time generated;
                  v_cook_time := v_cook_time generated;
                  v_servings := v_servings generated;
                  v_source := v_source generated;
                  v_source_url := JString url;
                  v_notes := v_notes generated;
                  v_image_url :=
                    if truthyAt (v_image_url generated) then v_image_url generated
                    else if nonEmpty (metaImage html) then Some (JString (metaImage html))
                    else v_image_url generated |}
        end
    end.
Proof.
  unfold generate. destruct (messages_create (urlRequest url html)) as [m|e];
    [|reflexivity].
  now destruct (parseRecipeResponse m).
Qed.

Lemma recipeFromSchema_strings (url html : string) (recipe : RecipeValue) :
  recipeFromSchema url html = Some recipe ->
  exists i d, v_ingredients recipe = JString i /\ v_directions recipe = JString d.
Proof.
  intros H. unfold recipeFromSchema in H.
  destruct (schemaLoop_fromSchema url _ None recipe H) as [E|[[n [i [d [_ [_ [Hi Hd]]]]]] _]];
    [discriminate|].
  now exists i, d.
Qed.

(** C3.  When the walk over the page's structured data yields a recipe whose
    ingredients or directions are empty, [extractFromURL] does not return it.
    It sends one message to the generative service: a heading with the URL,
    the page's HTML (its first 50,000 characters and the marker when it is
    longer) and the prompt; and it ends as that call ends: with the service's
    error, with the parse error of the answer, or with the recipe read from
    the answer, the page's URL put in as its source URL.  The structured
    recipe is returned, and nothing is sent, when its ingredients and
    directions are both non-empty -- and only then. *)
Theorem incomplete_schema_falls_back (url : string) (response : Response) :
  fetch url = Ok response -> ok response = true ->
  (forall recipe, recipeFromSchema url (body response) = Some recipe ->
     v_ingredients recipe = JString "" \/ v_directions recipe = JString "" ->
     forall request,
       request = "Here is the HTML content from " ++ url ++ ":" ++ nl ++ nl
                   ++ (if (50 * 1000 <? String.length (body response))%nat
                       then take (50 * 1000) (body response) ++ "..."
                       else body response)
                   ++ nl ++ nl ++ URL_RECIPE_PROMPT ->
       sent (extractFromURL url) = [request] /\
       outcome (extractFromURL url) =
         match messages_create request with
         | Throw e => Throw e
         | Ok answer =>
             match parseRecipeResponse answer with
             | Throw e => Throw e
             | Ok generated =>
                 Ok {| v_name := v_name generated;
                       v_ingredients := v_ingredients generated;
                       v_directions := v_directions generated;
                       v_prep_time := v_prep_time generated;
                       v_cook_time := v_cook_time generated;
                       v_servings := v_servings generated;
                       v_source := v_source generated;
                       v_source_url := JString url;
                       v_notes := v_notes generated;
                       v_image_url :=
                         if truthyAt (v_image_url generated) then v_image_url generated
                         else if nonEmpty (metaImage (body response))
                              then Some (JString (metaImage (body response)))
                              else v_image_url generated |}
             end
         end) /\
  (forall recipe, recipeFromSchema url (body response) = Some recipe ->
     v_ingredients recipe <> JString "" -> v_directions recipe <> JString "" ->
     extractFromURL url = mkRun [] (Ok recipe)) /\
  (sent (extractFromURL url) = [] ->
     exists recipe,
       recipeFromSchema url (body response) = Some recipe /\
       outcome (extractFromURL url) = Ok recipe /\
       v_ingredients recipe <> JString "" /\ v_directions recipe <> JString "").
Proof.
  intros Hf Hok. split; [|split].
  - intros recipe Hr Hempty request Hrequest.
    destruct (recipeFromSchema_strings url _ recipe Hr) as [i [d [Hi Hd]]].
    assert (Hc : complete (recipeFromSchema url (body response)) = false).
    { rewrite Hr. destruct (complete (Some recipe)) eqn:Hc; [|reflexivity].
      apply (complete_Some i d recipe Hi Hd) in Hc. tauto. }
    assert (Hq : request = urlRequest url (body response)) by exact Hrequest.
    rewrite (extractFromURL_incomplete url response Hf Hok Hc), Hq.
    split; [apply sent_generate | apply outcome_generate].
  - intros recipe Hr Hi Hd.
    destruct (recipeFromSchema_strings url _ recipe Hr) as [i [d [Ei Ed]]].
    unfold extractFromURL. rewrite Hf, Hok, Hr.
    now rewrite (proj2 (complete_Some i d recipe Ei Ed) (conj Hi Hd)).
  - intros Hsent.
    destruct (complete (recipeFromSchema url (body response))) eqn:Hc.
    + destruct (recipeFromSchema url (body response)) as [recipe|] eqn:Hr;
        [|discriminate].
      destruct (recipeFromSchema_strings url _ recipe Hr) as [i [d [Ei Ed]]].
      exists recipe. unfold extractFromURL. rewrite Hf, Hok, Hr, Hc.
      apply (complete_Some i d recipe Ei Ed) in Hc. tauto.
    + rewrite (extractFromURL_incomplete url response Hf Hok Hc), sent_generate in Hsent.
      discriminate.
Qed.

Lemma length_take (n : nat) (s : string) :
  n <= String.length s -> String.length (take n s) = n.
Proof.
  revert s; induction n as [|n IH]; intros [|c s] H; simpl in *;
    try reflexivity; try lia.
  now rewrite IH by lia.
Qed.

Lemma take_append (n : nat) (s t : string) :
  n <= String.length s -> take n (take n s ++ t) = take n s.
Proof.
  revert s; induction n as [|n IH]; intros [|c s] H; simpl in *;
    try reflexivity; try lia.
  now rewrite IH by lia.
Qed.

Lemma drop_append (n : nat) (s t : string) :
  n <= String.length s -> drop n (take n s ++ t) = t.
Proof.
  revert s; induction n as [|n IH]; intros [|c s] H; simpl in *; try lia.
  - now destruct t.
  - now destruct t.
  - apply IH. lia.
Qed.

(** C6.  When [extractFromURL] falls back to the service, the message it
    sends holds the page's HTML between a fixed heading and the prompt.  An
    HTML longer than 50,000 characters is sent as its first 50,000
    characters followed by the marker: what comes after those characters is
    the marker, once, and nothing else.  A shorter HTML is sent as it is. *)
Theorem html_truncated_with_one_marker (url : string) (response : Response) :
  fetch url = Ok response -> ok response = true ->
  complete (recipeFromSchema url (body response)) = false ->
  HTML_LIMIT = 50 * 1000 /\ TRUNCATION_MARKER = "..." /\
  sent (extractFromURL url) =
    [ "Here is the HTML content from " ++ url ++ ":" ++ nl ++ nl
        ++ truncateHtml (body response) ++ nl ++ nl ++ URL_RECIPE_PROMPT ] /\
  (HTML_LIMIT < String.length (body response) ->
     truncateHtml (body response) = take HTML_LIMIT (body response) ++ TRUNCATION_MARKER /\
     String.length (truncateHtml (body response)) = HTML_LIMIT + 3 /\
     take HTML_LIMIT (truncateHtml (body response)) = take HTML_LIMIT (body response) /\
     drop HTML_LIMIT (truncateHtml (body response)) = TRUNCATION_MARKER) /\
  (String.length (body response) <= HTML_LIMIT ->
     truncateHtml (body response) = body response).
Proof.
  intros Hf Hok Hc. split; [reflexivity|]. split; [reflexivity|].
  split; [|split].
  - rewrite (extractFromURL_incomplete url response Hf Hok Hc). apply sent_generate.
  - intros Hlong. unfold truncateHtml.
    destruct (Nat.ltb_spec HTML_LIMIT (String.length (body response))) as [_|H];
      [|lia].
    split; [reflexivity|].
    split; [|split].
    + rewrite length_append, length_take by lia. reflexivity.
    + apply take_append. lia.
    + apply drop_append. lia.
  - intros Hshort. unfold truncateHtml.
    destruct (Nat.ltb_spec HTML_LIMIT (String.length (body response))) as [H|_];
      [lia | reflexivity].
Qed.

(** The name is a truthy value and the image URL, when there is one, too:
    neither is the empty string. *)
Definition named (r : RecipeValue) : Prop :=
  truthy (v_name r) = true /\ v_name r <> JString "" /\
  (forall x, v_image_url r = Some x -> truthy x = true) /\
  v_image_url r <> Some (JString "").

Lemma valueOr_truthy (recipe : json) (key d : string) :
  d <> "" -> truthy (valueOr recipe key d) = true.
Proof.
  intros Hd. unfold valueOr. destruct (get recipe key) as [x|].
  - destruct (truthy x) eqn:Hx; [exact Hx | now apply truthy_JString].
  - now apply truthy_JString.
Qed.

Lemma valueOrUndefined_truthy (recipe : json) (key : string) (x : json) :
  valueOrUndefined recipe key = Some x -> truthy x = true.
Proof.
  unfold valueOrUndefined. destruct (get recipe key) as [y|]; [|discriminate].
  destruct (truthy y) eqn:Hy; [|discriminate]. now intros [= <-].
Qed.

Lemma validated_named (v : json) (r : RecipeValue) : validated v = Ok r -> named r.
Proof.
  intros H.
  assert (Hr : r = {| v_name := valueOr v "name" "Untitled Recipe";
                      v_ingredients := valueOr v "ingredients" "";
                      v_directions := valueOr v "directions" "";
                      v_prep_time := valueOr v "prep_time" "";
                      v_cook_time := valueOr v "cook_time" "";
                      v_servings := valueOr v "servings" "";
                      v_source := valueOr v "source" "";
                      v_source_url := valueOr v "source_url" "";
                      v_notes := valueOr v "notes" "";
                      v_image_url := valueOrUndefined v "image_url" |})
    by (unfold validated in H; destruct v; congruence).
  subst r. unfold named. cbn [v_name v_image_url].
  assert (Hn : truthy (valueOr v "name" "Untitled Recipe") = true)
    by (apply valueOr_truthy; discriminate).
  split; [exact Hn|]. split; [intros E; rewrite E in Hn; discriminate|].
  split; [apply valueOrUndefined_truthy|].
  intros E. apply valueOrUndefined_truthy in E. discriminate.
Qed.

Lemma validatedAll_named (items : list json) :
  forall rs, validatedAll items = Ok rs ->
  List.length rs = List.length items /\ Forall named rs.
Proof.
  induction items as [|v items IH]; simpl; intros rs H.
  - injection H as <-. split; [reflexivity | constructor].
  - destruct (validated v) as [r|e] eqn:Hv; [|discriminate].
    destruct (validatedAll items) as [rs'|e]; [|discriminate].
    injection H as <-. destruct (IH rs' eq_refl) as [Hl Hf].
    split; [simpl; now rewrite Hl|]. constructor; [|exact Hf].
    now apply (validated_named v).
Qed.

Lemma parseOne_named (text : string) (r : RecipeValue) :
  parseOne text = Ok r -> named r.
Proof.
  unfold parseOne. destruct (JSON_parse text); [apply validated_named | discriminate].
Qed.

Lemma parseMany_named (text : string) (rs : list RecipeValue) :
  parseMany text = Ok rs -> Forall named rs.
Proof.
  unfold parseMany. destruct (JSON_parse text) as [v|]; [|discriminate].
  assert (Hone : match validated v with Ok r => Ok [r] | Throw e => Throw e end = Ok rs ->
                 Forall named rs).
  { destruct (validated v) as [r|e] eqn:Hv; [|discriminate].
    intros [= <-]. constructor; [now apply (validated_named v) | constructor]. }
  destruct v; try exact Hone. intros H. now apply (validatedAll_named items).
Qed.

Lemma parseRecipeResponse_named (response : Message) (r : RecipeValue) :
  parseRecipeResponse response = Ok r -> named r.
Proof.
  unfold parseRecipeResponse. destruct (findText response) as [text|]; [|discriminate].
  destruct (parseOne (trim text)) as [r'|e] eqn:H1.
  - intros [= <-]. now apply (parseOne_named (trim text)).
  - destruct (matchSpan "{" "}" (trim text)) as [span|]; [|discriminate].
    apply parseOne_named.
Qed.

Lemma member_or (a : option string) (d : string) :
  (let x := match a with
            | Some s => JString s
            | None => JNull
            end in
   if truthy x then x else JString d) = JString (orElse a d).
Proof. destruct a as [s|]; simpl; [destruct (nonEmpty s)|]; reflexivity. Qed.

Lemma member_orUndefined (a : option string) :
  (let x := match a with
            | Some s => JString s
            | None => JNull
            end in
   if truthy x then Some x else None) = option_map JString (orUndefined a).
Proof. destruct a as [s|]; simpl; [destruct (nonEmpty s)|]; reflexivity. Qed.

(** On an object of the declared type, [validateRecipe] is the function of
    the strings that the declared type describes. *)
Lemma validated_ofPartial (p : PartialRecipe) :
  validated (ofPartial p) = Ok (ofTyped (validateRecipe p)).
Proof.
  destruct p as [a1 a2 a3 a4 a5 a6 a7 a8 a9 a10].
  unfold validated, ofPartial, ofTyped, validateRecipe, valueOr, valueOrUndefined.
  cbn [get lookup String.eqb Ascii.eqb Bool.eqb name ingredients directions prep_time
       cook_time servings source source_url notes image_url
       p_name p_ingredients p_directions p_prep_time p_cook_time p_servings p_source
       p_source_url p_notes p_image_url].
  f_equal. f_equal; first [apply member_or | apply member_orUndefined].
Qed.

(** Whatever the service answers, the name of a record read from its answer
    is a truthy value, as is its image URL when it has one: neither is
    absent-but-present as the empty string.  The name is the answer's own
    when that is truthy -- a string or not, the cast of the parsed answer
    checking nothing -- and the placeholder otherwise. *)
Theorem answers_give_named_records (response : Message) :
  (forall r, parseRecipeResponse response = Ok r -> named r) /\
  (forall rs, parsePdfResponse response = Ok rs -> Forall named rs) /\
  (forall text v,
     findText response = Some text -> JSON_parse (trim text) = Some v -> v <> JNull ->
     exists r,
       parseRecipeResponse response = Ok r /\
       v_name r = match get v "name" with
                  | Some x => if truthy x then x else JString "Untitled Recipe"
                  | None => JString "Untitled Recipe"
                  end /\
       v_image_url r = match get v "image_url" with
                       | Some x => if truthy x then Some x else None
                       | None => None
                       end).
Proof.
  split; [apply parseRecipeResponse_named|]. split.
  - intros rs. unfold parsePdfResponse.
    destruct (findText response) as [text|]; [|discriminate].
    destruct (parseMany (trim text)) as [rs'|e] eqn:H1.
    + intros [= <-]. now apply (parseMany_named (trim text)).
    + destruct (matchSpan "[" "]" (trim text)) as [span|];
        [apply parseMany_named|].
      destruct (matchSpan "{" "}" (trim text)) as [span|];
        [apply parseMany_named | discriminate].
  - intros text v Ht Hp Hv. unfold parseRecipeResponse, parseOne.
    rewrite Ht, Hp. unfold validated.
    destruct v; try contradiction; eexists; (split; [reflexivity|]); split; reflexivity.
Qed.

Lemma validatedAll_total (items : list json) :
  Forall (fun v => v <> JNull) items ->
  exists rs, validatedAll items = Ok rs /\ List.length rs = List.length items.
Proof.
  induction 1 as [|v items Hv _ [rs [IH Hl]]]; simpl.
  - now exists [].
  - assert (Hr : exists r, validated v = Ok r).
    { unfold validated. destruct v; try (eexists; reflexivity).
      contradiction. }
    destruct Hr as [r ->]. rewrite IH. exists (r :: rs). simpl. now rewrite Hl.
Qed.

(** A document whose answer parses as an array without [null] gives one
    record for each element, in particular none for the empty array; an
    answer that parses as any other value than [null] gives one record. *)
Theorem pdf_answer_gives_one_record_each
  (response : Message) (text : string) (v : json) :
  findText response = Some text ->
  JSON_parse (trim text) = Some v ->
  match v with
  | JArray items => Forall (fun x => x <> JNull) items
  | _ => v <> JNull
  end ->
  exists rs,
    parsePdfResponse response = Ok rs /\
    List.length rs = match v with
                     | JArray items => List.length items
                     | _ => 1%nat
                     end.
Proof.
  intros Ht Hp Hv. unfold parsePdfResponse, parseMany. rewrite Ht, Hp.
  assert (Hone : v <> JNull -> exists r, validated v = Ok r).
  { intros Hn. unfold validated. destruct v; try (eexists; reflexivity).
    contradiction. }
  destruct v;
    try (destruct (Hone Hv) as [r ->]; exists [r]; split; reflexivity).
  destruct (validatedAll_total items Hv) as [rs [-> Hl]]. now exists rs.
Qed.

Lemma stepText_numbered (idx : nat) (step : json) (line : string) :
  stepText idx step = Ok line ->
  exists t, line = numberText (N.of_nat (idx + 1)) ++ ". " ++ t /\
            (forall s, step = JString s -> t = s).
Proof.
  unfold stepText. destruct step; try discriminate;
    intros [= <-]; eexists; (split; [reflexivity|]); try discriminate.
  now intros s' [= ->].
Qed.

(** The instructions give one line for each step, in order; each line starts
    with the step's number, counted from one, and a step that is a string
    follows its number unchanged. *)
Theorem directions_numbered (steps : list json) (lines : list string) :
  stepTexts 0 steps = Ok lines ->
  List.length lines = List.length steps /\
  forall i line step,
    nth_error lines i = Some line -> nth_error steps i = Some step ->
    exists t, line = numberText (N.of_nat (i + 1)) ++ ". " ++ t /\
              (forall s, step = JString s -> t = s).
Proof.
  assert (H : forall idx lines,
    stepTexts idx steps = Ok lines ->
    List.length lines = List.length steps /\
    forall i line step,
      nth_error lines i = Some line -> nth_error steps i = Some step ->
      exists t, line = numberText (N.of_nat (idx + i + 1)) ++ ". " ++ t /\
                (forall s, step = JString s -> t = s)).
  { clear lines. induction steps as [|step0 steps IH]; intros idx lines H; simpl in H.
    - injection H as <-. split; [reflexivity|]. intros [|i]; discriminate.
    - destruct (stepText idx step0) as [line0|e] eqn:H0; [|discriminate].
      destruct (stepTexts (S idx) steps) as [lines'|e] eqn:H1; [|discriminate].
      injection H as <-. destruct (IH (S idx) lines' H1) as [Hl Hn].
      split; [simpl; now rewrite Hl|].
      intros [|i] line step; simpl; intros Hline Hstep.
      + injection Hline as <-. injection Hstep as <-.
        rewrite Nat.add_0_r. now apply stepText_numbered.
      + replace (idx + S i + 1) with (S idx + i + 1) by lia. now apply (Hn i). }
  intros Hs. exact (H 0 lines Hs).
Qed.

(** [extractFromURL] never returns a record without a name, and the record's
    source URL is the URL it was called with, whatever the page or the
    service say.  A record returned without a call to the service is the
    recipe found in the structured data of the page fetched from the URL:
    its name, ingredients and directions are strings that are not empty, and
    it has no notes. *)
Theorem extractFromURL_provenance (url : string) (r : RecipeValue) :
  outcome (extractFromURL url) = Ok r ->
  truthy (v_name r) = true /\ v_name r <> JString "" /\
  v_source_url r = JString url /\
  (sent (extractFromURL url) = [] ->
     exists response,
       fetch url = Ok response /\ ok response = true /\
       recipeFromSchema url (body response) = Some r /\
       (exists n i d,
          v_name r = JString n /\ n <> "" /\
          v_ingredients r = JString i /\ i <> "" /\
          v_directions r = JString d /\ d <> "") /\
       v_notes r = JString "").
Proof.
  assert (Hgen : forall html,
            outcome (generate url html) = Ok r ->
            truthy (v_name r) = true /\ v_name r <> JString "" /\
            v_source_url r = JString url /\ sent (generate url html) <> []).
  { intros html H. rewrite outcome_generate in H.
    destruct (messages_create (urlRequest url html)) as [m|e]; [|discriminate].
    destruct (parseRecipeResponse m) as [recipe|e] eqn:Hp; [|discriminate].
    apply parseRecipeResponse_named in Hp as [Hn [Hne _]].
    injection H as <-. cbn [v_name v_source_url].
    split; [exact Hn|]. split; [exact Hne|]. split; [reflexivity|].
    rewrite sent_generate. discriminate. }
  unfold extractFromURL.
  destruct (fetch url) as [response|e] eqn:Hf; [|discriminate].
  destruct (ok response) eqn:Hok; [|discriminate].
  assert (Hfall : forall P : Prop,
                  outcome (generate url (body response)) = Ok r ->
                  truthy (v_name r) = true /\ v_name r <> JString "" /\
                  v_source_url r = JString url /\
                  (sent (generate url (body response)) = [] -> P)).
  { intros P H. destruct (Hgen _ H) as [H1 [H2 [H3 H4]]].
    split; [exact H1|]. split; [exact H2|]. split; [exact H3|].
    intros E. contradiction. }
  destruct (recipeFromSchema url (body response)) as [recipe|] eqn:Hr;
    [|apply Hfall].
  destruct (complete (Some recipe)) eqn:Hc; [|apply Hfall].
  cbn [outcome sent]. intros H. apply (f_equal (fun o => match o with
                                                       | Ok x => x
                                                       | Throw _ => recipe
                                                       end)) in H.
  subst r. clear Hfall Hgen.
  unfold recipeFromSchema in Hr.
  destruct (schemaLoop_fromSchema url _ None recipe Hr)
    as [E|[[n [i [d [Hn [Hne [Hi Hd]]]]]] [Hu [Hno _]]]]; [discriminate|].
  unfold complete in Hc. rewrite Hi, Hd in Hc.
  apply andb_prop in Hc as [Hci Hcd].
  apply truthy_JString in Hci. apply truthy_JString in Hcd.
  split; [rewrite Hn; now apply truthy_JString|].
  split; [rewrite Hn; intros [= E]; contradiction|].
  split; [exact Hu|]. intros _.
  exists response. split; [reflexivity|]. split; [exact Hok|].
  split; [exact Hr|]. split; [|exact Hno].
  exists n, i, d. repeat split; assumption.
Qed.


(** *** The other extraction chains *)

(** A text written with back quotes for the double quotes. *)
Definition backquoted (s : string) : string :=
  (fix go (s : string) : string :=
     match s with
     | EmptyString => EmptyString
     | String c s' => String (if Ascii.eqb c "`" then ascii_of_N 34 else c) (go s')
     end) s.

Definition IMAGE_RECIPE_PROMPT : string := Eval vm_compute in backquoted
"Extract the recipe from this image. Return ONLY valid JSON with no additional text or markdown formatting.

{
  `name`: `Recipe title exactly as shown`,
  `ingredients`: `Each ingredient on its own line, include quantities and units`,
  `directions`: `Step by step instructions, each step on its own line, numbered`,
  `prep_time`: `Prep time if visible, otherwise empty string`,
  `cook_time`: `Cook time if visible, otherwise empty string`,
  `servings`: `Number of servings if visible, otherwise empty string`,
  `source`: `Source or attribution if visible, otherwise empty string`,
  `source_url`: ``,
  `notes`: `Any additional notes, tips, or variations mentioned`
}

Important:
- Preserve exact ingredient quantities and measurements
- Keep instruction steps in order
- If text is unclear, make your best interpretation
- If you absolutely cannot read the recipe, set name to `UNREADABLE` and explain in notes".

Definition PDF_RECIPE_PROMPT : string := Eval vm_compute in backquoted
"Extract all recipes from this PDF document. Return ONLY valid JSON with no additional text or markdown formatting.

If there are multiple recipes, return an array. If there's only one recipe, still return it as a single-element array.

[
  {
    `name`: `Recipe title`,
    `ingredients`: `Each ingredient on its own line, include quantities and units`,
    `directions`: `Step by step instructions, each step on its own line, numbered`,
    `prep_time`: `Prep time if visible, otherwise empty string`,
    `cook_time`: `Cook time if visible, otherwise empty string`,
    `servings`: `Number of servings if visible, otherwise empty string`,
    `source`: `Source or attribution if visible, otherwise empty string`,
    `source_url`: ``,
    `notes`: `Any additional notes, tips, or variations mentioned`
  }
]

Important:
- Extract ALL recipes from the document
- Preserve exact ingredient quantities and measurements
- Keep instruction steps in order".

Definition TRANSCRIPT_RECIPE_PROMPT : string := Eval vm_compute in backquoted
"Extract the recipe from this video content. You have been given:
1. The audio transcript from the video (what the person says)
2. The caption/description (text the creator wrote under the video)

IMPORTANT: The caption often contains the FULL RECIPE with exact measurements, while the video audio may be more casual. Prioritize the caption for exact measurements when available.

Return ONLY valid JSON with no additional text or markdown formatting.

{
  `name`: `Recipe title (infer from context if not explicitly stated)`,
  `ingredients`: `Each ingredient on its own line, include quantities and units as mentioned`,
  `directions`: `Step by step instructions, each step on its own line, numbered`,
  `prep_time`: `Prep time if mentioned, otherwise empty string`,
  `cook_time`: `Cook time if mentioned, otherwise empty string`,
  `servings`: `Number of servings if mentioned, otherwise empty string`,
  `source`: `Creator name if mentioned`,
  `source_url`: ``,
  `notes`: `Any tips, variations, or additional context mentioned`
}

Important:
- Check BOTH the transcript AND caption for recipe information
- The caption often has the complete ingredient list with exact measurements - use these!
- If the caption has structured recipe data, prefer that over casual verbal mentions
- People in videos often speak casually - interpret measurements like `a pinch`, `some`, `a bit` as best you can
- If exact quantities aren't in the caption, use reasonable estimates and note this
- Instructions may be given out of order - reorganize them logically
- If no recipe is found in either source, set name to `NO_RECIPE` and explain in notes".

Definition validMimeTypes : list string :=
  [ "image/jpeg"; "image/png"; "image/gif"; "image/webp" ].

(** [{ data: ArrayBuffer; mimeType: string }] *)
Record ImageInput : Type := mkImage {
  img_data : string;
  img_mimeType : string
}.

(** A content block of a request. *)
Inductive Part : Type :=
| ImagePart (media_type data : string)
| DocumentPart (media_type data : string)
| TextPart (text : string).

Definition mediaTypeOf (mimeType : string) : string :=
  if existsb (String.eqb mimeType) validMimeTypes then mimeType else "image/jpeg".

Definition imagePrompt (count : nat) : string :=
  if (1 <? count)%nat then
    "These " ++ numberText (N.of_nat count)
      ++ " images are pages of the SAME recipe. Combine all the information into a single recipe."
      ++ nl ++ nl ++ IMAGE_RECIPE_PROMPT
  else IMAGE_RECIPE_PROMPT.

(** [recipe.source_url = sourceUrl; if (authorName && !recipe.source)
    recipe.source = authorName] *)
Definition attributed (recipe : RecipeValue) (sourceUrl : string)
  (authorName : option string) : RecipeValue :=
  mkValue (v_name recipe) (v_ingredients recipe) (v_directions recipe)
    (v_prep_time recipe) (v_cook_time recipe) (v_servings recipe)
    (match authorName with
     | Some author =>
         if nonEmpty author && negb (truthy (v_source recipe)) then JString author
         else v_source recipe
     | None => v_source recipe
     end)
    (JString sourceUrl) (v_notes recipe) (v_image_url recipe).

Definition transcriptRequest (transcript : string) (caption : option string) : string :=
  let content :=
    "## Audio Transcript (what the person says in the video):" ++ nl ++ nl ++ transcript in
  let content :=
    match caption with
    | Some c =>
        if nonEmpty c then
          content ++ nl ++ nl
            ++ "## Video Caption/Description (text written by creator):" ++ nl ++ nl ++ c
        else content
    | None => content
    end in
  content ++ nl ++ nl ++ TRANSCRIPT_RECIPE_PROMPT.

(** [arrayBufferToBase64]: the platform's [btoa] over the bytes. *)
Variable arrayBufferToBase64 : string -> string.

(** [this.client.messages.create], by the content blocks of the user
    message. *)
Variable messages_create_parts : list Part -> result Message.

Definition imageRequest (images : list ImageInput) : list Part :=
  (map (fun img =>
          ImagePart (mediaTypeOf (img_mimeType img)) (arrayBufferToBase64 (img_data img)))
     images
   ++ [TextPart (imagePrompt (List.length images))])%list.

Definition extractFromMultipleImages (images : list ImageInput) : result RecipeValue :=
  match messages_create_parts (imageRequest images) with
  | Throw e => Throw e
  | Ok response => parseRecipeResponse response
  end.

Definition extractFromImage (imageData mimeType : string) : result RecipeValue :=
  extractFromMultipleImages [mkImage imageData mimeType].

Definition extractRecipe (imageData mimeType : string) : result RecipeValue :=
  extractFromImage imageData mimeType.

Definition extractFromPDF (pdfData : string) : result (list RecipeValue) :=
  match messages_create_parts
          [ DocumentPart "application/pdf" (arrayBufferToBase64 pdfData);
            TextPart PDF_RECIPE_PROMPT ] with
  | Throw e => Throw e
  | Ok response => parsePdfResponse response
  end.

Definition extractFromTranscript (transcript sourceUrl : string)
  (authorName caption : option string) : Run RecipeValue :=
  let content := transcriptRequest transcript caption in
  match messages_create content with
  | Throw e => mkRun [content] (Throw e)
  | Ok response =>
      match parseRecipeResponse response with
      | Throw e => mkRun [content] (Throw e)
      | Ok recipe => mkRun [content] (Ok (attributed recipe sourceUrl authorName))
      end
  end.

(** The image blocks of a request never carry a media type outside the four
    the service takes, one block is sent for each image, in order, and the
    prompt comes last; the attachment types [image/jpg], [image/heic] and
    [image/heif], which the email parser accepts, are sent labelled
    [image/jpeg]. *)
Theorem images_sent_with_valid_media_types (images : list ImageInput) :
  (exists blocks prompt,
     imageRequest images = (blocks ++ [TextPart prompt])%list /\
     List.length blocks = List.length images /\
     Forall (fun part => exists m d, part = ImagePart m d /\ In m validMimeTypes) blocks /\
     ((List.length images <= 1)%nat -> prompt = IMAGE_RECIPE_PROMPT)) /\
  (forall m, In m EmailParser.SUPPORTED_IMAGE_TYPES ->
     In m validMimeTypes /\ mediaTypeOf m = m \/
     In m ["image/jpg"; "image/heic"; "image/heif"] /\ mediaTypeOf m = "image/jpeg").
Proof.
  split.
  - eexists. eexists. split; [reflexivity|]. split; [apply length_map|]. split.
    + apply Forall_forall. intros part Hin. apply in_map_iff in Hin as [img [<- _]].
      eexists. eexists. split; [reflexivity|]. unfold mediaTypeOf.
      destruct (existsb (String.eqb (img_mimeType img)) validMimeTypes) eqn:He.
      * apply existsb_exists in He as [m [Hm He]].
        apply String.eqb_eq in He. now rewrite He.
      * now left.
    + intros Hn. unfold imagePrompt.
      destruct (Nat.ltb_spec 1 (List.length images)); [lia | reflexivity].
  - intros m Hm. simpl in Hm.
    repeat (destruct Hm as [<-|Hm];
            [first [ left; split; [simpl; tauto | reflexivity]
                   | right; split; [simpl; tauto | reflexivity] ] |]).
    contradiction.
Qed.

Lemma transcriptRequest_text (transcript : string) (caption : option string) :
  transcriptRequest transcript caption =
    "## Audio Transcript (what the person says in the video):" ++ nl ++ nl ++ transcript
      ++ match caption with
         | Some c =>
             if nonEmpty c then
               nl ++ nl ++ "## Video Caption/Description (text written by creator):"
                 ++ nl ++ nl ++ c
             else ""
         | None => ""
         end
      ++ nl ++ nl ++ TRANSCRIPT_RECIPE_PROMPT.
Proof.
  unfold transcriptRequest.
  destruct caption as [c|]; [destruct (nonEmpty c)|]; now rewrite !append_assoc.
Qed.

(** [extractFromTranscript] sends one message: the transcript under its
    heading, the caption under its heading when there is a caption, and the
    prompt.  The record it returns is the one read from the answer, with two
    changes: its source URL is the URL given, whatever the answer said, and
    its source is the author given when the answer names no source and the
    author is not empty.  So the record has a name, and its source is empty
    only when the answer named none and no author was given. *)
Theorem transcript_recipe_attributed
  (transcript sourceUrl : string) (authorName caption : option string)
  (r : RecipeValue) :
  outcome (extractFromTranscript transcript sourceUrl authorName caption) = Ok r ->
  forall request,
    request =
      "## Audio Transcript (what the person says in the video):" ++ nl ++ nl ++ transcript
        ++ match caption with
           | Some c =>
               if nonEmpty c then
                 nl ++ nl ++ "## Video Caption/Description (text written by creator):"
                   ++ nl ++ nl ++ c
               else ""
           | None => ""
           end
        ++ nl ++ nl ++ TRANSCRIPT_RECIPE_PROMPT ->
    sent (extractFromTranscript transcript sourceUrl authorName caption) = [request] /\
    exists answer parsed,
      messages_create request = Ok answer /\
      parseRecipeResponse answer = Ok parsed /\
      v_source_url r = JString sourceUrl /\
      v_name r = v_name parsed /\ truthy (v_name r) = true /\
      v_ingredients r = v_ingredients parsed /\ v_directions r = v_directions parsed /\
      v_prep_time r = v_prep_time parsed /\ v_cook_time r = v_cook_time parsed /\
      v_servings r = v_servings parsed /\ v_notes r = v_notes parsed /\
      v_image_url r = v_image_url parsed /\
      (truthy (v_source parsed) = true -> v_source r = v_source parsed) /\
      (truthy (v_source parsed) = false ->
         forall author, authorName = Some author -> author <> "" ->
         v_source r = JString author) /\
      (truthy (v_source r) = false ->
         truthy (v_source parsed) = false /\
         (authorName = None \/ authorName = Some "")).
Proof.
  intros H request Hrequest. rewrite <- transcriptRequest_text in Hrequest. subst request.
  unfold extractFromTranscript in *.
  destruct (messages_create (transcriptRequest transcript caption)) as [m|e];
    [|discriminate].
  destruct (parseRecipeResponse m) as [recipe|e] eqn:Hp; [|discriminate].
  cbn [outcome sent] in *. apply (f_equal (fun o => match o with
                                                  | Ok x => x
                                                  | Throw _ => recipe
                                                  end)) in H.
  subst r. split; [reflexivity|].
  exists m, recipe. split; [reflexivity|]. split; [exact Hp|].
  unfold attributed.
  cbn [v_name v_ingredients v_directions v_prep_time v_cook_time v_servings
       v_source v_source_url v_notes v_image_url].
  split; [reflexivity|]. split; [reflexivity|].
  split; [exact (proj1 (parseRecipeResponse_named m recipe Hp))|].
  do 7 (split; [reflexivity|]).
  split; [|split].
  - intros Ht. rewrite Ht. destruct authorName as [author|]; [|reflexivity].
    now rewrite andb_false_r.
  - intros Hf author -> Hne. now rewrite Hf, (nonEmpty_true author Hne).
  - destruct authorName as [author|].
    + destruct (nonEmpty author) eqn:Ha; simpl.
      * destruct (truthy (v_source recipe)) eqn:Hs; simpl.
        -- intros E. congruence.
        -- intros E. rewrite Ha in E. discriminate.
      * apply nonEmpty_false in Ha. subst author. intros E. split; [exact E | now right].
    + intros E. split; [exact E | now left].
Qed.

(** *** Durations in general *)

Lemma digitsValue_acc (d : Decimal.uint) :
  forall acc : positive,
    digitsValue (N.pos acc) (NilEmpty.string_of_uint d) = N.pos (Pos.of_uint_acc d acc).
Proof.
  induction d; intros acc; cbn [NilEmpty.string_of_uint Pos.of_uint_acc];
    [reflexivity | ..];
    unfold digitsValue; fold digitsValue; rewrite <- IHd; f_equal;
    match goal with
    | |- context [N_of_ascii ?c] =>
        let v := eval vm_compute in (N_of_ascii c) in change (N_of_ascii c) with v
    end; lia.
Qed.

Lemma parseInt_uint (d : Decimal.uint) :
  parseInt (NilEmpty.string_of_uint d) = Pos.of_uint d.
Proof.
  unfold parseInt.
  induction d; cbn [NilEmpty.string_of_uint Pos.of_uint];
    [reflexivity | exact IHd | ..];
    unfold digitsValue; fold digitsValue; rewrite <- digitsValue_acc; f_equal.
Qed.

Lemma parseInt_numberText (n : N) : parseInt (numberText n) = n.
Proof.
  unfold numberText. rewrite parseInt_uint. apply DecimalN.Unsigned.of_to.
Qed.

Lemma allOf_isDigit_uint (d : Decimal.uint) :
  allOf isDigit (NilEmpty.string_of_uint d) = true.
Proof. induction d; simpl NilEmpty.string_of_uint; [reflexivity | ..]; exact IHd. Qed.

Lemma drop_length_append (a b : string) : drop (String.length a) (a ++ b) = b.
Proof. induction a as [|c a IH]; simpl; [now destruct b | exact IH]. Qed.

Lemma startsWith_append (p x : string) : startsWith (p ++ x) p = true.
Proof.
  induction p as [|a p IH]; simpl; [now destruct x|].
  now rewrite Ascii.eqb_refl.
Qed.

Lemma afterFirst_prefix (pat x : string) : afterFirst pat (pat ++ x) = Some x.
Proof.
  assert (H : afterFirst pat (pat ++ x)
              = if startsWith (pat ++ x) pat
                then Some (drop (String.length pat) (pat ++ x))
                else match pat ++ x with
                     | EmptyString => None
                     | String _ s' => afterFirst pat s'
                     end)
    by (destruct (pat ++ x); reflexivity).
  now rewrite H, startsWith_append, drop_length_append.
Qed.

Lemma component_number (unit : ascii) (n : N) (rest : string) :
  isDigit unit = false -> (0 < n)%N ->
  component unit (numberText n ++ String unit rest) = (Some (numberText n), rest).
Proof.
  intros Hu Hn. unfold component.
  assert (Hd : takeWhile isDigit (numberText n ++ String unit rest) = numberText n).
  { apply (EmailParser.takeWhile_append isDigit).
    - apply allOf_isDigit_uint.
    - right. now exists unit, rest. }
  rewrite Hd, drop_length_append, Ascii.eqb_refl.
  assert (Hne : nonEmpty (numberText n) = true).
  { apply nonEmpty_true. intros E.
    pose proof (parseInt_numberText n) as Hp. rewrite E in Hp.
    unfold parseInt in Hp. simpl in Hp. lia. }
  now rewrite Hne.
Qed.

(** A duration [PT<h>H<m>M], with whatever follows it, is rendered from its
    hours and minutes: [<h> hour(s) <m> min], the plural from two hours on.
    [PT<m>M] is rendered [<m> min].  What follows the minutes, seconds for
    one, is dropped. *)
Theorem formatDuration_renders (h m : N) (rest : string) :
  (0 < h < 2 ^ 53)%N -> (0 < m < 2 ^ 53)%N ->
  formatDuration (Some ("PT" ++ numberText h ++ "H" ++ numberText m ++ "M" ++ rest))
    = numberText h ++ " hour" ++ (if (h =? 1)%N then "" else "s") ++ " "
        ++ numberText m ++ " min" /\
  formatDuration (Some ("PT" ++ numberText m ++ "M" ++ rest)) = numberText m ++ " min".
Proof.
  intros [Hh _] [Hm _].
  assert (Hgv : forall n, groupValue (Some (numberText n)) = n)
    by (intros n; apply parseInt_numberText).
  split.
  - unfold formatDuration, matchDuration.
    rewrite afterFirst_prefix. simpl nonEmpty. cbv iota.
    change (numberText h ++ "H" ++ numberText m ++ "M" ++ rest)
      with (numberText h ++ String "H" (numberText m ++ String "M" rest)).
    rewrite (component_number "H" h _ eq_refl Hh).
    rewrite (component_number "M" m _ eq_refl Hm).
    rewrite !Hgv.
    destruct (N.eqb_spec h 0) as [E|_]; [lia|].
    destruct (N.eqb_spec m 0) as [E|_]; [lia|]. simpl.
    unfold plural.
    destruct (N.eqb_spec h 1) as [->|Hne]; [reflexivity|].
    destruct (N.ltb_spec 1 h) as [_|Hle]; [reflexivity | lia].
  - unfold formatDuration, matchDuration.
    rewrite afterFirst_prefix. simpl nonEmpty. cbv iota.
    change (numberText m ++ "M" ++ rest) with (numberText m ++ String "M" rest).
    assert (Hnone : component "H" (numberText m ++ String "M" rest)
                    = (None, numberText m ++ String "M" rest)).
    { unfold component.
      assert (Hd : takeWhile isDigit (numberText m ++ String "M" rest) = numberText m).
      { apply (EmailParser.takeWhile_append isDigit).
        - apply allOf_isDigit_uint.
        - right. now exists "M"%char, rest. }
      rewrite Hd, drop_length_append.
      replace (Ascii.eqb "M" "H") with false by reflexivity.
      now rewrite andb_false_r. }
    rewrite Hnone, (component_number "M" m _ eq_refl Hm).
    rewrite Hgv. simpl groupValue.
    destruct (N.eqb_spec m 0) as [E|_]; [lia | reflexivity].
Qed.

(** *** The script blocks *)

Lemma startsWithNoCase_length (p s : string) :
  startsWithNoCase s p = true -> String.length p <= String.length s.
Proof.
  revert s; induction p as [|a p IH]; intros [|b s] H; simpl in *; try lia;
    try discriminate.
  destruct (Ascii.eqb a (toLower b)); [|discriminate].
  apply IH in H. lia.
Qed.

Lemma startsWithNoCase_append (p s x : string) :
  startsWithNoCase s p = true -> startsWithNoCase (s ++ x) p = true.
Proof.
  revert s; induction p as [|a p IH]; intros s H;
    [apply EmailParser.startsWithNoCase_nil|].
  destruct s as [|b s]; [discriminate|]. simpl in *.
  destruct (Ascii.eqb a (toLower b)); [now apply IH | discriminate].
Qed.

Lemma startsWithNoCase_exact (p s : string) :
  startsWithNoCase s p = true -> toLowerCase (take (String.length p) s) = p.
Proof.
  revert s; induction p as [|a p IH]; intros [|b s] H; simpl in *;
    try reflexivity; try discriminate.
  destruct (Ascii.eqb_spec a (toLower b)) as [->|]; [|discriminate].
  now rewrite IH.
Qed.

Lemma drop_take (n : nat) (s : string) : drop n (take n s) = "".
Proof. revert s; induction n as [|n IH]; intros [|c s]; simpl; auto. Qed.

Lemma removeFirstNoCase_unfold (pat s : string) :
  removeFirstNoCase pat s =
    if startsWithNoCase s pat then drop (String.length pat) s
    else match s with
         | EmptyString => EmptyString
         | String c s' => String c (removeFirstNoCase pat s')
         end.
Proof. now destruct s. Qed.

Lemma untilClose_unfold (s : string) :
  untilClose s =
    if startsWithNoCase s SCRIPT_CLOSE then Some (take (String.length SCRIPT_CLOSE) s)
    else match s with
         | EmptyString => None
         | String c s' => option_map (String c) (untilClose s')
         end.
Proof. now destruct s. Qed.

Lemma untilClose_spec (s : string) :
  forall r, untilClose s = Some r ->
  exists c post,
    r = c ++ take (String.length SCRIPT_CLOSE) post /\ s = c ++ post /\
    startsWithNoCase post SCRIPT_CLOSE = true /\
    removeFirstNoCase SCRIPT_CLOSE r = c.
Proof.
  induction s as [|a s IH]; intros r H; rewrite untilClose_unfold in H.
  - discriminate.
  - destruct (startsWithNoCase (String a s) SCRIPT_CLOSE) eqn:Hs.
    + clear IH. revert H Hs. generalize (String a s) as t. intros t H Hs.
      assert (E : r = take (String.length SCRIPT_CLOSE) t) by congruence.
      subst r. clear H. exists "", t.
      split; [reflexivity|]. split; [reflexivity|]. split; [exact Hs|].
      rewrite removeFirstNoCase_unfold.
      pose proof (EmailParser.startsWithNoCase_take SCRIPT_CLOSE t "" Hs) as Ht.
      rewrite append_empty_r in Ht. rewrite Ht. apply drop_take.
    + destruct (untilClose s) as [r'|] eqn:Hr; [|discriminate].
      injection H as <-.
      destruct (IH r' eq_refl) as [c [post [-> [-> [Hp Hrem]]]]].
      exists (String a c), post.
      split; [reflexivity|]. split; [reflexivity|]. split; [exact Hp|].
      rewrite removeFirstNoCase_unfold.
      destruct (startsWithNoCase (String a (c ++ take (String.length SCRIPT_CLOSE) post))
                  SCRIPT_CLOSE) eqn:Hq.
      * exfalso.
        assert (Hfull : startsWithNoCase
                          (String a (c ++ take (String.length SCRIPT_CLOSE) post)
                             ++ drop (String.length SCRIPT_CLOSE) post)
                          SCRIPT_CLOSE = true)
          by (now apply startsWithNoCase_append).
        change (String a (c ++ take (String.length SCRIPT_CLOSE) post)
                  ++ drop (String.length SCRIPT_CLOSE) post)
          with (String a ((c ++ take (String.length SCRIPT_CLOSE) post)
                            ++ drop (String.length SCRIPT_CLOSE) post)) in Hfull.
        rewrite append_assoc in Hfull.
        assert (Hsplit : forall n t, take n t ++ drop n t = t).
        { clear. induction n as [|n IHn]; intros [|x t]; simpl; try reflexivity.
          now rewrite IHn. }
        rewrite Hsplit in Hfull. congruence.
      * now rewrite Hrem.
Qed.

Lemma matchScripts_In (block : string) (html : string) :
  forall skip, In block (matchScripts skip html) -> exists s, execScript s = Some block.
Proof.
  induction html as [|c html IH]; intros skip H; [contradiction|].
  simpl in H. destruct skip as [|k]; [|now apply (IH k)].
  destruct (execScript (String c html)) as [m|] eqn:Hm.
  - destruct H as [<-|H]; [now exists (String c html) | eapply IH; eassumption].
  - eapply IH; eassumption.
Qed.

(** Each script block found in a page is an opening tag, a content and a
    closing tag, and removing the tags gives back exactly the content: the
    text that is parsed as JSON is what stands between the tags. *)
Theorem script_block_stripped_to_content (html block : string) :
  In block (matchScripts 0 html) ->
  exists opening content closing,
    block = opening ++ content ++ closing /\
    toLowerCase opening = SCRIPT_OPEN /\ toLowerCase closing = SCRIPT_CLOSE /\
    removeFirstNoCase SCRIPT_CLOSE (removeFirstNoCase SCRIPT_OPEN block) = content.
Proof.
  intros Hin. apply matchScripts_In in Hin as [s Hs].
  unfold execScript in Hs.
  destruct (startsWithNoCase s SCRIPT_OPEN) eqn:Ho; [|discriminate].
  destruct (untilClose (drop (String.length SCRIPT_OPEN) s)) as [r|] eqn:Hr;
    [|discriminate].
  assert (E : block = take (String.length SCRIPT_OPEN) s ++ r)
    by (unfold option_map in Hs; congruence).
  subst block. clear Hs.
  destruct (untilClose_spec _ r Hr) as [c [post [-> [_ [Hp Hrem]]]]].
  exists (take (String.length SCRIPT_OPEN) s), c, (take (String.length SCRIPT_CLOSE) post).
  split; [reflexivity|].
  split; [now apply startsWithNoCase_exact|].
  split; [now apply startsWithNoCase_exact|].
  rewrite (removeFirstNoCase_unfold SCRIPT_OPEN).
  rewrite (EmailParser.startsWithNoCase_take SCRIPT_OPEN s _ Ho).
  rewrite drop_append by (now apply startsWithNoCase_length).
  exact Hrem.
Qed.

End Service.


(** *** Closed examples, with the executable JSON model *)

Lemma incomplete_schema_falls_back_witness :
  recipeFromSchema Json.parse asWritten "https://blog.example/soup" soupPage
    = Some (ofTyped soupFromSchema) /\
  v_directions (ofTyped soupFromSchema) = JString "" /\
  sent (extractFromURL Json.parse asWritten (serves soupPage) noImage
          (answers soupAnswer) "https://blog.example/soup")
    = [ "Here is the HTML content from " ++ "https://blog.example/soup" ++ ":"
          ++ nl ++ nl ++ soupPage ++ nl ++ nl ++ URL_RECIPE_PROMPT ] /\
  outcome (extractFromURL Json.parse asWritten (serves soupPage) noImage
             (answers soupAnswer) "https://blog.example/soup")
    = Ok (ofTyped (mkRecipe "Soup" "1 cup water" "1. Boil" "" "" "" ""
                     "https://blog.example/soup" "" None)).
Proof.
  assert (H : recipeFromSchema Json.parse asWritten "https://blog.example/soup" soupPage
              = Some (ofTyped soupFromSchema)) by (vm_compute; reflexivity).
  split; [exact H|]. split; [reflexivity|].
  destruct (proj1 (incomplete_schema_falls_back Json.parse asWritten
                     (serves soupPage) noImage (answers soupAnswer)
                     "https://blog.example/soup" (mkResponse true 200 "OK" soupPage)
                     eq_refl eq_refl)
              (ofTyped soupFromSchema) H (or_intror eq_refl) _ eq_refl) as [Hs Ho].
  split; [rewrite Hs | rewrite Ho]; vm_compute; reflexivity.
Defined.

Lemma html_truncated_with_one_marker_witness :
  HTML_LIMIT < String.length longPage /\
  sent (extractFromURL Json.parse asWritten (serves longPage) noImage
          (answers soupAnswer) "https://blog.example/long")
    = [ "Here is the HTML content from " ++ "https://blog.example/long" ++ ":"
          ++ nl ++ nl ++ truncateHtml longPage ++ nl ++ nl ++ URL_RECIPE_PROMPT ] /\
  drop HTML_LIMIT (truncateHtml longPage) = TRUNCATION_MARKER.
Proof.
  assert (Hlong : HTML_LIMIT < String.length longPage)
    by (apply Nat.ltb_lt; vm_compute; reflexivity).
  assert (Hc : complete (recipeFromSchema Json.parse asWritten
                           "https://blog.example/long" longPage) = false)
    by (vm_compute; reflexivity).
  pose proof (html_truncated_with_one_marker Json.parse asWritten
                (serves longPage) noImage (answers soupAnswer)
                "https://blog.example/long" (mkResponse true 200 "OK" longPage)
                eq_refl eq_refl Hc) as [_ [_ [Hsent [Hcut _]]]].
  split; [exact Hlong|]. split; [exact Hsent|].
  exact (proj2 (proj2 (proj2 (Hcut Hlong)))).
Defined.

Lemma fallback_parses_widest_span_witness :
  findText [OtherBlock; TextBlock chattyAnswer] = Some chattyAnswer /\
  parseOne Json.parse (trim chattyAnswer) = Throw SyntaxError /\
  matchSpan "{" "}" (trim chattyAnswer) = Some (quoted "{'name':'Soup','notes':'x'}") /\
  parseRecipeResponse Json.parse [OtherBlock; TextBlock chattyAnswer]
    = parseOne Json.parse (quoted "{'name':'Soup','notes':'x'}").
Proof.
  assert (Hfail : parseOne Json.parse (trim chattyAnswer) = Throw SyntaxError)
    by (vm_compute; reflexivity).
  assert (Hspan : matchSpan "{" "}" (trim chattyAnswer)
                  = Some (quoted "{'name':'Soup','notes':'x'}"))
    by (vm_compute; reflexivity).
  split; [reflexivity|]. split; [exact Hfail|]. split; [exact Hspan|].
  pose proof (proj1 (fallback_parses_widest_span Json.parse
                       [OtherBlock; TextBlock chattyAnswer] chattyAnswer eq_refl)
                SyntaxError Hfail) as H.
  rewrite Hspan in H. exact (proj1 H).
Defined.

Lemma pdf_answer_gives_one_record_each_witness :
  exists rs,
    parsePdfResponse Json.parse [TextBlock pdfAnswer] = Ok rs /\
    List.length rs = 2%nat.
Proof.
  apply (pdf_answer_gives_one_record_each Json.parse [TextBlock pdfAnswer] pdfAnswer
           (JArray
              [ JObject [("name", JString "Soup"); ("ingredients", JString "water")];
                JObject [("name", JString "NO_RECIPE"); ("notes", JString "an index page")] ]));
    [reflexivity | vm_compute; reflexivity |].
  repeat constructor; discriminate.
Defined.

Lemma directions_numbered_witness :
  stepTexts asWritten 0
    [JString "Boil"; JObject [("@type", JString "HowToStep"); ("text", JString "Serve")]]
    = Ok ["1. Boil"; "2. Serve"] /\
  List.length ["1. Boil"; "2. Serve"] = 2%nat.
Proof.
  assert (H : stepTexts asWritten 0
                [JString "Boil";
                 JObject [("@type", JString "HowToStep"); ("text", JString "Serve")]]
              = Ok ["1. Boil"; "2. Serve"]) by (vm_compute; reflexivity).
  split; [exact H|].
  exact (proj1 (directions_numbered asWritten _ _ H)).
Defined.

Lemma extractFromURL_provenance_witness :
  outcome (extractFromURL Json.parse asWritten (serves soupPage) noImage
             (answers videoAnswer) "https://blog.example/soup")
    = Ok (ofTyped (mkRecipe "Pasta" "pasta" "1. Boil" "" "" "" ""
                     "https://blog.example/soup" "" None)) /\
  v_source_url (ofTyped (mkRecipe "Pasta" "pasta" "1. Boil" "" "" "" ""
                           "https://blog.example/soup" "" None))
    = JString "https://blog.example/soup".
Proof.
  assert (H : outcome (extractFromURL Json.parse asWritten (serves soupPage) noImage
                         (answers videoAnswer) "https://blog.example/soup")
              = Ok (ofTyped (mkRecipe "Pasta" "pasta" "1. Boil" "" "" "" ""
                               "https://blog.example/soup" "" None)))
    by (vm_compute; reflexivity).
  split; [exact H|].
  exact (proj1 (proj2 (proj2 (extractFromURL_provenance Json.parse asWritten
                                (serves soupPage) noImage (answers videoAnswer)
                                "https://blog.example/soup" _ H)))).
Defined.

Lemma transcript_recipe_attributed_witness :
  outcome (extractFromTranscript Json.parse (answers videoAnswer)
             "Boil the pasta." "https://www.tiktok.com/@chef/video/7" (Some "Chef Ann")
             (Some "Pasta night"))
    = Ok (ofTyped (mkRecipe "Pasta" "pasta" "1. Boil" "" "" "" "Chef Ann"
                     "https://www.tiktok.com/@chef/video/7" "" None)) /\
  sent (extractFromTranscript Json.parse (answers videoAnswer)
          "Boil the pasta." "https://www.tiktok.com/@chef/video/7" (Some "Chef Ann")
          (Some "Pasta night"))
    = [ "## Audio Transcript (what the person says in the video):" ++ nl ++ nl
          ++ "Boil the pasta." ++ nl ++ nl
          ++ "## Video Caption/Description (text written by creator):" ++ nl ++ nl
          ++ "Pasta night" ++ nl ++ nl ++ TRANSCRIPT_RECIPE_PROMPT ].
Proof.
  assert (H : outcome (extractFromTranscript Json.parse (answers videoAnswer)
                         "Boil the pasta." "https://www.tiktok.com/@chef/video/7"
                         (Some "Chef Ann") (Some "Pasta night"))
              = Ok (ofTyped (mkRecipe "Pasta" "pasta" "1. Boil" "" "" "" "Chef Ann"
                               "https://www.tiktok.com/@chef/video/7" "" None)))
    by (vm_compute; reflexivity).
  split; [exact H|].
  rewrite (proj1 (transcript_recipe_attributed Json.parse (answers videoAnswer)
                    "Boil the pasta." "https://www.tiktok.com/@chef/video/7"
                    (Some "Chef Ann") (Some "Pasta night") _ H _ eq_refl)).
  vm_compute; reflexivity.
Defined.

Lemma formatDuration_renders_witness :
  formatDuration (Some "PT2H15M30S") = "2 hours 15 min" /\
  formatDuration (Some "PT15M30S") = "15 min".
Proof.
  apply (formatDuration_renders 2 15 "30S"); split; reflexivity.
Defined.

Lemma script_block_stripped_to_content_witness :
  exists opening content closing,
    hd "" (matchScripts 0 soupPage) = opening ++ content ++ closing /\
    toLowerCase opening = SCRIPT_OPEN /\ toLowerCase closing = SCRIPT_CLOSE /\
    removeFirstNoCase SCRIPT_CLOSE
      (removeFirstNoCase SCRIPT_OPEN (hd "" (matchScripts 0 soupPage))) = content.
Proof.
  apply (script_block_stripped_to_content soupPage).
  vm_compute. left. reflexivity.
Defined.

(** An answer whose properties are not strings: the truthy ones are kept
    as they are, the falsy ones replaced by the defaults. *)
Example numbers_that_are_zero :
  map numberIsZero ["0"; "-0"; "0.0"; "0e5"; "4"; "0.5"; "-1"; "1e-3"; "1E-400"; "5e-324";
                    "2e-324"; "0.001e-321"; "10e+2"] =
    [true; true; true; true; false; false; false; false; true; false;
     true; true; false].
Proof. vm_compute. reflexivity. Qed.

Example untyped_answer_kept :
  parseOne Json.parse (quoted "{'name':[],'image_url':[],'servings':4,'notes':0}")
    = Ok (mkValue (JArray []) (JString "") (JString "") (JString "") (JString "")
            (JNumber "4") (JString "") (JString "") (JString "") (Some (JArray []))).
Proof. vm_compute; reflexivity. Qed.

Lemma valid_span_not_tried :
  Json.parse (trim twoBraceAnswer) = None /\
  twoBraceAnswer =
    "Here is the recipe: " ++ quoted "{'name':'Soup'}" ++ " (serves {4})" /\
  parseOne Json.parse (quoted "{'name':'Soup'}")
    = Ok (ofTyped (mkRecipe "Soup" "" "" "" "" "" "" "" "" None)) /\
  matchSpan "{" "}" (trim twoBraceAnswer) = Some (quoted "{'name':'Soup'} (serves {4}") /\
  parseRecipeResponse Json.parse [TextBlock twoBraceAnswer] = Throw SyntaxError.
Proof. repeat split; vm_compute; reflexivity. Qed.

End Claude.

(** ** src/services/video-downloader.ts *)

Module VideoDownloader.

Import Claude.

Inductive VideoPlatform : Type := PTiktok | PInstagram | PUnknown.

Record VideoDownloadResult : Type := mkVideo {
  platform : VideoPlatform;
  videoUrl : string;
  title : option string;
  caption : option string;
  author : option string;
  thumbnail : option string
}.

Definition detectPlatform (url : string) : VideoPlatform :=
  let lowerUrl := toLowerCase url in
  if includes lowerUrl "tiktok.com" || includes lowerUrl "vm.tiktok.com" then PTiktok
  else if includes lowerUrl "instagram.com" then PInstagram
  else PUnknown.

Definition isVideoUrl (url : string) : bool :=
  match detectPlatform url with
  | PUnknown => false
  | _ => true
  end.

(** The [data] member of the two services' answers, at its declared type:
    every property is a string or is absent ([author?.nickname] and
    [owner?.username] are read through). *)
Record TikTokData : Type := mkTikTok {
  play : option string;
  wmplay : option string;
  tt_title : option string;
  desc : option string;
  nickname : option string;
  cover : option string
}.

Record InstagramData : Type := mkInstagram {
  video_url : option string;
  thumbnail_url : option string;
  ig_caption : option string;
  username : option string
}.

(** A request: the address, the key and the host header. *)
Record Request : Type := mkRequest {
  req_url : string;
  req_key : string;
  req_host : string
}.

(** A response: [ok], [status], and the body as text. *)
Record ApiResponse : Type := mkApiResponse {
  api_ok : bool;
  api_status : N;
  api_text : string
}.

Definition TIKTOK_HOST : string := "tiktok-download-video-no-watermark.p.rapidapi.com".
Definition INSTAGRAM_HOST : string := "instagram-reels-downloader2.p.rapidapi.com".

(** [!v] on a string that may be undefined. *)
Definition falsy (v : option string) : bool :=
  match v with
  | Some s => negb (nonEmpty s)
  | None => true
  end.

(** [a || b] where both may be undefined. *)
Definition orOption (a b : option string) : option string :=
  if falsy a then b else a.

(** The platform the email parser names, as this module names it. *)
Definition ofParser (p : EmailParser.Platform) : VideoPlatform :=
  match p with
  | EmailParser.Tiktok => PTiktok
  | EmailParser.Instagram => PInstagram
  end.

(** Sample services: one answer for every request. *)
Definition replies (r : ApiResponse) : Request -> result ApiResponse := fun _ => Ok r.

Definition tiktokClip : TikTokData :=
  mkTikTok None (Some "https://cdn.example/wm.mp4") (Some "Pasta night") (Some "")
    (Some "Chef Ann") None.

Definition reel : InstagramData :=
  mkInstagram (Some "https://cdn.example/reel.mp4") None
    (Some "Ten minute pasta: boil, toss, serve.") (Some "chef.ann").

Section Api.

(** [encodeURIComponent] *)
Variable encodeURIComponent : string -> string.

(** [fetch(url, { method: 'GET', headers })] *)
Variable fetch : Request -> result ApiResponse.

(** [response.json()], read at the declared type: the [data] member, which
    may be absent.  It throws when the body is not JSON or is [null]. *)
Variable tiktokJson : string -> result (option TikTokData).
Variable instagramJson : string -> result (option InstagramData).

Definition downloadTikTokVideo (url apiKey : string) : result VideoDownloadResult :=
  match fetch (mkRequest
                 ("https://tiktok-download-video-no-watermark.p.rapidapi.com/tiktok/info?url="
                    ++ encodeURIComponent url)
                 apiKey TIKTOK_HOST) with
  | Throw e => Throw e
  | Ok response =>
      if negb (api_ok response) then
        Throw (Error ("TikTok API error: " ++ numberText (api_status response)
                        ++ " - " ++ api_text response))
      else
        match tiktokJson (api_text response) with
        | Throw e => Throw e
        | Ok data =>
            let field (f : TikTokData -> option string) : option string :=
              match data with
              | Some d => f d
              | None => None
              end in
            if falsy (field play) && falsy (field wmplay) then
              Throw (Error "No video URL found in TikTok response")
            else
              Ok (mkVideo PTiktok
                    (orElse (field play) (orElse (field wmplay) ""))
                    (field tt_title)
                    (orOption (field desc) (field tt_title))
                    (field nickname)
                    (field cover))
        end
  end.

Definition downloadInstagramVideo (url apiKey : string) : result VideoDownloadResult :=
  match fetch (mkRequest
                 ("https://instagram-reels-downloader2.p.rapidapi.com/download-reels?url="
                    ++ encodeURIComponent url)
                 apiKey INSTAGRAM_HOST) with
  | Throw e => Throw e
  | Ok response =>
      if negb (api_ok response) then
        Throw (Error ("Instagram API error: " ++ numberText (api_status response)
                        ++ " - " ++ api_text response))
      else
        match instagramJson (api_text response) with
        | Throw e => Throw e
        | Ok data =>
            match data with
            | Some d =>
                match video_url d with
                | Some v =>
                    if nonEmpty v then
                      Ok (mkVideo PInstagram v
                            (option_map (take 100) (ig_caption d))
                            (ig_caption d) (username d) (thumbnail_url d))
                    else Throw (Error "No video URL found in Instagram response")
                | None => Throw (Error "No video URL found in Instagram response")
                end
            | None => Throw (Error "No video URL found in Instagram response")
            end
        end
  end.

Definition downloadVideo (url apiKey : string) : result VideoDownloadResult :=
  match detectPlatform url with
  | PTiktok => downloadTikTokVideo url apiKey
  | PInstagram => downloadInstagramVideo url apiKey
  | PUnknown => Throw (Error ("Unsupported video platform: " ++ url))
  end.

(** [fetch(videoUrl, { headers })]: [ok], [status] and the bytes. *)
Variable fetchContent : string -> result (bool * N * string).

Definition fetchVideoContent (videoUrl : string) : result string :=
  match fetchContent videoUrl with
  | Throw e => Throw e
  | Ok (true, _, bytes) => Ok bytes
  | Ok (false, status, _) =>
      Throw (Error ("Failed to fetch video: " ++ numberText status))
  end.

(** *** Facts *)

Lemma startsWith_prefix (p q s : string) :
  startsWith s (p ++ q) = true -> startsWith s p = true.
Proof.
  revert s; induction p as [|a p IH]; intros s H; [now destruct s|].
  destruct s as [|b s]; [discriminate|]. simpl in *.
  destruct (Ascii.eqb a b); [now apply IH | discriminate].
Qed.

Lemma includes_prefix (p q s : string) :
  includes s (p ++ q) = true -> includes s p = true.
Proof.
  induction s as [|c s IH]; intros H.
  - change (includes "" (p ++ q)) with (startsWith "" (p ++ q) || false) in H.
    rewrite orb_false_r in H. apply startsWith_prefix in H.
    change (includes "" p) with (startsWith "" p || false). now rewrite H.
  - change (includes (String c s) (p ++ q))
      with (startsWith (String c s) (p ++ q) || includes s (p ++ q)) in H.
    change (includes (String c s) p) with (startsWith (String c s) p || includes s p).
    apply orb_true_iff in H as [H|H].
    + apply startsWith_prefix in H. now rewrite H.
    + rewrite (IH H). apply orb_true_r.
Qed.

(** Every link the email parser files as a video is one the downloader
    takes, and for the same platform: [downloadVideo] hands it to that
    platform's downloader. *)
Theorem parser_videos_are_downloadable
  (url apiKey : string) (p : EmailParser.Platform) :
  EmailParser.detectVideoPlatform url = Some p ->
  detectPlatform url = ofParser p /\
  isVideoUrl url = true /\
  downloadVideo url apiKey =
    match p with
    | EmailParser.Tiktok => downloadTikTokVideo url apiKey
    | EmailParser.Instagram => downloadInstagramVideo url apiKey
    end.
Proof.
  intros H.
  assert (Hd : detectPlatform url = ofParser p).
  { unfold EmailParser.detectVideoPlatform in H. unfold detectPlatform.
    destruct (includes (toLowerCase url) "tiktok.com"
              || includes (toLowerCase url) "vm.tiktok.com").
    - now injection H as <-.
    - destruct (includes (toLowerCase url) "instagram.com/reel/"
                || includes (toLowerCase url) "instagram.com/p/"
                || includes (toLowerCase url) "instagram.com/tv/") eqn:Hi;
        [|discriminate].
      injection H as <-.
      assert (Hin : includes (toLowerCase url) "instagram.com" = true).
      { apply orb_true_iff in Hi as [Hi|Hi]; [apply orb_true_iff in Hi as [Hi|Hi]|].
        - now apply (includes_prefix "instagram.com" "/reel/").
        - now apply (includes_prefix "instagram.com" "/p/").
        - now apply (includes_prefix "instagram.com" "/tv/"). }
      now rewrite Hin. }
  split; [exact Hd|].
  split; [unfold isVideoUrl; rewrite Hd; now destruct p|].
  unfold downloadVideo. rewrite Hd. now destruct p.
Qed.

Lemma falsy_false (v : option string) :
  falsy v = false -> exists s, v = Some s /\ s <> "".
Proof.
  destruct v as [s|]; [|discriminate]. simpl. intros H. exists s. split; [reflexivity|].
  intros ->. discriminate.
Qed.

Lemma Ok_inj {A : Type} (a b : A) : Ok a = Ok b -> a = b.
Proof. congruence. Qed.


Lemma downloadVideo_Ok (url apiKey : string) (v : VideoDownloadResult) :
  downloadVideo url apiKey = Ok v -> videoUrl v <> "" /\ isVideoUrl url = true.
Proof.
  unfold downloadVideo, isVideoUrl.
  destruct (detectPlatform url) eqn:Hd; [| |discriminate].
  - unfold downloadTikTokVideo. destruct (fetch _) as [response|e]; [|discriminate].
    destruct (negb (api_ok response)); [discriminate|].
    destruct (tiktokJson _) as [[d|]|e]; [| discriminate | discriminate].
    destruct (falsy (play d) && falsy (wmplay d)) eqn:Hf; [discriminate|].
    intros H. apply Ok_inj in H. subst v. cbn [videoUrl]. split; [|reflexivity].
    apply andb_false_iff in Hf as [Hf|Hf];
      apply falsy_false in Hf as [s [Hs Hne]]; rewrite Hs.
    + simpl. now rewrite (nonEmpty_true s Hne).
    + destruct (play d) as [[|c q]|]; simpl; try discriminate;
        now rewrite (nonEmpty_true s Hne).
  - unfold downloadInstagramVideo. destruct (fetch _) as [response|e]; [|discriminate].
    destruct (negb (api_ok response)); [discriminate|].
    destruct (instagramJson _) as [[d|]|e]; [| discriminate | discriminate].
    destruct (video_url d) as [u|]; [|discriminate].
    destruct (nonEmpty u) eqn:Hu; [|discriminate].
    intros H. apply Ok_inj in H. subst v. cbn [videoUrl]. split; [|reflexivity].
    intros ->. discriminate.
Qed.




End Api.

Lemma parser_videos_are_downloadable_witness :
  detectPlatform "https://www.instagram.com/reel/Cx1/" = PInstagram /\
  isVideoUrl "https://www.instagram.com/reel/Cx1/" = true.
Proof.
  pose proof (parser_videos_are_downloadable (fun u => u)
                (replies (mkApiResponse true 200 "{}")) (fun _ => Ok None)
                (fun _ => Ok (Some reel))
                "https://www.instagram.com/reel/Cx1/" "key" EmailParser.Instagram)
    as H.
  assert (Hp : EmailParser.detectVideoPlatform "https://www.instagram.com/reel/Cx1/"
               = Some EmailParser.Instagram) by (vm_compute; reflexivity).
  destruct (H Hp) as [H1 [H2 _]]. split; [exact H1 | exact H2].
Defined.


End VideoDownloader.

(** ** src/services/transcriber.ts *)

Module Transcriber.

Section Ai.

(** [ai.run(model, { audio })]: the [text] of the result, which may be
    absent. *)
Variable run : string -> string -> result (option string).

Definition transcribe (model audioData : string) : result string :=
  match run model audioData with
  | Throw e => Throw e
  | Ok text =>
      if VideoDownloader.falsy text then
        Throw (Error "No transcription text returned from Whisper")
      else Ok (Claude.valueOrEmpty text)
  end.

Definition transcribeAudio (audioData : string) : result string :=
  transcribe "@cf/openai/whisper" audioData.

Definition transcribeAudioLarge (audioData : string) : result string :=
  transcribe "@cf/openai/whisper-large-v3-turbo" audioData.

Lemma transcribe_nonEmpty (model audioData text : string) :
  transcribe model audioData = Ok text -> text <> "".
Proof.
  unfold transcribe. destruct (run model audioData) as [t|e]; [|discriminate].
  destruct (VideoDownloader.falsy t) eqn:Hf; [discriminate|].
  apply VideoDownloader.falsy_false in Hf as [s [-> Hne]]. now intros [= <-].
Qed.

End Ai.

End Transcriber.

(** ** src/services/paprika.ts *)

Module Paprika.

(** [s.toUpperCase()], as the client uses it: on hexadecimal digits.  The
    letters a-z become A-Z. *)
Definition toUpper (c : ascii) : ascii :=
  if between 97 122 (code c) then ascii_of_N (code c - 32) else c.

Fixpoint toUpperCase (s : string) : string :=
  match s with
  | EmptyString => EmptyString
  | String c s' => String (toUpper c) (toUpperCase s')
  end.

(** [v.toString(16)] for a natural number. *)
Definition toString16 (v : N) : string :=
  HexadecimalString.NilEmpty.string_of_uint (N.to_hex_uint v).

Definition UUID_TEMPLATE : string := "xxxxxxxx-xxxx-4xxx-yxxx-xxxxxxxxxxxx".

(** A digit of the identifiers: [0-9A-F]. *)
Definition isUpperHex (c : ascii) : bool := isDigit c || between 65 70 (code c).

(** [u] follows [template]: an upper-case hexadecimal digit for each [x],
    one of [8], [9], [A], [B] for each [y], the template's own character
    anywhere else. *)
Fixpoint follows (template u : string) : bool :=
  match template, u with
  | EmptyString, EmptyString => true
  | String t template', String c u' =>
      (if Ascii.eqb t "x" then isUpperHex c
       else if Ascii.eqb t "y" then
         Ascii.eqb c "8" || Ascii.eqb c "9" || Ascii.eqb c "A" || Ascii.eqb c "B"
       else Ascii.eqb c t)
      && follows template' u'
  | _, _ => false
  end.

(** The first [T] replaced by a space: [s.replace('T', ' ')]. *)
Fixpoint spaceForT (s : string) : string :=
  match s with
  | EmptyString => EmptyString
  | String c s' => if Ascii.eqb c "T" then String " " s' else String c (spaceForT s')
  end.

(** [s] is a dot, three digits and a [Z]. *)
Definition isMillis (s : string) : bool :=
  match s with
  | String dot (String d1 (String d2 (String d3 (String z EmptyString)))) =>
      Ascii.eqb dot "." && isDigit d1 && isDigit d2 && isDigit d3 && Ascii.eqb z "Z"
  | _ => false
  end.

(** [s.replace(/\.\d{3}Z$/, '')] *)
Fixpoint dropMillis (s : string) : string :=
  if isMillis s then EmptyString
  else
    match s with
    | EmptyString => EmptyString
    | String c s' => String c (dropMillis s')
    end.

(** [new Date().toISOString().replace('T', ' ').replace(/\.\d{3}Z$/, '')],
    from the ISO text of the date. *)
Definition timestamp (iso : string) : string := dropMillis (spaceForT iso).

(** The client's memory of its bearer token, and the number of logins it
    has made. *)
Record Client : Type := mkClient {
  bearerToken : option string;
  logins : nat
}.

(** The answer to a login: [ok], [status], the body as text, and
    [result?.token] of the body read as JSON. *)
Record LoginResponse : Type := mkLogin {
  login_ok : bool;
  login_status : N;
  login_text : string;
  login_token : result (option string)
}.

(** [PaprikaRecipe] of src/types.ts. *)
Record PaprikaRecipe : Type := mkPaprikaRecipe {
  uid : string;
  name : string;
  ingredients : string;
  directions : string;
  description : string;
  notes : string;
  nutritional_info : string;
  prep_time : string;
  cook_time : string;
  total_time : string;
  difficulty : string;
  servings : string;
  rating : N;
  source : string;
  source_url : string;
  photo : option string;
  photo_hash : option string;
  photo_large : option string;
  photo_url : option string;
  image_url : option string;
  categories : list string;
  hash : string;
  created : string;
  on_favorites : bool;
  on_grocery_list : bool;
  in_trash : bool;
  is_pinned : bool;
  scale : option string
}.

Section Client.

(** The draws [(Math.random() * 16) | 0], in the order they are made. *)
Variable random : nat -> N.

(** [template.replace(/[xy]/g, ...)], the [k]-th draw being the next one:
    the text, and the index of the draw after it. *)
Fixpoint fill (template : string) (k : nat) : string * nat :=
  match template with
  | EmptyString => (EmptyString, k)
  | String c template' =>
      if Ascii.eqb c "x" || Ascii.eqb c "y" then
        let r := random k in
        let v := if Ascii.eqb c "x" then r else N.lor (N.land r 3) 8 in
        let (rest, k') := fill template' (S k) in
        (toUpperCase (toString16 v) ++ rest, k')
      else
        let (rest, k') := fill template' k in
        (String c rest, k')
  end.

Definition generateUUID (k : nat) : string * nat := fill UUID_TEMPLATE k.

(** [Array.from({ length }, () => draw).join('')] *)
Fixpoint digits (length k : nat) : string * nat :=
  match length with
  | O => (EmptyString, k)
  | S length' =>
      let (rest, k') := digits length' (S k) in
      (toUpperCase (toString16 (random k)) ++ rest, k')
  end.

Definition generateHash (k : nat) : string * nat := digits 64 k.

(** [fetch] of the login address with the client's credentials. *)
Variable postLogin : result LoginResponse.

Definition loginV2 : result string :=
  match postLogin with
  | Throw e => Throw e
  | Ok response =>
      if negb (login_ok response) then
        Throw (Error ("Paprika V2 login failed: "
                        ++ Claude.numberText (login_status response)
                        ++ " - " ++ login_text response))
      else
        match login_token response with
        | Throw e => Throw e
        | Ok token =>
            if VideoDownloader.falsy token then
              Throw (Error "No token received from Paprika V2 login")
            else Ok (Claude.valueOrEmpty token)
        end
  end.

Definition getBearerToken (client : Client) : Client * result string :=
  if VideoDownloader.falsy (bearerToken client) then
    match loginV2 with
    | Ok token => (mkClient (Some token) (S (logins client)), Ok token)
    | Throw e => (mkClient (bearerToken client) (S (logins client)), Throw e)
    end
  else (client, Ok (Claude.valueOrEmpty (bearerToken client))).

(** The upload of a record under its identifier: the record as JSON,
    compressed, posted to the address of the identifier. *)
Variable upload : string -> PaprikaRecipe -> result VideoDownloader.ApiResponse.

(** [createRecipe], the date's ISO text and the index of the next draw
    given: the created name and the service's answer, and the index of the
    draw after. *)
Definition createRecipe (extracted : Claude.ExtractedRecipe) (iso : string) (k : nat)
  : result (string * string) * nat :=
  let (uid, k) := generateUUID k in
  let now := timestamp iso in
  let (hash, k) := generateHash k in
  let recipe :=
    {| uid := uid;
       name := Claude.name extracted;
       ingredients := Claude.ingredients extracted;
       directions := Claude.directions extracted;
       description := "";
       notes := Claude.notes extracted;
       nutritional_info := "";
       prep_time := Claude.prep_time extracted;
       cook_time := Claude.cook_time extracted;
       total_time := "";
       difficulty := "";
       servings := Claude.servings extracted;
       rating := 0;
       source := Claude.source extracted;
       source_url := orElse (Some (Claude.source_url extracted)) "";
       photo := None;
       photo_hash := None;
       photo_large := None;
       photo_url := None;
       image_url := Claude.orUndefined (Claude.image_url extracted);
       categories := [];
       hash := hash;
       created := now;
       on_favorites := false;
       on_grocery_list := false;
       in_trash := false;
       is_pinned := false;
       scale := None |} in
  match upload uid recipe with
  | Throw e => (Throw e, k)
  | Ok response =>
      if negb (VideoDownloader.api_ok response) then
        (Throw (Error ("Failed to create recipe: "
                         ++ Claude.numberText (VideoDownloader.api_status response)
                         ++ " - " ++ VideoDownloader.api_text response)),
         k)
      else (Ok (name recipe, VideoDownloader.api_text response), k)
  end.

(** *** Facts *)

Lemma hex_digit (v : N) :
  (v < 16)%N ->
  exists c, toUpperCase (toString16 v) = String c "" /\ isUpperHex c = true.
Proof.
  intros H. rewrite <- (N2Nat.id v).
  assert (Hn : (N.to_nat v < 16)%nat) by lia. revert Hn.
  generalize (N.to_nat v) as n. intros n Hn.
  do 16 (destruct n as [|n]; [eexists; split; vm_compute; reflexivity|]). lia.
Qed.

Lemma variant_digit (r : N) :
  exists c, toUpperCase (toString16 (N.lor (N.land r 3) 8)) = String c "" /\
            (Ascii.eqb c "8" || Ascii.eqb c "9" || Ascii.eqb c "A" || Ascii.eqb c "B") = true.
Proof.
  assert (H : (N.land r 3 < 4)%N).
  { change 3%N with (N.ones 2). rewrite N.land_ones. now apply N.mod_lt. }
  rewrite <- (N2Nat.id (N.land r 3)).
  assert (Hn : (N.to_nat (N.land r 3) < 4)%nat) by lia. revert Hn.
  generalize (N.to_nat (N.land r 3)) as n. intros n Hn.
  do 4 (destruct n as [|n]; [eexists; split; vm_compute; reflexivity|]). lia.
Qed.

Lemma fill_follows (template : string) :
  (forall k, (random k < 16)%N) ->
  forall k, follows template (fst (fill template k)) = true.
Proof.
  intros Hr. induction template as [|c template IH]; intros k; [reflexivity|].
  simpl fill. destruct (Ascii.eqb c "x") eqn:Hx.
  - simpl orb. cbv iota. specialize (IH (S k)).
    destruct (fill template (S k)) as [rest k'].
    destruct (hex_digit (random k) (Hr k)) as [d [-> Hd]].
    simpl. now rewrite Hx, Hd.
  - destruct (Ascii.eqb c "y") eqn:Hy.
    + simpl orb. cbv iota. specialize (IH (S k)).
      destruct (fill template (S k)) as [rest k'].
      destruct (variant_digit (random k)) as [d [-> Hd]].
      simpl. now rewrite Hx, Hy, Hd.
    + simpl orb. cbv iota. specialize (IH k).
      destruct (fill template k) as [rest k'].
      simpl. now rewrite Hx, Hy, Ascii.eqb_refl.
Qed.

Lemma follows_length (template u : string) :
  follows template u = true -> String.length u = String.length template.
Proof.
  revert u; induction template as [|t template IH]; intros [|c u] H;
    try discriminate; [reflexivity|].
  simpl in H. apply andb_prop in H as [_ H]. simpl. now rewrite (IH u H).
Qed.

(** The draws an identifier takes: one for each [x] and [y]. *)
Fixpoint draws (template : string) : nat :=
  match template with
  | EmptyString => 0
  | String c template' =>
      (if Ascii.eqb c "x" || Ascii.eqb c "y" then 1 else 0) + draws template'
  end.

Lemma fill_count (template : string) :
  forall k, snd (fill template k) = (k + draws template)%nat.
Proof.
  induction template as [|c template IH]; intros k; simpl; [lia|].
  destruct (Ascii.eqb c "x" || Ascii.eqb c "y").
  - specialize (IH (S k)). destruct (fill template (S k)) as [rest k'].
    simpl in *. lia.
  - specialize (IH k). destruct (fill template k) as [rest k'].
    simpl in *. lia.
Qed.

Lemma digits_hex (length : nat) :
  (forall k, (random k < 16)%N) ->
  forall k, String.length (fst (digits length k)) = length /\
            allOf isUpperHex (fst (digits length k)) = true /\
            snd (digits length k) = (k + length)%nat.
Proof.
  intros Hr. induction length as [|n IH]; intros k; simpl.
  - repeat split. lia.
  - destruct (IH (S k)) as [Hl [Ha Hs]].
    destruct (digits n (S k)) as [rest k'].
    destruct (hex_digit (random k) (Hr k)) as [d [-> Hd]].
    simpl in *. rewrite Hl, Hd, Ha. repeat split. lia.
Qed.

(** Each identifier the client generates is a version-4 UUID in capitals:
    thirty-six characters, hyphens after the eighth, thirteenth, eighteenth
    and twenty-third, a [4] after the second hyphen, one of [8], [9], [A],
    [B] after the third, and digits [0-9A-F] elsewhere.  Each hash is
    sixty-four digits [0-9A-F]. *)
Theorem identifiers_are_well_formed (k : nat) :
  (forall i, (random i < 16)%N) ->
  follows UUID_TEMPLATE (fst (generateUUID k)) = true /\
  String.length (fst (generateUUID k)) = 36 /\
  String.length (fst (generateHash k)) = 64 /\
  allOf isUpperHex (fst (generateHash k)) = true.
Proof.
  intros Hr. pose proof (fill_follows UUID_TEMPLATE Hr k) as Hf.
  split; [exact Hf|]. split; [exact (follows_length _ _ Hf)|].
  destruct (digits_hex 64 Hr k) as [Hl [Ha _]]. now split.
Qed.

Lemma isMillis_length (s : string) : isMillis s = true -> String.length s = 5.
Proof.
  destruct s as [|a [|b [|c [|d [|e [|f s]]]]]]; simpl; try discriminate; reflexivity.
Qed.

Lemma dropMillis_unfold (s : string) :
  dropMillis s =
    if isMillis s then EmptyString
    else match s with
         | EmptyString => EmptyString
         | String c s' => String c (dropMillis s')
         end.
Proof. now destruct s. Qed.

Lemma dropMillis_suffix (a suffix : string) :
  isMillis suffix = true -> dropMillis (a ++ suffix) = a.
Proof.
  intros Hs. induction a as [|c a IH].
  - simpl append. rewrite dropMillis_unfold. now rewrite Hs.
  - change (String c a ++ suffix) with (String c (a ++ suffix)).
    rewrite dropMillis_unfold.
    destruct (isMillis (String c (a ++ suffix))) eqn:Hm.
    + apply isMillis_length in Hm. apply isMillis_length in Hs.
      simpl in Hm. rewrite length_append in Hm. lia.
    + now rewrite IH.
Qed.

Lemma spaceForT_first (date rest : string) :
  allOf (fun c => negb (Ascii.eqb c "T")) date = true ->
  spaceForT (date ++ String "T" rest) = date ++ String " " rest.
Proof.
  induction date as [|c date IH]; intros H; [reflexivity|].
  simpl in H. apply andb_prop in H as [Hc H]. apply negb_true_iff in Hc.
  simpl. now rewrite Hc, IH.
Qed.

(** The creation time sent to the service is the date and the time of day
    of the ISO text, a space between them, without the milliseconds and the
    zone letter. *)
Theorem timestamp_is_date_and_time (date time ms : string) :
  allOf (fun c => negb (Ascii.eqb c "T")) date = true ->
  String.length ms = 3 -> allOf isDigit ms = true ->
  timestamp (date ++ "T" ++ time ++ "." ++ ms ++ "Z") = date ++ " " ++ time.
Proof.
  intros Hd Hl Hm. unfold timestamp.
  change (date ++ "T" ++ time ++ "." ++ ms ++ "Z")
    with (date ++ String "T" (time ++ "." ++ ms ++ "Z")).
  rewrite (spaceForT_first date _ Hd).
  replace (date ++ String " " (time ++ "." ++ ms ++ "Z"))
    with ((date ++ " " ++ time) ++ ("." ++ ms ++ "Z"))
    by (now rewrite !append_assoc).
  apply dropMillis_suffix.
  destruct ms as [|a [|b [|c [|d ms]]]]; try discriminate.
  simpl in Hm. apply andb_prop in Hm as [Ha Hm]. apply andb_prop in Hm as [Hb Hm].
  apply andb_prop in Hm as [Hc _]. simpl. now rewrite Ha, Hb, Hc.
Qed.

(** Once a call has returned a token, the client keeps it: the token is not
    empty, and every later call returns the same token without logging in
    again. *)
Theorem bearer_token_is_kept (client client' : Client) (token : string) :
  getBearerToken client = (client', Ok token) ->
  token <> "" /\
  getBearerToken client' = (client', Ok token) /\
  (logins client' <= S (logins client))%nat.
Proof.
  unfold getBearerToken.
  destruct (VideoDownloader.falsy (bearerToken client)) eqn:Hf.
  - destruct loginV2 as [t|e] eqn:Hl; [|discriminate].
    intros [= <- <-]. simpl.
    assert (Ht : t <> "").
    { unfold loginV2 in Hl. destruct postLogin as [response|e]; [|discriminate].
      destruct (negb (login_ok response)); [discriminate|].
      destruct (login_token response) as [tok|e]; [|discriminate].
      destruct (VideoDownloader.falsy tok) eqn:Hk; [discriminate|].
      apply VideoDownloader.falsy_false in Hk as [s [-> Hne]].
      now injection Hl as <-. }
    split; [exact Ht|]. split; [|lia].
    now rewrite (Claude.nonEmpty_true t Ht).
  - intros [= <- <-]. rewrite Hf.
    apply VideoDownloader.falsy_false in Hf as [s [Hs Hne]]. rewrite Hs. simpl.
    split; [exact Hne|]. split; [reflexivity | lia].
Qed.

(** A record that [createRecipe] reports as created was uploaded under a
    well-formed identifier, and it is the extracted record: the name that is
    reported and every extracted field are the extraction's own, none
    dropped or swapped; the image address is absent rather than empty, the
    record is not in the trash, and its creation time is the formatted
    date. *)
Theorem created_recipe_is_the_extracted_one
  (extracted : Claude.ExtractedRecipe) (iso : string) (k : nat)
  (recipeName paprikaResponse : string) :
  (forall i, (random i < 16)%N) ->
  fst (createRecipe extracted iso k) = Ok (recipeName, paprikaResponse) ->
  recipeName = Claude.name extracted /\
  snd (createRecipe extracted iso k) = (k + 31 + 64)%nat /\
  exists recipe response,
    upload (uid recipe) recipe = Ok response /\
    VideoDownloader.api_ok response = true /\
    paprikaResponse = VideoDownloader.api_text response /\
    follows UUID_TEMPLATE (uid recipe) = true /\
    String.length (hash recipe) = 64 /\ allOf isUpperHex (hash recipe) = true /\
    name recipe = Claude.name extracted /\
    ingredients recipe = Claude.ingredients extracted /\
    directions recipe = Claude.directions extracted /\
    notes recipe = Claude.notes extracted /\
    prep_time recipe = Claude.prep_time extracted /\
    cook_time recipe = Claude.cook_time extracted /\
    servings recipe = Claude.servings extracted /\
    source recipe = Claude.source extracted /\
    source_url recipe = Claude.source_url extracted /\
    image_url recipe = Claude.orUndefined (Claude.image_url extracted) /\
    image_url recipe <> Some "" /\
    in_trash recipe = false /\
    created recipe = timestamp iso.
Proof.
  intros Hr. unfold createRecipe, generateUUID, generateHash.
  pose proof (fill_follows UUID_TEMPLATE Hr k) as Hu.
  pose proof (fill_count UUID_TEMPLATE k) as Hk.
  destruct (fill UUID_TEMPLATE k) as [u k1]. simpl in Hu, Hk.
  destruct (digits_hex 64 Hr k1) as [Hl [Ha Hs]].
  destruct (digits 64 k1) as [h k2]. simpl in Hl, Ha, Hs.
  match goal with
  | |- context [upload u ?r] => set (recipe := r)
  end.
  destruct (upload u recipe) as [response|e] eqn:Hup; [|discriminate].
  destruct (VideoDownloader.api_ok response) eqn:Hok; [|discriminate].
  simpl. intros [= <- <-].
  split; [reflexivity|]. split; [lia|].
  exists recipe, response. subst recipe. simpl.
  repeat (split; [first [ assumption | reflexivity ]|]).
  split; [now destruct (Claude.source_url extracted)|].
  split; [reflexivity|].
  split; [destruct (Claude.image_url extracted) as [[|c i]|]; discriminate|].
  split; reflexivity.
Qed.

End Client.

Lemma identifiers_are_well_formed_witness :
  fst (generateUUID (fun i => N.of_nat (i mod 16)) 0)
    = "01234567-89AB-4CDE-B012-3456789ABCDE" /\
  follows UUID_TEMPLATE (fst (generateUUID (fun i => N.of_nat (i mod 16)) 0)) = true.
Proof.
  split; [vm_compute; reflexivity|].
  refine (proj1 (identifiers_are_well_formed (fun i => N.of_nat (i mod 16)) 0 _)).
  intros i. pose proof (Nat.mod_upper_bound i 16). lia.
Defined.

Lemma timestamp_is_date_and_time_witness :
  timestamp "2024-05-01T12:34:56.789Z" = "2024-05-01 12:34:56".
Proof.
  apply (timestamp_is_date_and_time "2024-05-01" "12:34:56" "789"); reflexivity.
Defined.

Lemma bearer_token_is_kept_witness :
  getBearerToken (Ok (mkLogin true 200 "{}" (Ok (Some "t0k3n")))) (mkClient None 0)
    = (mkClient (Some "t0k3n") 1, Ok "t0k3n") /\
  getBearerToken (Ok (mkLogin true 200 "{}" (Ok (Some "t0k3n")))) (mkClient (Some "t0k3n") 1)
    = (mkClient (Some "t0k3n") 1, Ok "t0k3n").
Proof.
  split; [reflexivity|].
  exact (proj1 (proj2 (bearer_token_is_kept
                         (Ok (mkLogin true 200 "{}" (Ok (Some "t0k3n"))))
                         (mkClient None 0) (mkClient (Some "t0k3n") 1) "t0k3n" eq_refl))).
Defined.

Lemma created_recipe_is_the_extracted_one_witness :
  fst (createRecipe (fun i => N.of_nat (i mod 16))
         (fun _ _ => Ok (VideoDownloader.mkApiResponse true 200 "{}"))
         Claude.soupFromSchema "2024-05-01T12:34:56.789Z" 0)
    = Ok ("Soup", "{}") /\
  "Soup" = Claude.name Claude.soupFromSchema.
Proof.
  assert (H : fst (createRecipe (fun i => N.of_nat (i mod 16))
                     (fun _ _ => Ok (VideoDownloader.mkApiResponse true 200 "{}"))
                     Claude.soupFromSchema "2024-05-01T12:34:56.789Z" 0)
              = Ok ("Soup", "{}")) by (vm_compute; reflexivity).
  split; [exact H|].
  refine (proj1 (created_recipe_is_the_extracted_one (fun i => N.of_nat (i mod 16))
                   (fun _ _ => Ok (VideoDownloader.mkApiResponse true 200 "{}"))
                   Claude.soupFromSchema "2024-05-01T12:34:56.789Z" 0 "Soup" "{}" _ H)).
  intros i. pose proof (Nat.mod_upper_bound i 16). lia.
Defined.

End Paprika.

(** ** src/index.ts: the email handler *)

Module Worker.

Import Claude.

(** [ProcessingResult] of src/types.ts. *)
Record ProcessingResult : Type := mkResult {
  success : bool;
  recipeName : option string;
  error : option string
}.

(** What the handler accumulates: the [results] collector, and the recipes
    for which the sink's [createRecipe] was called, in order. *)
Record State : Type := mkState {
  results : list ProcessingResult;
  created : list ExtractedRecipe
}.

(** [array.push(x)] *)
Definition push {A : Type} (l : list A) (x : A) : list A := (l ++ [x])%list.

Definition isSentinel (recipe : ExtractedRecipe) : bool :=
  String.eqb (name recipe) "UNREADABLE" || String.eqb (name recipe) "NO_RECIPE".

(** A declined extraction, and a sink that accepts everything. *)
Definition declined : ExtractedRecipe :=
  mkRecipe "NO_RECIPE" "" "" "" "" "" "" "https://blog.example/about" 
    "The page is an author biography." None.

Definition accepting : ExtractedRecipe -> result string := fun r => Ok (name r).

(** Two extracted records, and a sink that is busy when asked for one
    title. *)
Definition soup : ExtractedRecipe :=
  mkRecipe "Soup" "water" "1. Boil" "" "" "" "" "" "" None.

Definition stew : ExtractedRecipe :=
  mkRecipe "Stew" "beef" "1. Simmer" "" "" "" "" "" "" None.

Definition refusing (title : string) : ExtractedRecipe -> result string :=
  fun r =>
    if String.eqb (name r) title then Throw (Error "Failed to create recipe: 500 - busy")
    else Ok (name r).

Definition plainMessage : exn -> string := fun _ => "error".

(** A message with one document, and services that read three records from
    a document and nothing else. *)
Definition menuMail : EmailParser.ParsedEmailContent :=
  EmailParser.mkParsed []
    [ EmailParser.mkItem EmailParser.TPdf (EmailParser.Buffer "%PDF")
        (Some "application/pdf") (Some "menu.pdf") None ]
    [] [].

Definition noRecipe {A : Type} : A -> result ExtractedRecipe :=
  fun _ => Throw (Error "no answer").

Definition threeRecords : EmailParser.ContentItem -> result (list ExtractedRecipe) :=
  fun _ => Ok [stew; declined; soup].

Section Handler.

(** [paprika.createRecipe(recipe)]: the created name, or an exception. *)
Variable createRecipe : ExtractedRecipe -> result string.

Definition saveRecipe (recipe : ExtractedRecipe) (sourceDesc : string) (st : State)
  : State * result unit :=
  if isSentinel recipe then
    (mkState
       (push (results st)
          (mkResult false None
             (Some ("Could not extract recipe from " ++ sourceDesc ++ ": "
                      ++ notes recipe))))
       (created st),
     Ok tt)
  else
    match createRecipe recipe with
    | Throw e => (mkState (results st) (push (created st) recipe), Throw e)
    | Ok recipeName =>
        (mkState (push (results st) (mkResult true (Some recipeName) None))
           (push (created st) recipe),
         Ok tt)
    end.

(** [for (const recipe of recipes) await saveRecipe(recipe, sourceDesc)]:
    the first exception ends the loop. *)
Fixpoint saveAll (recipes : list ExtractedRecipe) (sourceDesc : string) (st : State)
  : State * result unit :=
  match recipes with
  | [] => (st, Ok tt)
  | recipe :: rest =>
      match saveRecipe recipe sourceDesc st with
      | (st', Ok _) => saveAll rest sourceDesc st'
      | (st', Throw e) => (st', Throw e)
      end
  end.

(** [error instanceof Error ? error.message : String(error)]; the platform
    words the messages of its own errors. *)
Variable platformMessage : exn -> string.

Definition errorMessage (e : exn) : string :=
  match e with
  | Error msg => msg
  | _ => platformMessage e
  end.

(** The extraction chains of the four kinds of content, each with the
    services behind it. *)
Variable extractFromMultipleImages : list EmailParser.ContentItem -> result ExtractedRecipe.
Variable extractFromPDF : EmailParser.ContentItem -> result (list ExtractedRecipe).
Variable extractFromURL : string -> result ExtractedRecipe.
Variable extractFromVideo : EmailParser.ContentItem -> result ExtractedRecipe.

(** [results.push({ success: false, error: errorMessage })] *)
Definition recordFailure (st : State) (e : exn) : State :=
  mkState (push (results st) (mkResult false None (Some (errorMessage e))))
    (created st).

(** One item: [try { extract; saveRecipe each } catch { record }]. *)
Definition processItem (extracted : result (list ExtractedRecipe))
  (sourceDesc : string) (st : State) : State :=
  match extracted with
  | Throw e => recordFailure st e
  | Ok recipes =>
      match saveAll recipes sourceDesc st with
      | (st', Ok _) => st'
      | (st', Throw e) => recordFailure st' e
      end
  end.

Definition single (r : result ExtractedRecipe) : result (list ExtractedRecipe) :=
  match r with
  | Ok recipe => Ok [recipe]
  | Throw e => Throw e
  end.

Definition textOf (item : EmailParser.ContentItem) : string :=
  match EmailParser.data item with
  | EmailParser.Text s => s
  | EmailParser.Buffer _ => ""
  end.

Definition platformName (item : EmailParser.ContentItem) : string :=
  match EmailParser.platform item with
  | Some EmailParser.Tiktok => "tiktok"
  | Some EmailParser.Instagram => "instagram"
  | None => "unknown"
  end.

(** The email handler, from the parsed content on: the images as one
    recipe, then each PDF, each URL and each video. *)
Definition email (content : EmailParser.ParsedEmailContent) : State :=
  let images := EmailParser.images content in
  let st :=
    match images with
    | [] => mkState [] []
    | _ =>
        processItem (single (extractFromMultipleImages images))
          (numberText (N.of_nat (List.length images)) ++ " image(s)")
          (mkState [] [])
    end in
  let st :=
    fold_left
      (fun st pdf =>
         processItem (extractFromPDF pdf) (orElse (EmailParser.filename pdf) "PDF") st)
      (EmailParser.pdfs content) st in
  let st :=
    fold_left
      (fun st item => processItem (single (extractFromURL (textOf item))) (textOf item) st)
      (EmailParser.urls content) st in
  fold_left
    (fun st item =>
       processItem (single (extractFromVideo item)) (platformName item ++ " video") st)
    (EmailParser.videos content) st.

(** [clean st]: no record handed to the sink so far is a sentinel. *)
Definition clean (st : State) : Prop :=
  Forall (fun r => isSentinel r = false) (created st).

(** *** Facts *)

Lemma isSentinel_true (recipe : ExtractedRecipe) :
  isSentinel recipe = true <->
  name recipe = "UNREADABLE" \/ name recipe = "NO_RECIPE".
Proof.
  unfold isSentinel. rewrite orb_true_iff, !String.eqb_eq. tauto.
Qed.

Lemma isSentinel_false (recipe : ExtractedRecipe) :
  isSentinel recipe = false <->
  name recipe <> "UNREADABLE" /\ name recipe <> "NO_RECIPE".
Proof.
  unfold isSentinel. rewrite orb_false_iff, !String.eqb_neq. tauto.
Qed.

(** One call of [saveRecipe]: for a record named [UNREADABLE] or
    [NO_RECIPE] it records a failure whose message ends with the record's
    notes and does not call the sink's [createRecipe]; for a record with any
    other name it calls [createRecipe] on that record. *)
Lemma saveRecipe_settles_one_record
  (recipe : ExtractedRecipe) (sourceDesc : string) (st : State) :
  (name recipe = "UNREADABLE" \/ name recipe = "NO_RECIPE" ->
     saveRecipe recipe sourceDesc st =
       (mkState
          (push (results st)
             (mkResult false None
                (Some ("Could not extract recipe from " ++ sourceDesc ++ ": "
                         ++ notes recipe))))
          (created st),
        Ok tt)) /\
  (name recipe <> "UNREADABLE" -> name recipe <> "NO_RECIPE" ->
     created (fst (saveRecipe recipe sourceDesc st)) = push (created st) recipe).
Proof.
  split.
  - intros H. apply isSentinel_true in H. unfold saveRecipe. now rewrite H.
  - intros H1 H2. unfold saveRecipe.
    rewrite (proj2 (isSentinel_false recipe) (conj H1 H2)).
    now destruct (createRecipe recipe).
Qed.

(** Over a whole list of records, and over the whole handler, the sink only
    ever receives records that are not sentinels. *)
Lemma saveAll_clean (recipes : list ExtractedRecipe) (sourceDesc : string) :
  forall st, clean st -> clean (fst (saveAll recipes sourceDesc st)).
Proof.
  unfold clean.
  induction recipes as [|recipe rest IH]; intros st Hst; simpl; [assumption|].
  unfold saveRecipe. destruct (isSentinel recipe) eqn:Hs.
  - apply IH. assumption.
  - destruct (createRecipe recipe) as [created_name|e]; simpl.
    + apply IH. simpl. apply Forall_app. split; [assumption|]. now constructor.
    + unfold push. apply Forall_app. split; [assumption|]. now constructor.
Qed.

Lemma processItem_clean (extracted : result (list ExtractedRecipe))
  (sourceDesc : string) (st : State) :
  clean st -> clean (processItem extracted sourceDesc st).
Proof.
  intros Hst. unfold processItem. destruct extracted as [recipes|e]; [|exact Hst].
  pose proof (saveAll_clean recipes sourceDesc st Hst) as H.
  destruct (saveAll recipes sourceDesc st) as [st' [u|e]]; exact H.
Qed.

Lemma fold_clean {A : Type} (step : State -> A -> State) (items : list A) :
  (forall st a, clean st -> clean (step st a)) ->
  forall st, clean st -> clean (fold_left step items st).
Proof.
  intros Hstep. induction items as [|a items IH]; intros st Hst; simpl;
    [assumption | apply IH, Hstep, Hst].
Qed.

Lemma email_clean (content : EmailParser.ParsedEmailContent) : clean (email content).
Proof.
  unfold email.
  repeat (apply fold_clean; [intros; now apply processItem_clean|]).
  destruct (EmailParser.images content); [constructor|].
  apply processItem_clean. constructor.
Qed.

(** *** The whole handler *)

(** Records the sink takes, or that never reach it. *)
Definition handled (recipe : ExtractedRecipe) : Prop :=
  isSentinel recipe = true \/ exists recipeName, createRecipe recipe = Ok recipeName.

Definition notSentinel (recipe : ExtractedRecipe) : bool := negb (isSentinel recipe).

Lemma saveRecipe_handled (recipe : ExtractedRecipe) (sourceDesc : string) (st : State) :
  handled recipe ->
  exists st',
    saveRecipe recipe sourceDesc st = (st', Ok tt) /\
    List.length (results st') = S (List.length (results st)) /\
    created st' = (created st ++ filter notSentinel [recipe])%list.
Proof.
  intros H. unfold saveRecipe, notSentinel. simpl filter.
  destruct (isSentinel recipe) eqn:Hs; simpl.
  - eexists. split; [reflexivity|]. simpl. unfold push.
    rewrite length_app, app_nil_r. simpl. split; [lia | reflexivity].
  - destruct H as [H|[n H]]; [congruence|]. rewrite H.
    eexists. split; [reflexivity|]. simpl. unfold push.
    rewrite length_app. simpl. split; [lia | reflexivity].
Qed.

Lemma saveAll_handled (recipes : list ExtractedRecipe) (sourceDesc : string) :
  Forall handled recipes ->
  forall st, exists st',
    saveAll recipes sourceDesc st = (st', Ok tt) /\
    List.length (results st') = List.length (results st) + List.length recipes /\
    created st' = (created st ++ filter notSentinel recipes)%list.
Proof.
  induction 1 as [|recipe rest Hr _ IH]; intros st.
  - exists st. simpl. rewrite app_nil_r. split; [reflexivity|]. split; [lia | reflexivity].
  - destruct (saveRecipe_handled recipe sourceDesc st Hr) as [st1 [E1 [L1 C1]]].
    destruct (IH st1) as [st2 [E2 [L2 C2]]].
    exists st2. simpl saveAll. rewrite E1. split; [exact E2|].
    split; [simpl; lia|].
    rewrite C2, C1. change (recipe :: rest) with ([recipe] ++ rest)%list.
    now rewrite filter_app, app_assoc.
Qed.

Lemma saveAll_app (a b : list ExtractedRecipe) (sourceDesc : string) :
  forall st,
    saveAll (a ++ b) sourceDesc st =
      match saveAll a sourceDesc st with
      | (st', Ok _) => saveAll b sourceDesc st'
      | (st', Throw e) => (st', Throw e)
      end.
Proof.
  induction a as [|recipe a IH]; intros st; [reflexivity|].
  simpl. destruct (saveRecipe recipe sourceDesc st) as [st' [u|e]];
    [apply IH | reflexivity].
Qed.

Lemma processItem_single (r : result ExtractedRecipe) (sourceDesc : string) (st : State) :
  List.length (results (processItem (single r) sourceDesc st))
    = S (List.length (results st)).
Proof.
  destruct r as [recipe|e]; simpl.
  - unfold saveRecipe. destruct (isSentinel recipe).
    + simpl. unfold push. rewrite length_app. simpl. lia.
    + destruct (createRecipe recipe); simpl; unfold push;
        rewrite length_app; simpl; lia.
  - unfold push. rewrite length_app. simpl. lia.
Qed.

Lemma fold_single {A : Type} (f : A -> result ExtractedRecipe) (d : A -> string)
  (items : list A) :
  forall st,
    List.length (results (fold_left (fun st item => processItem (single (f item)) (d item) st)
                            items st))
      = List.length (results st) + List.length items.
Proof.
  induction items as [|item items IH]; intros st; simpl; [lia|].
  rewrite IH, processItem_single. lia.
Qed.

(** Over a whole email, no record named [UNREADABLE] or [NO_RECIPE] is ever
    handed to the sink, whatever the extraction services return and whether
    the sink accepts or throws. *)
Theorem email_never_saves_a_sentinel (content : EmailParser.ParsedEmailContent) :
  Forall (fun recipe => name recipe <> "UNREADABLE" /\ name recipe <> "NO_RECIPE")
    (created (email content)).
Proof.
  pose proof (email_clean content) as H. unfold clean in H.
  apply Forall_forall. intros recipe Hin.
  apply isSentinel_false. revert recipe Hin. now apply Forall_forall.
Qed.

(** Every URL and every video of an email leaves exactly one outcome, a
    success or a failure, and so does the batch of its images: nothing is
    lost without a trace, whether a service or the sink throws or not. *)
Theorem email_records_one_outcome_per_item (content : EmailParser.ParsedEmailContent) :
  List.length (results (email content))
    = List.length (results (email (EmailParser.mkParsed (EmailParser.images content)
                                     (EmailParser.pdfs content) [] [])))
      + List.length (EmailParser.urls content)
      + List.length (EmailParser.videos content) /\
  List.length (results (email (EmailParser.mkParsed (EmailParser.images content) [] [] [])))
    = match EmailParser.images content with
      | [] => 0
      | _ => 1
      end.
Proof.
  split.
  - unfold email. simpl.
    rewrite (fold_single extractFromVideo (fun item => platformName item ++ " video")).
    rewrite (fold_single (fun item => extractFromURL (textOf item)) textOf).
    reflexivity.
  - unfold email. simpl. destruct (EmailParser.images content); [reflexivity|].
    now rewrite processItem_single.
Qed.

(** When the sink takes every record of a document that is not a sentinel,
    each record leaves one outcome and the sink receives the records that
    are not sentinels, in order; a document with no record leaves nothing. *)
Theorem document_records_all_saved
  (recipes : list ExtractedRecipe) (sourceDesc : string) (st : State) :
  Forall handled recipes ->
  List.length (results (processItem (Ok recipes) sourceDesc st))
    = List.length (results st) + List.length recipes /\
  created (processItem (Ok recipes) sourceDesc st)
    = (created st ++ filter notSentinel recipes)%list.
Proof.
  intros H. unfold processItem.
  destruct (saveAll_handled recipes sourceDesc H st) as [st' [-> [L C]]].
  now split.
Qed.

(** When the sink throws on a record of a document, the records after it
    are dropped: they are not handed to the sink and leave no outcome.  One
    failure, with the sink's message, stands for them all. *)
Theorem sink_failure_drops_the_rest
  (before after : list ExtractedRecipe) (recipe : ExtractedRecipe) (e : exn)
  (sourceDesc : string) (st : State) :
  Forall handled before ->
  isSentinel recipe = false -> createRecipe recipe = Throw e ->
  created (processItem (Ok (before ++ recipe :: after)%list) sourceDesc st)
    = (created st ++ filter notSentinel before ++ [recipe])%list /\
  exists outcomes,
    List.length outcomes = List.length before /\
    results (processItem (Ok (before ++ recipe :: after)%list) sourceDesc st)
      = (results st ++ outcomes ++ [mkResult false None (Some (errorMessage e))])%list.
Proof.
  intros Hb Hs He. unfold processItem. rewrite saveAll_app.
  destruct (saveAll_handled before sourceDesc Hb st) as [st' [E [L C]]].
  rewrite E. simpl saveAll. unfold saveRecipe. rewrite Hs, He. simpl.
  split.
  - unfold push. now rewrite C, app_assoc.
  - assert (Hpre : forall recipes st st',
              fst (saveAll recipes sourceDesc st) = st' ->
              exists outcomes, results st' = (results st ++ outcomes)%list).
    { clear. induction recipes as [|r rest IH]; intros st st' H; simpl in H.
      - subst st'. exists []. now rewrite app_nil_r.
      - unfold saveRecipe in H. destruct (isSentinel r).
        + destruct (IH _ _ H) as [o Ho]. simpl in Ho.
          eexists. rewrite Ho. unfold push. rewrite <- app_assoc. reflexivity.
        + destruct (createRecipe r).
          * destruct (IH _ _ H) as [o Ho]. simpl in Ho.
            eexists. rewrite Ho. unfold push. rewrite <- app_assoc. reflexivity.
          * simpl in H. subst st'. exists []. simpl. now rewrite app_nil_r. }
    destruct (Hpre before st st') as [outcomes Ho]; [now rewrite E|].
    exists outcomes. split.
    + rewrite Ho, length_app in L. lia.
    + unfold push. now rewrite Ho, <- app_assoc.
Qed.

(** *** Every record of a message

    The handler, item by item.  [items content] lists the items of a message
    in the order they are processed, each with what its extraction gave and
    the description of its source.  Of the records of an item, [reached]
    are those the handler gets to: all of them, unless the sink throws on
    one, which is then the last.  [recorded] is the outcome a reached record
    leaves. *)
Definition items (content : EmailParser.ParsedEmailContent)
  : list (result (list ExtractedRecipe) * string) :=
  app
    (match EmailParser.images content with
     | [] => []
     | _ =>
         [ (single (extractFromMultipleImages (EmailParser.images content)),
            numberText (N.of_nat (List.length (EmailParser.images content)))
              ++ " image(s)") ]
     end)
    (app
       (map (fun pdf => (extractFromPDF pdf, orElse (EmailParser.filename pdf) "PDF"))
          (EmailParser.pdfs content))
       (app
          (map (fun item => (single (extractFromURL (textOf item)), textOf item))
             (EmailParser.urls content))
          (map (fun item =>
                  (single (extractFromVideo item), platformName item ++ " video"))
             (EmailParser.videos content)))).

Fixpoint reached (recipes : list ExtractedRecipe) : list ExtractedRecipe :=
  match recipes with
  | [] => []
  | recipe :: rest =>
      if isSentinel recipe then recipe :: reached rest
      else
        match createRecipe recipe with
        | Ok _ => recipe :: reached rest
        | Throw _ => [recipe]
        end
  end.

Definition recorded (sourceDesc : string) (recipe : ExtractedRecipe) : ProcessingResult :=
  if isSentinel recipe then
    mkResult false None
      (Some ("Could not extract recipe from " ++ sourceDesc ++ ": " ++ notes recipe))
  else
    match createRecipe recipe with
    | Ok recipeName => mkResult true (Some recipeName) None
    | Throw e => mkResult false None (Some (errorMessage e))
    end.

(** What an item adds to the results, and what it hands to the sink. *)
Definition outcomes (item : result (list ExtractedRecipe) * string)
  : list ProcessingResult :=
  match fst item with
  | Throw e => [mkResult false None (Some (errorMessage e))]
  | Ok recipes => map (recorded (snd item)) (reached recipes)
  end.

Definition submitted (item : result (list ExtractedRecipe) * string)
  : list ExtractedRecipe :=
  match fst item with
  | Throw _ => []
  | Ok recipes => filter notSentinel (reached recipes)
  end.

Lemma saveAll_reached (sourceDesc : string) (recipes : list ExtractedRecipe) :
  forall st,
    created (fst (saveAll recipes sourceDesc st))
      = (created st ++ filter notSentinel (reached recipes))%list /\
    match snd (saveAll recipes sourceDesc st) with
    | Ok _ =>
        results (fst (saveAll recipes sourceDesc st))
          = (results st ++ map (recorded sourceDesc) (reached recipes))%list
    | Throw e =>
        (results (fst (saveAll recipes sourceDesc st))
           ++ [mkResult false None (Some (errorMessage e))])%list
          = (results st ++ map (recorded sourceDesc) (reached recipes))%list
    end.
Proof.
  induction recipes as [|recipe rest IH]; intros st.
  - simpl. now rewrite !app_nil_r.
  - cbn [saveAll reached]. unfold saveRecipe.
    destruct (isSentinel recipe) eqn:Hs.
    + assert (Hrec : recorded sourceDesc recipe =
                mkResult false None
                  (Some ("Could not extract recipe from " ++ sourceDesc ++ ": "
                           ++ notes recipe)))
        by (unfold recorded; now rewrite Hs).
      assert (Hn : notSentinel recipe = false) by (unfold notSentinel; now rewrite Hs).
      cbn [filter map]. rewrite Hn, Hrec.
      destruct (IH (mkState
                      (push (results st)
                         (mkResult false None
                            (Some ("Could not extract recipe from " ++ sourceDesc ++ ": "
                                     ++ notes recipe))))
                      (created st))) as [Hc Hr].
      split; [exact Hc|].
      destruct (snd (saveAll rest sourceDesc _)); rewrite Hr; cbn [results];
        unfold push; now rewrite <- app_assoc.
    + assert (Hn : notSentinel recipe = true) by (unfold notSentinel; now rewrite Hs).
      destruct (createRecipe recipe) as [recipeName|e] eqn:Hcr.
      * assert (Hrec : recorded sourceDesc recipe = mkResult true (Some recipeName) None)
          by (unfold recorded; now rewrite Hs, Hcr).
        cbn [filter map]. rewrite Hn, Hrec.
        destruct (IH (mkState (push (results st) (mkResult true (Some recipeName) None))
                        (push (created st) recipe))) as [Hc Hr].
        split; [rewrite Hc; cbn [created]; unfold push; now rewrite <- app_assoc|].
        destruct (snd (saveAll rest sourceDesc _)); rewrite Hr; cbn [results];
          unfold push; now rewrite <- app_assoc.
      * assert (Hrec : recorded sourceDesc recipe
                         = mkResult false None (Some (errorMessage e)))
          by (unfold recorded; now rewrite Hs, Hcr).
        cbn [filter map fst snd created results]. rewrite Hn, Hrec.
        split; reflexivity.
Qed.

Lemma processItem_outcomes (extracted : result (list ExtractedRecipe))
  (sourceDesc : string) (st : State) :
  processItem extracted sourceDesc st =
    mkState (results st ++ outcomes (extracted, sourceDesc))
      (created st ++ submitted (extracted, sourceDesc)).
Proof.
  unfold processItem, outcomes, submitted. cbn [fst snd].
  destruct extracted as [recipes|e].
  - destruct (saveAll_reached sourceDesc recipes st) as [Hc Hr].
    destruct (saveAll recipes sourceDesc st) as [[res cre] [u|e]]; simpl in *.
    + now rewrite Hc, Hr.
    + unfold recordFailure, push. simpl. now rewrite Hc, Hr.
  - unfold recordFailure, push. now rewrite app_nil_r.
Qed.

Lemma fold_outcomes (its : list (result (list ExtractedRecipe) * string)) :
  forall st,
    fold_left (fun st item => processItem (fst item) (snd item) st) its st =
      mkState (results st ++ flat_map outcomes its) (created st ++ flat_map submitted its).
Proof.
  induction its as [|[extracted sourceDesc] its IH]; intros st.
  - simpl. rewrite !app_nil_r. now destruct st.
  - simpl fold_left. rewrite IH, processItem_outcomes. simpl.
    now rewrite <- !app_assoc.
Qed.

Lemma fold_left_mapped {A B C : Type} (f : A -> C -> A) (g : B -> C) (l : list B) :
  forall a, fold_left f (map g l) a = fold_left (fun a x => f a (g x)) l a.
Proof. induction l as [|x l IH]; intros a; simpl; [reflexivity | apply IH]. Qed.

Lemma email_items (content : EmailParser.ParsedEmailContent) :
  email content =
    fold_left (fun st item => processItem (fst item) (snd item) st) (items content)
      (mkState [] []).
Proof.
  unfold email, items. rewrite !fold_left_app, !fold_left_mapped. cbn [fst snd].
  now destruct (EmailParser.images content).
Qed.

Lemma reached_prefix (recipes : list ExtractedRecipe) :
  exists rest, recipes = (reached recipes ++ rest)%list /\
    (rest <> [] ->
     exists before recipe e,
       reached recipes = (before ++ [recipe])%list /\
       isSentinel recipe = false /\ createRecipe recipe = Throw e).
Proof.
  induction recipes as [|recipe rest [tail [IH Hlast]]]; simpl.
  - exists []. split; [reflexivity|]. intros H. now contradiction H.
  - destruct (isSentinel recipe) eqn:Hs.
    + exists tail. split; [simpl; now rewrite <- IH|].
      intros Ht. destruct (Hlast Ht) as [before [r [e [Hb He]]]].
      exists (recipe :: before), r, e. now rewrite Hb.
    + destruct (createRecipe recipe) as [recipeName|e] eqn:Hc.
      * exists tail. split; [simpl; now rewrite <- IH|].
        intros Ht. destruct (Hlast Ht) as [before [r [e [Hb He]]]].
        exists (recipe :: before), r, e. now rewrite Hb.
      * exists rest. split; [reflexivity|]. intros _.
        now exists [], recipe, e.
Qed.

Lemma reached_all (recipes : list ExtractedRecipe) :
  Forall handled recipes -> reached recipes = recipes.
Proof.
  induction 1 as [|recipe rest Hr _ IH]; simpl; [reflexivity|].
  destruct (isSentinel recipe) eqn:Hs; [now rewrite IH|].
  destruct Hr as [Hr|[recipeName Hr]]; [congruence|]. now rewrite Hr, IH.
Qed.

(** C1, as the code has it.  The handler settles every record it reaches:
    the results of a message are, item by item and in order, the outcomes of
    the reached records (and one failure for an item whose extraction
    threw), and the sink receives, in the same order, the reached records
    that are not sentinels.  The items are the image batch, the documents,
    the links and the videos whose extraction returned, each with the
    records it returned.  A reached record named [UNREADABLE] or
    [NO_RECIPE] leaves a failure whose message is the source, a colon and
    the record's notes, and is never handed to the sink; a reached record
    with any other name is handed to the sink.  All records of an item are
    reached, unless the sink throws on one of them: then the records after
    it are not reached. *)
Theorem email_settles_every_reached_record (content : EmailParser.ParsedEmailContent) :
  results (email content) = flat_map outcomes (items content) /\
  created (email content) = flat_map submitted (items content) /\
  ((forall recipe,
      EmailParser.images content <> [] ->
      extractFromMultipleImages (EmailParser.images content) = Ok recipe ->
      In (Ok [recipe],
          numberText (N.of_nat (List.length (EmailParser.images content))) ++ " image(s)")
        (items content)) /\
   (forall pdf recipes,
      In pdf (EmailParser.pdfs content) -> extractFromPDF pdf = Ok recipes ->
      In (Ok recipes, orElse (EmailParser.filename pdf) "PDF") (items content)) /\
   (forall item recipe,
      In item (EmailParser.urls content) -> extractFromURL (textOf item) = Ok recipe ->
      In (Ok [recipe], textOf item) (items content)) /\
   (forall item recipe,
      In item (EmailParser.videos content) -> extractFromVideo item = Ok recipe ->
      In (Ok [recipe], platformName item ++ " video") (items content))) /\
  (forall recipes sourceDesc recipe,
     In (Ok recipes, sourceDesc) (items content) -> In recipe (reached recipes) ->
     In (recorded sourceDesc recipe) (results (email content)) /\
     (name recipe = "UNREADABLE" \/ name recipe = "NO_RECIPE" ->
        recorded sourceDesc recipe =
          mkResult false None
            (Some ("Could not extract recipe from " ++ sourceDesc ++ ": "
                     ++ notes recipe)) /\
        ~ In recipe (created (email content))) /\
     (name recipe <> "UNREADABLE" -> name recipe <> "NO_RECIPE" ->
        In recipe (created (email content)) /\
        recorded sourceDesc recipe =
          match createRecipe recipe with
          | Ok recipeName => mkResult true (Some recipeName) None
          | Throw e => mkResult false None (Some (errorMessage e))
          end)) /\
  (forall recipes,
     (exists rest,
        recipes = (reached recipes ++ rest)%list /\
        (rest <> [] ->
         exists before recipe e,
           reached recipes = (before ++ [recipe])%list /\
           name recipe <> "UNREADABLE" /\ name recipe <> "NO_RECIPE" /\
           createRecipe recipe = Throw e)) /\
     ((forall recipe, In recipe recipes ->
         name recipe = "UNREADABLE" \/ name recipe = "NO_RECIPE" \/
         exists recipeName, createRecipe recipe = Ok recipeName) ->
      reached recipes = recipes)).
Proof.
  assert (Hres : results (email content) = flat_map outcomes (items content))
    by (rewrite email_items, fold_outcomes; reflexivity).
  assert (Hcre : created (email content) = flat_map submitted (items content))
    by (rewrite email_items, fold_outcomes; reflexivity).
  split; [exact Hres|]. split; [exact Hcre|]. split; [|split].
  - unfold items. repeat split.
    + intros recipe Hne Hex. apply in_or_app. left.
      destruct (EmailParser.images content) as [|image rest] eqn:Hi;
        [now contradiction Hne|].
      left. now rewrite Hex.
    + intros pdf recipes Hin Hex. apply in_or_app. right. apply in_or_app. left.
      apply in_map_iff. exists pdf. now rewrite Hex.
    + intros item recipe Hin Hex. do 2 (apply in_or_app; right). apply in_or_app. left.
      apply in_map_iff. exists item. now rewrite Hex.
    + intros item recipe Hin Hex. do 3 (apply in_or_app; right).
      apply in_map_iff. exists item. now rewrite Hex.
  - intros recipes sourceDesc recipe Hitem Hin. split; [|split].
    + rewrite Hres. apply in_flat_map. exists (Ok recipes, sourceDesc).
      split; [exact Hitem|]. unfold outcomes. cbn [fst snd]. now apply in_map.
    + intros Hname. apply isSentinel_true in Hname.
      split; [unfold recorded; now rewrite Hname|].
      intros Hc. pose proof (email_clean content) as Hclean. unfold clean in Hclean.
      rewrite Forall_forall in Hclean. rewrite (Hclean recipe Hc) in Hname.
      discriminate.
    + intros H1 H2.
      assert (Hs : isSentinel recipe = false) by (apply isSentinel_false; now split).
      split; [|unfold recorded; now rewrite Hs].
      rewrite Hcre. apply in_flat_map. exists (Ok recipes, sourceDesc).
      split; [exact Hitem|]. unfold submitted. cbn [fst].
      apply filter_In. split; [exact Hin|]. unfold notSentinel. now rewrite Hs.
  - intros recipes. split.
    + destruct (reached_prefix recipes) as [rest [Hr Hlast]].
      exists rest. split; [exact Hr|]. intros Hne.
      destruct (Hlast Hne) as [before [recipe [e [Hb [Hs He]]]]].
      apply isSentinel_false in Hs as [H1 H2].
      now exists before, recipe, e.
    + intros Hall. apply reached_all. apply Forall_forall. intros recipe Hin.
      destruct (Hall recipe Hin) as [H|[H|H]].
      * left. apply isSentinel_true. now left.
      * left. apply isSentinel_true. now right.
      * now right.
Qed.

End Handler.

Lemma document_records_all_saved_witness :
  List.length (results (processItem accepting plainMessage (Ok [soup; declined; stew])
                          "menu.pdf" (mkState [] []))) = 3%nat /\
  created (processItem accepting plainMessage (Ok [soup; declined; stew])
             "menu.pdf" (mkState [] [])) = [soup; stew].
Proof.
  apply (document_records_all_saved accepting plainMessage [soup; declined; stew]
           "menu.pdf" (mkState [] [])).
  apply Forall_cons; [right; eexists; reflexivity|].
  apply Forall_cons; [left; reflexivity|].
  apply Forall_cons; [right; eexists; reflexivity | apply Forall_nil].
Defined.

Lemma sink_failure_drops_the_rest_witness :
  created (processItem (refusing "Stew") plainMessage (Ok [soup; stew; soup])
             "menu.pdf" (mkState [] [])) = [soup; stew] /\
  results (processItem (refusing "Stew") plainMessage (Ok [soup; stew; soup])
             "menu.pdf" (mkState [] []))
    = [ mkResult true (Some "Soup") None;
        mkResult false None (Some "Failed to create recipe: 500 - busy") ].
Proof.
  split; [|reflexivity].
  refine (proj1 (sink_failure_drops_the_rest (refusing "Stew") plainMessage
                   [soup] [soup] stew (Error "Failed to create recipe: 500 - busy")
                   "menu.pdf" (mkState [] []) _ eq_refl eq_refl)).
  apply Forall_cons; [right; eexists; reflexivity | apply Forall_nil].
Defined.

(** *** The video chain of the handler *)

Section Video.

Variable encodeURIComponent : string -> string.
Variable fetch : VideoDownloader.Request -> result VideoDownloader.ApiResponse.
Variable tiktokJson : string -> result (option VideoDownloader.TikTokData).
Variable instagramJson : string -> result (option VideoDownloader.InstagramData).
Variable fetchContent : string -> result (bool * N * string).
Variable run : string -> string -> result (option string).
Variable JSON_parse : string -> option Json.json.
Variable messages_create : string -> result Message.

(** Download the video's details, fetch the video, transcribe it, extract
    the recipe from the transcript and the caption. *)
Definition videoRecipe (url apiKey : string) : result RecipeValue :=
  match VideoDownloader.downloadVideo encodeURIComponent fetch tiktokJson instagramJson
          url apiKey with
  | Throw e => Throw e
  | Ok videoInfo =>
      match VideoDownloader.fetchVideoContent fetchContent
              (VideoDownloader.videoUrl videoInfo) with
      | Throw e => Throw e
      | Ok videoContent =>
          match Transcriber.transcribeAudio run videoContent with
          | Throw e => Throw e
          | Ok transcription =>
              outcome (extractFromTranscript JSON_parse messages_create transcription url
                         (VideoDownloader.author videoInfo)
                         (VideoDownloader.caption videoInfo))
          end
      end
  end.

(** A recipe that comes out of the video chain has a name and carries the
    link of the email as its source URL, not the address the video was
    fetched from.  The link is one of a known platform; the video's details
    were downloaded and name an address; the video fetched from that address
    was transcribed, and the transcript is not empty; and the service
    answered the message made of that transcript under its heading, the
    video's caption under its heading when it has one, and the prompt. *)
Theorem video_recipe_keeps_the_link (url apiKey : string) (r : RecipeValue) :
  videoRecipe url apiKey = Ok r ->
  v_source_url r = Json.JString url /\
  truthy (v_name r) = true /\ v_name r <> Json.JString "" /\
  VideoDownloader.isVideoUrl url = true /\
  exists videoInfo videoContent transcription answer,
    VideoDownloader.downloadVideo encodeURIComponent fetch tiktokJson instagramJson
      url apiKey = Ok videoInfo /\
    VideoDownloader.videoUrl videoInfo <> "" /\
    VideoDownloader.fetchVideoContent fetchContent (VideoDownloader.videoUrl videoInfo)
      = Ok videoContent /\
    Transcriber.transcribeAudio run videoContent = Ok transcription /\
    transcription <> "" /\
    messages_create
      ("## Audio Transcript (what the person says in the video):" ++ nl ++ nl
         ++ transcription
         ++ match VideoDownloader.caption videoInfo with
            | Some c =>
                if nonEmpty c then
                  nl ++ nl ++ "## Video Caption/Description (text written by creator):"
                    ++ nl ++ nl ++ c
                else ""
            | None => ""
            end
         ++ nl ++ nl ++ TRANSCRIPT_RECIPE_PROMPT)
      = Ok answer.
Proof.
  unfold videoRecipe.
  destruct (VideoDownloader.downloadVideo _ _ _ _ url apiKey) as [videoInfo|e] eqn:Hd;
    [|discriminate].
  destruct (VideoDownloader.fetchVideoContent _ _) as [videoContent|e] eqn:Hc;
    [|discriminate].
  destruct (Transcriber.transcribeAudio run videoContent) as [transcription|e] eqn:Ht;
    [|discriminate].
  unfold extractFromTranscript.
  destruct (messages_create _) as [response|e] eqn:Hm; [|discriminate].
  destruct (parseRecipeResponse JSON_parse response) as [recipe|e] eqn:Hp;
    [|discriminate].
  cbn [outcome]. intros H.
  apply (f_equal (fun o => match o with
                           | Ok x => x
                           | Throw _ => recipe
                           end)) in H.
  subst r. unfold attributed. cbn [v_name v_source_url].
  destruct (VideoDownloader.downloadVideo_Ok _ _ _ _ _ _ _ Hd) as [Hu Hv].
  destruct (parseRecipeResponse_named JSON_parse response recipe Hp) as [Hn [Hne _]].
  split; [reflexivity|]. split; [exact Hn|]. split; [exact Hne|].
  split; [exact Hv|].
  exists videoInfo, videoContent, transcription, response.
  split; [reflexivity|]. split; [exact Hu|]. split; [exact Hc|].
  split; [exact Ht|].
  split; [exact (Transcriber.transcribe_nonEmpty run "@cf/openai/whisper" videoContent
                   transcription Ht)|].
  rewrite <- transcriptRequest_text. exact Hm.
Qed.

End Video.

Lemma video_recipe_keeps_the_link_witness :
  videoRecipe (fun u => u)
    (VideoDownloader.replies (VideoDownloader.mkApiResponse true 200 "{}"))
    (fun _ => Ok (Some VideoDownloader.tiktokClip)) (fun _ => Ok None)
    (fun _ => Ok (true, 200%N, "bytes")) (fun _ _ => Ok (Some "Boil the pasta."))
    Json.parse (answers videoAnswer) "https://vm.tiktok.com/ZM1/" "key"
    = Ok (ofTyped (mkRecipe "Pasta" "pasta" "1. Boil" "" "" "" "Chef Ann"
                     "https://vm.tiktok.com/ZM1/" "" None)) /\
  VideoDownloader.isVideoUrl "https://vm.tiktok.com/ZM1/" = true.
Proof.
  assert (H : videoRecipe (fun u => u)
                (VideoDownloader.replies (VideoDownloader.mkApiResponse true 200 "{}"))
                (fun _ => Ok (Some VideoDownloader.tiktokClip)) (fun _ => Ok None)
                (fun _ => Ok (true, 200%N, "bytes")) (fun _ _ => Ok (Some "Boil the pasta."))
                Json.parse (answers videoAnswer) "https://vm.tiktok.com/ZM1/" "key"
              = Ok (ofTyped (mkRecipe "Pasta" "pasta" "1. Boil" "" "" "" "Chef Ann"
                               "https://vm.tiktok.com/ZM1/" "" None)))
    by (vm_compute; reflexivity).
  split; [exact H|].
  exact (proj1 (proj2 (proj2 (proj2
           (video_recipe_keeps_the_link _ _ _ _ _ _ _ _ _ _ _ H))))).
Defined.

(** A document of three records, the sink busy on the first: the declined
    record after it leaves no failure, and the one after that is never handed
    to the sink. *)
Lemma records_after_sink_failure_are_dropped :
  name declined = "NO_RECIPE" /\ name soup = "Soup" /\
  email (refusing "Stew") plainMessage noRecipe threeRecords noRecipe noRecipe menuMail
    = mkState [ mkResult false None (Some "Failed to create recipe: 500 - busy") ]
        [ stew ].
Proof. repeat split; vm_compute; reflexivity. Qed.

Example declined_is_recorded :
  saveRecipe accepting declined "https://blog.example/about" (mkState [] []) =
    (mkState
       [ mkResult false None
           (Some "Could not extract recipe from https://blog.example/about: The page is an author biography.") ]
       [],
     Ok tt).
Proof. vm_compute; reflexivity. Qed.

End Worker.
